(** * build_network.py: timeline network of intertextual influence

    A shallow embedding of [build_network.py] and of the parts of the
    libraries it drives (Python's [str], [dict] and [list], networkx's
    [Graph], plotly's [Scatter]), followed by the properties of the
    pipeline  Load -> Build -> Layout -> Traces -> View -> Render.

    Conventions of the embedding.
    - A Python [str] is a [string]: the sequence of its UTF-8 bytes.  Byte
      order on UTF-8 is code point order, so [String.leb] is Python's [<=]
      on [str].  The methods that look at characters ([strip], [lower],
      [int]) decode the bytes, work on the code points with the tables of
      the Unicode Character Database 14.0.0, the version of CPython 3.11,
      and encode the result.  [int] refuses more than 4300 digits, the
      default limit of that interpreter.
    - A Python [int] is a [Z].
    - A [dict] is an association list with unique keys kept in insertion
      order, which is the order Python iterates it in.
    - An exception is a value of [exn] carried by [result]. *)

From Stdlib Require Import List String Ascii ZArith NArith QArith Bool Lia.
From Stdlib Require Import Permutation Sorted DecimalString.
Import ListNotations.

Local Close Scope Q_scope.
Local Open Scope string_scope.
Local Open Scope list_scope.

(** ** Unicode *)

(** A character is its code point, a number.  The tables are those of
    the Unicode Character Database 14.0.0, which CPython 3.11 carries
    in [unicodedata] and [unicodetype_db]. *)

Module Unicode.
Local Open Scope N_scope.

(** The characters [str.isspace] holds of, as ranges. *)
Definition whitespace : list (N * N) :=
  [
   (9, 13); (28, 32); (133, 133); (160, 160); (5760, 5760); (8192, 8202);
   (8232, 8233); (8239, 8239); (8287, 8287); (12288, 12288)
  ].

(** The decimal digits (category Nd), as ranges that start at a digit
    zero: the value of a digit is its offset in the range, modulo 10. *)
Definition decimal_digits : list (N * N) :=
  [
   (48, 57); (1632, 1641); (1776, 1785); (1984, 1993); (2406, 2415);
   (2534, 2543); (2662, 2671); (2790, 2799); (2918, 2927); (3046, 3055);
   (3174, 3183); (3302, 3311); (3430, 3439); (3558, 3567); (3664, 3673);
   (3792, 3801); (3872, 3881); (4160, 4169); (4240, 4249); (6112, 6121);
   (6160, 6169); (6470, 6479); (6608, 6617); (6784, 6793); (6800, 6809);
   (6992, 7001); (7088, 7097); (7232, 7241); (7248, 7257); (42528, 42537);
   (43216, 43225); (43264, 43273); (43472, 43481); (43504, 43513);
   (43600, 43609); (44016, 44025); (65296, 65305); (66720, 66729);
   (68912, 68921); (69734, 69743); (69872, 69881); (69942, 69951);
   (70096, 70105); (70384, 70393); (70736, 70745); (70864, 70873);
   (71248, 71257); (71360, 71369); (71472, 71481); (71904, 71913);
   (72016, 72025); (72784, 72793); (73040, 73049); (73120, 73129);
   (92768, 92777); (92864, 92873); (93008, 93017); (120782, 120831);
   (123200, 123209); (123632, 123641); (125264, 125273); (130032, 130041)
  ].

(** The characters with the property Cased. *)
Definition cased_ranges : list (N * N) :=
  [
   (65, 90); (97, 122); (170, 170); (181, 181); (186, 186); (192, 214);
   (216, 246); (248, 442); (444, 447); (452, 659); (661, 696); (704, 705);
   (736, 740); (837, 837); (880, 883); (886, 887); (890, 893); (895, 895);
   (902, 902); (904, 906); (908, 908); (910, 929); (931, 1013); (1015, 1153);
   (1162, 1327); (1329, 1366); (1376, 1416); (4256, 4293); (4295, 4295);
   (4301, 4301); (4304, 4346); (4349, 4351); (5024, 5109); (5112, 5117);
   (7296, 7304); (7312, 7354); (7357, 7359); (7424, 7615); (7680, 7957);
   (7960, 7965); (7968, 8005); (8008, 8013); (8016, 8023); (8025, 8025);
   (8027, 8027); (8029, 8029); (8031, 8061); (8064, 8116); (8118, 8124);
   (8126, 8126); (8130, 8132); (8134, 8140); (8144, 8147); (8150, 8155);
   (8160, 8172); (8178, 8180); (8182, 8188); (8305, 8305); (8319, 8319);
   (8336, 8348); (8450, 8450); (8455, 8455); (8458, 8467); (8469, 8469);
   (8473, 8477); (8484, 8484); (8486, 8486); (8488, 8488); (8490, 8493);
   (8495, 8500); (8505, 8505); (8508, 8511); (8517, 8521); (8526, 8526);
   (8544, 8575); (8579, 8580); (9398, 9449); (11264, 11492); (11499, 11502);
   (11506, 11507); (11520, 11557); (11559, 11559); (11565, 11565);
   (42560, 42605); (42624, 42653); (42786, 42887); (42891, 42894);
   (42896, 42954); (42960, 42961); (42963, 42963); (42965, 42969);
   (42997, 42998); (43000, 43002); (43824, 43866); (43868, 43880);
   (43888, 43967); (64256, 64262); (64275, 64279); (65313, 65338);
   (65345, 65370); (66560, 66639); (66736, 66771); (66776, 66811);
   (66928, 66938); (66940, 66954); (66956, 66962); (66964, 66965);
   (66967, 66977); (66979, 66993); (66995, 67001); (67003, 67004);
   (67456, 67456); (67459, 67461); (67463, 67504); (67506, 67514);
   (68736, 68786); (68800, 68850); (71840, 71903); (93760, 93823);
   (119808, 119892); (119894, 119964); (119966, 119967); (119970, 119970);
   (119973, 119974); (119977, 119980); (119982, 119993); (119995, 119995);
   (119997, 120003); (120005, 120069); (120071, 120074); (120077, 120084);
   (120086, 120092); (120094, 120121); (120123, 120126); (120128, 120132);
   (120134, 120134); (120138, 120144); (120146, 120485); (120488, 120512);
   (120514, 120538); (120540, 120570); (120572, 120596); (120598, 120628);
   (120630, 120654); (120656, 120686); (120688, 120712); (120714, 120744);
   (120746, 120770); (120772, 120779); (122624, 122633); (122635, 122654);
   (125184, 125251); (127280, 127305); (127312, 127337); (127344, 127369)
  ].

(** The characters with the property Case_Ignorable. *)
Definition case_ignorable_ranges : list (N * N) :=
  [
   (39, 39); (46, 46); (58, 58); (94, 94); (96, 96); (168, 168); (173, 173);
   (175, 175); (180, 180); (183, 184); (688, 879); (884, 885); (890, 890);
   (900, 901); (903, 903); (1155, 1161); (1369, 1369); (1375, 1375);
   (1425, 1469); (1471, 1471); (1473, 1474); (1476, 1477); (1479, 1479);
   (1524, 1524); (1536, 1541); (1552, 1562); (1564, 1564); (1600, 1600);
   (1611, 1631); (1648, 1648); (1750, 1757); (1759, 1768); (1770, 1773);
   (1807, 1807); (1809, 1809); (1840, 1866); (1958, 1968); (2027, 2037);
   (2042, 2042); (2045, 2045); (2070, 2093); (2137, 2139); (2184, 2184);
   (2192, 2193); (2200, 2207); (2249, 2306); (2362, 2362); (2364, 2364);
   (2369, 2376); (2381, 2381); (2385, 2391); (2402, 2403); (2417, 2417);
   (2433, 2433); (2492, 2492); (2497, 2500); (2509, 2509); (2530, 2531);
   (2558, 2558); (2561, 2562); (2620, 2620); (2625, 2626); (2631, 2632);
   (2635, 2637); (2641, 2641); (2672, 2673); (2677, 2677); (2689, 2690);
   (2748, 2748); (2753, 2757); (2759, 2760); (2765, 2765); (2786, 2787);
   (2810, 2815); (2817, 2817); (2876, 2876); (2879, 2879); (2881, 2884);
   (2893, 2893); (2901, 2902); (2914, 2915); (2946, 2946); (3008, 3008);
   (3021, 3021); (3072, 3072); (3076, 3076); (3132, 3132); (3134, 3136);
   (3142, 3144); (3146, 3149); (3157, 3158); (3170, 3171); (3201, 3201);
   (3260, 3260); (3263, 3263); (3270, 3270); (3276, 3277); (3298, 3299);
   (3328, 3329); (3387, 3388); (3393, 3396); (3405, 3405); (3426, 3427);
   (3457, 3457); (3530, 3530); (3538, 3540); (3542, 3542); (3633, 3633);
   (3636, 3642); (3654, 3662); (3761, 3761); (3764, 3772); (3782, 3782);
   (3784, 3789); (3864, 3865); (3893, 3893); (3895, 3895); (3897, 3897);
   (3953, 3966); (3968, 3972); (3974, 3975); (3981, 3991); (3993, 4028);
   (4038, 4038); (4141, 4144); (4146, 4151); (4153, 4154); (4157, 4158);
   (4184, 4185); (4190, 4192); (4209, 4212); (4226, 4226); (4229, 4230);
   (4237, 4237); (4253, 4253); (4348, 4348); (4957, 4959); (5906, 5908);
   (5938, 5939); (5970, 5971); (6002, 6003); (6068, 6069); (6071, 6077);
   (6086, 6086); (6089, 6099); (6103, 6103); (6109, 6109); (6155, 6159);
   (6211, 6211); (6277, 6278); (6313, 6313); (6432, 6434); (6439, 6440);
   (6450, 6450); (6457, 6459); (6679, 6680); (6683, 6683); (6742, 6742);
   (6744, 6750); (6752, 6752); (6754, 6754); (6757, 6764); (6771, 6780);
   (6783, 6783); (6823, 6823); (6832, 6862); (6912, 6915); (6964, 6964);
   (6966, 6970); (6972, 6972); (6978, 6978); (7019, 7027); (7040, 7041);
   (7074, 7077); (7080, 7081); (7083, 7085); (7142, 7142); (7144, 7145);
   (7149, 7149); (7151, 7153); (7212, 7219); (7222, 7223); (7288, 7293);
   (7376, 7378); (7380, 7392); (7394, 7400); (7405, 7405); (7412, 7412);
   (7416, 7417); (7468, 7530); (7544, 7544); (7579, 7679); (8125, 8125);
   (8127, 8129); (8141, 8143); (8157, 8159); (8173, 8175); (8189, 8190);
   (8203, 8207); (8216, 8217); (8228, 8228); (8231, 8231); (8234, 8238);
   (8288, 8292); (8294, 8303); (8305, 8305); (8319, 8319); (8336, 8348);
   (8400, 8432); (11388, 11389); (11503, 11505); (11631, 11631);
   (11647, 11647); (11744, 11775); (11823, 11823); (12293, 12293);
   (12330, 12333); (12337, 12341); (12347, 12347); (12441, 12446);
   (12540, 12542); (40981, 40981); (42232, 42237); (42508, 42508);
   (42607, 42610); (42612, 42621); (42623, 42623); (42652, 42655);
   (42736, 42737); (42752, 42785); (42864, 42864); (42888, 42890);
   (42994, 42996); (43000, 43001); (43010, 43010); (43014, 43014);
   (43019, 43019); (43045, 43046); (43052, 43052); (43204, 43205);
   (43232, 43249); (43263, 43263); (43302, 43309); (43335, 43345);
   (43392, 43394); (43443, 43443); (43446, 43449); (43452, 43453);
   (43471, 43471); (43493, 43494); (43561, 43566); (43569, 43570);
   (43573, 43574); (43587, 43587); (43596, 43596); (43632, 43632);
   (43644, 43644); (43696, 43696); (43698, 43700); (43703, 43704);
   (43710, 43711); (43713, 43713); (43741, 43741); (43756, 43757);
   (43763, 43764); (43766, 43766); (43867, 43871); (43881, 43883);
   (44005, 44005); (44008, 44008); (44013, 44013); (64286, 64286);
   (64434, 64450); (65024, 65039); (65043, 65043); (65056, 65071);
   (65106, 65106); (65109, 65109); (65279, 65279); (65287, 65287);
   (65294, 65294); (65306, 65306); (65342, 65342); (65344, 65344);
   (65392, 65392); (65438, 65439); (65507, 65507); (65529, 65531);
   (66045, 66045); (66272, 66272); (66422, 66426); (67456, 67461);
   (67463, 67504); (67506, 67514); (68097, 68099); (68101, 68102);
   (68108, 68111); (68152, 68154); (68159, 68159); (68325, 68326);
   (68900, 68903); (69291, 69292); (69446, 69456); (69506, 69509);
   (69633, 69633); (69688, 69702); (69744, 69744); (69747, 69748);
   (69759, 69761); (69811, 69814); (69817, 69818); (69821, 69821);
   (69826, 69826); (69837, 69837); (69888, 69890); (69927, 69931);
   (69933, 69940); (70003, 70003); (70016, 70017); (70070, 70078);
   (70089, 70092); (70095, 70095); (70191, 70193); (70196, 70196);
   (70198, 70199); (70206, 70206); (70367, 70367); (70371, 70378);
   (70400, 70401); (70459, 70460); (70464, 70464); (70502, 70508);
   (70512, 70516); (70712, 70719); (70722, 70724); (70726, 70726);
   (70750, 70750); (70835, 70840); (70842, 70842); (70847, 70848);
   (70850, 70851); (71090, 71093); (71100, 71101); (71103, 71104);
   (71132, 71133); (71219, 71226); (71229, 71229); (71231, 71232);
   (71339, 71339); (71341, 71341); (71344, 71349); (71351, 71351);
   (71453, 71455); (71458, 71461); (71463, 71467); (71727, 71735);
   (71737, 71738); (71995, 71996); (71998, 71998); (72003, 72003);
   (72148, 72151); (72154, 72155); (72160, 72160); (72193, 72202);
   (72243, 72248); (72251, 72254); (72263, 72263); (72273, 72278);
   (72281, 72283); (72330, 72342); (72344, 72345); (72752, 72758);
   (72760, 72765); (72767, 72767); (72850, 72871); (72874, 72880);
   (72882, 72883); (72885, 72886); (73009, 73014); (73018, 73018);
   (73020, 73021); (73023, 73029); (73031, 73031); (73104, 73105);
   (73109, 73109); (73111, 73111); (73459, 73460); (78896, 78904);
   (92912, 92916); (92976, 92982); (92992, 92995); (94031, 94031);
   (94095, 94111); (94176, 94177); (94179, 94180); (110576, 110579);
   (110581, 110587); (110589, 110590); (113821, 113822); (113824, 113827);
   (118528, 118573); (118576, 118598); (119143, 119145); (119155, 119170);
   (119173, 119179); (119210, 119213); (119362, 119364); (121344, 121398);
   (121403, 121452); (121461, 121461); (121476, 121476); (121499, 121503);
   (121505, 121519); (122880, 122886); (122888, 122904); (122907, 122913);
   (122915, 122916); (122918, 122922); (123184, 123197); (123566, 123566);
   (123628, 123631); (125136, 125142); (125252, 125259); (127995, 127999);
   (917505, 917505); (917536, 917631); (917760, 917999)
  ].

(** The full lower case mapping: the characters it changes, in
    ascending order, each with what it becomes. *)
Definition lower_table : list (N * list N) :=
  [
   (65, [97]); (66, [98]); (67, [99]); (68, [100]); (69, [101]); (70, [102]);
   (71, [103]); (72, [104]); (73, [105]); (74, [106]); (75, [107]);
   (76, [108]); (77, [109]); (78, [110]); (79, [111]); (80, [112]);
   (81, [113]); (82, [114]); (83, [115]); (84, [116]); (85, [117]);
   (86, [118]); (87, [119]); (88, [120]); (89, [121]); (90, [122]);
   (192, [224]); (193, [225]); (194, [226]); (195, [227]); (196, [228]);
   (197, [229]); (198, [230]); (199, [231]); (200, [232]); (201, [233]);
   (202, [234]); (203, [235]); (204, [236]); (205, [237]); (206, [238]);
   (207, [239]); (208, [240]); (209, [241]); (210, [242]); (211, [243]);
   (212, [244]); (213, [245]); (214, [246]); (216, [248]); (217, [249]);
   (218, [250]); (219, [251]); (220, [252]); (221, [253]); (222, [254]);
   (256, [257]); (258, [259]); (260, [261]); (262, [263]); (264, [265]);
   (266, [267]); (268, [269]); (270, [271]); (272, [273]); (274, [275]);
   (276, [277]); (278, [279]); (280, [281]); (282, [283]); (284, [285]);
   (286, [287]); (288, [289]); (290, [291]); (292, [293]); (294, [295]);
   (296, [297]); (298, [299]); (300, [301]); (302, [303]); (304, [105; 775]);
   (306, [307]); (308, [309]); (310, [311]); (313, [314]); (315, [316]);
   (317, [318]); (319, [320]); (321, [322]); (323, [324]); (325, [326]);
   (327, [328]); (330, [331]); (332, [333]); (334, [335]); (336, [337]);
   (338, [339]); (340, [341]); (342, [343]); (344, [345]); (346, [347]);
   (348, [349]); (350, [351]); (352, [353]); (354, [355]); (356, [357]);
   (358, [359]); (360, [361]); (362, [363]); (364, [365]); (366, [367]);
   (368, [369]); (370, [371]); (372, [373]); (374, [375]); (376, [255]);
   (377, [378]); (379, [380]); (381, [382]); (385, [595]); (386, [387]);
   (388, [389]); (390, [596]); (391, [392]); (393, [598]); (394, [599]);
   (395, [396]); (398, [477]); (399, [601]); (400, [603]); (401, [402]);
   (403, [608]); (404, [611]); (406, [617]); (407, [616]); (408, [409]);
   (412, [623]); (413, [626]); (415, [629]); (416, [417]); (418, [419]);
   (420, [421]); (422, [640]); (423, [424]); (425, [643]); (428, [429]);
   (430, [648]); (431, [432]); (433, [650]); (434, [651]); (435, [436]);
   (437, [438]); (439, [658]); (440, [441]); (444, [445]); (452, [454]);
   (453, [454]); (455, [457]); (456, [457]); (458, [460]); (459, [460]);
   (461, [462]); (463, [464]); (465, [466]); (467, [468]); (469, [470]);
   (471, [472]); (473, [474]); (475, [476]); (478, [479]); (480, [481]);
   (482, [483]); (484, [485]); (486, [487]); (488, [489]); (490, [491]);
   (492, [493]); (494, [495]); (497, [499]); (498, [499]); (500, [501]);
   (502, [405]); (503, [447]); (504, [505]); (506, [507]); (508, [509]);
   (510, [511]); (512, [513]); (514, [515]); (516, [517]); (518, [519]);
   (520, [521]); (522, [523]); (524, [525]); (526, [527]); (528, [529]);
   (530, [531]); (532, [533]); (534, [535]); (536, [537]); (538, [539]);
   (540, [541]); (542, [543]); (544, [414]); (546, [547]); (548, [549]);
   (550, [551]); (552, [553]); (554, [555]); (556, [557]); (558, [559]);
   (560, [561]); (562, [563]); (570, [11365]); (571, [572]); (573, [410]);
   (574, [11366]); (577, [578]); (579, [384]); (580, [649]); (581, [652]);
   (582, [583]); (584, [585]); (586, [587]); (588, [589]); (590, [591]);
   (880, [881]); (882, [883]); (886, [887]); (895, [1011]); (902, [940]);
   (904, [941]); (905, [942]); (906, [943]); (908, [972]); (910, [973]);
   (911, [974]); (913, [945]); (914, [946]); (915, [947]); (916, [948]);
   (917, [949]); (918, [950]); (919, [951]); (920, [952]); (921, [953]);
   (922, [954]); (923, [955]); (924, [956]); (925, [957]); (926, [958]);
   (927, [959]); (928, [960]); (929, [961]); (931, [963]); (932, [964]);
   (933, [965]); (934, [966]); (935, [967]); (936, [968]); (937, [969]);
   (938, [970]); (939, [971]); (975, [983]); (984, [985]); (986, [987]);
   (988, [989]); (990, [991]); (992, [993]); (994, [995]); (996, [997]);
   (998, [999]); (1000, [1001]); (1002, [1003]); (1004, [1005]);
   (1006, [1007]); (1012, [952]); (1015, [1016]); (1017, [1010]);
   (1018, [1019]); (1021, [891]); (1022, [892]); (1023, [893]);
   (1024, [1104]); (1025, [1105]); (1026, [1106]); (1027, [1107]);
   (1028, [1108]); (1029, [1109]); (1030, [1110]); (1031, [1111]);
   (1032, [1112]); (1033, [1113]); (1034, [1114]); (1035, [1115]);
   (1036, [1116]); (1037, [1117]); (1038, [1118]); (1039, [1119]);
   (1040, [1072]); (1041, [1073]); (1042, [1074]); (1043, [1075]);
   (1044, [1076]); (1045, [1077]); (1046, [1078]); (1047, [1079]);
   (1048, [1080]); (1049, [1081]); (1050, [1082]); (1051, [1083]);
   (1052, [1084]); (1053, [1085]); (1054, [1086]); (1055, [1087]);
   (1056, [1088]); (1057, [1089]); (1058, [1090]); (1059, [1091]);
   (1060, [1092]); (1061, [1093]); (1062, [1094]); (1063, [1095]);
   (1064, [1096]); (1065, [1097]); (1066, [1098]); (1067, [1099]);
   (1068, [1100]); (1069, [1101]); (1070, [1102]); (1071, [1103]);
   (1120, [1121]); (1122, [1123]); (1124, [1125]); (1126, [1127]);
   (1128, [1129]); (1130, [1131]); (1132, [1133]); (1134, [1135]);
   (1136, [1137]); (1138, [1139]); (1140, [1141]); (1142, [1143]);
   (1144, [1145]); (1146, [1147]); (1148, [1149]); (1150, [1151]);
   (1152, [1153]); (1162, [1163]); (1164, [1165]); (1166, [1167]);
   (1168, [1169]); (1170, [1171]); (1172, [1173]); (1174, [1175]);
   (1176, [1177]); (1178, [1179]); (1180, [1181]); (1182, [1183]);
   (1184, [1185]); (1186, [1187]); (1188, [1189]); (1190, [1191]);
   (1192, [1193]); (1194, [1195]); (1196, [1197]); (1198, [1199]);
   (1200, [1201]); (1202, [1203]); (1204, [1205]); (1206, [1207]);
   (1208, [1209]); (1210, [1211]); (1212, [1213]); (1214, [1215]);
   (1216, [1231]); (1217, [1218]); (1219, [1220]); (1221, [1222]);
   (1223, [1224]); (1225, [1226]); (1227, [1228]); (1229, [1230]);
   (1232, [1233]); (1234, [1235]); (1236, [1237]); (1238, [1239]);
   (1240, [1241]); (1242, [1243]); (1244, [1245]); (1246, [1247]);
   (1248, [1249]); (1250, [1251]); (1252, [1253]); (1254, [1255]);
   (1256, [1257]); (1258, [1259]); (1260, [1261]); (1262, [1263]);
   (1264, [1265]); (1266, [1267]); (1268, [1269]); (1270, [1271]);
   (1272, [1273]); (1274, [1275]); (1276, [1277]); (1278, [1279]);
   (1280, [1281]); (1282, [1283]); (1284, [1285]); (1286, [1287]);
   (1288, [1289]); (1290, [1291]); (1292, [1293]); (1294, [1295]);
   (1296, [1297]); (1298, [1299]); (1300, [1301]); (1302, [1303]);
   (1304, [1305]); (1306, [1307]); (1308, [1309]); (1310, [1311]);
   (1312, [1313]); (1314, [1315]); (1316, [1317]); (1318, [1319]);
   (1320, [1321]); (1322, [1323]); (1324, [1325]); (1326, [1327]);
   (1329, [1377]); (1330, [1378]); (1331, [1379]); (1332, [1380]);
   (1333, [1381]); (1334, [1382]); (1335, [1383]); (1336, [1384]);
   (1337, [1385]); (1338, [1386]); (1339, [1387]); (1340, [1388]);
   (1341, [1389]); (1342, [1390]); (1343, [1391]); (1344, [1392]);
   (1345, [1393]); (1346, [1394]); (1347, [1395]); (1348, [1396]);
   (1349, [1397]); (1350, [1398]); (1351, [1399]); (1352, [1400]);
   (1353, [1401]); (1354, [1402]); (1355, [1403]); (1356, [1404]);
   (1357, [1405]); (1358, [1406]); (1359, [1407]); (1360, [1408]);
   (1361, [1409]); (1362, [1410]); (1363, [1411]); (1364, [1412]);
   (1365, [1413]); (1366, [1414]); (4256, [11520]); (4257, [11521]);
   (4258, [11522]); (4259, [11523]); (4260, [11524]); (4261, [11525]);
   (4262, [11526]); (4263, [11527]); (4264, [11528]); (4265, [11529]);
   (4266, [11530]); (4267, [11531]); (4268, [11532]); (4269, [11533]);
   (4270, [11534]); (4271, [11535]); (4272, [11536]); (4273, [11537]);
   (4274, [11538]); (4275, [11539]); (4276, [11540]); (4277, [11541]);
   (4278, [11542]); (4279, [11543]); (4280, [11544]); (4281, [11545]);
   (4282, [11546]); (4283, [11547]); (4284, [11548]); (4285, [11549]);
   (4286, [11550]); (4287, [11551]); (4288, [11552]); (4289, [11553]);
   (4290, [11554]); (4291, [11555]); (4292, [11556]); (4293, [11557]);
   (4295, [11559]); (4301, [11565]); (5024, [43888]); (5025, [43889]);
   (5026, [43890]); (5027, [43891]); (5028, [43892]); (5029, [43893]);
   (5030, [43894]); (5031, [43895]); (5032, [43896]); (5033, [43897]);
   (5034, [43898]); (5035, [43899]); (5036, [43900]); (5037, [43901]);
   (5038, [43902]); (5039, [43903]); (5040, [43904]); (5041, [43905]);
   (5042, [43906]); (5043, [43907]); (5044, [43908]); (5045, [43909]);
   (5046, [43910]); (5047, [43911]); (5048, [43912]); (5049, [43913]);
   (5050, [43914]); (5051, [43915]); (5052, [43916]); (5053, [43917]);
   (5054, [43918]); (5055, [43919]); (5056, [43920]); (5057, [43921]);
   (5058, [43922]); (5059, [43923]); (5060, [43924]); (5061, [43925]);
   (5062, [43926]); (5063, [43927]); (5064, [43928]); (5065, [43929]);
   (5066, [43930]); (5067, [43931]); (5068, [43932]); (5069, [43933]);
   (5070, [43934]); (5071, [43935]); (5072, [43936]); (5073, [43937]);
   (5074, [43938]); (5075, [43939]); (5076, [43940]); (5077, [43941]);
   (5078, [43942]); (5079, [43943]); (5080, [43944]); (5081, [43945]);
   (5082, [43946]); (5083, [43947]); (5084, [43948]); (5085, [43949]);
   (5086, [43950]); (5087, [43951]); (5088, [43952]); (5089, [43953]);
   (5090, [43954]); (5091, [43955]); (5092, [43956]); (5093, [43957]);
   (5094, [43958]); (5095, [43959]); (5096, [43960]); (5097, [43961]);
   (5098, [43962]); (5099, [43963]); (5100, [43964]); (5101, [43965]);
   (5102, [43966]); (5103, [43967]); (5104, [5112]); (5105, [5113]);
   (5106, [5114]); (5107, [5115]); (5108, [5116]); (5109, [5117]);
   (7312, [4304]); (7313, [4305]); (7314, [4306]); (7315, [4307]);
   (7316, [4308]); (7317, [4309]); (7318, [4310]); (7319, [4311]);
   (7320, [4312]); (7321, [4313]); (7322, [4314]); (7323, [4315]);
   (7324, [4316]); (7325, [4317]); (7326, [4318]); (7327, [4319]);
   (7328, [4320]); (7329, [4321]); (7330, [4322]); (7331, [4323]);
   (7332, [4324]); (7333, [4325]); (7334, [4326]); (7335, [4327]);
   (7336, [4328]); (7337, [4329]); (7338, [4330]); (7339, [4331]);
   (7340, [4332]); (7341, [4333]); (7342, [4334]); (7343, [4335]);
   (7344, [4336]); (7345, [4337]); (7346, [4338]); (7347, [4339]);
   (7348, [4340]); (7349, [4341]); (7350, [4342]); (7351, [4343]);
   (7352, [4344]); (7353, [4345]); (7354, [4346]); (7357, [4349]);
   (7358, [4350]); (7359, [4351]); (7680, [7681]); (7682, [7683]);
   (7684, [7685]); (7686, [7687]); (7688, [7689]); (7690, [7691]);
   (7692, [7693]); (7694, [7695]); (7696, [7697]); (7698, [7699]);
   (7700, [7701]); (7702, [7703]); (7704, [7705]); (7706, [7707]);
   (7708, [7709]); (7710, [7711]); (7712, [7713]); (7714, [7715]);
   (7716, [7717]); (7718, [7719]); (7720, [7721]); (7722, [7723]);
   (7724, [7725]); (7726, [7727]); (7728, [7729]); (7730, [7731]);
   (7732, [7733]); (7734, [7735]); (7736, [7737]); (7738, [7739]);
   (7740, [7741]); (7742, [7743]); (7744, [7745]); (7746, [7747]);
   (7748, [7749]); (7750, [7751]); (7752, [7753]); (7754, [7755]);
   (7756, [7757]); (7758, [7759]); (7760, [7761]); (7762, [7763]);
   (7764, [7765]); (7766, [7767]); (7768, [7769]); (7770, [7771]);
   (7772, [7773]); (7774, [7775]); (7776, [7777]); (7778, [7779]);
   (7780, [7781]); (7782, [7783]); (7784, [7785]); (7786, [7787]);
   (7788, [7789]); (7790, [7791]); (7792, [7793]); (7794, [7795]);
   (7796, [7797]); (7798, [7799]); (7800, [7801]); (7802, [7803]);
   (7804, [7805]); (7806, [7807]); (7808, [7809]); (7810, [7811]);
   (7812, [7813]); (7814, [7815]); (7816, [7817]); (7818, [7819]);
   (7820, [7821]); (7822, [7823]); (7824, [7825]); (7826, [7827]);
   (7828, [7829]); (7838, [223]); (7840, [7841]); (7842, [7843]);
   (7844, [7845]); (7846, [7847]); (7848, [7849]); (7850, [7851]);
   (7852, [7853]); (7854, [7855]); (7856, [7857]); (7858, [7859]);
   (7860, [7861]); (7862, [7863]); (7864, [7865]); (7866, [7867]);
   (7868, [7869]); (7870, [7871]); (7872, [7873]); (7874, [7875]);
   (7876, [7877]); (7878, [7879]); (7880, [7881]); (7882, [7883]);
   (7884, [7885]); (7886, [7887]); (7888, [7889]); (7890, [7891]);
   (7892, [7893]); (7894, [7895]); (7896, [7897]); (7898, [7899]);
   (7900, [7901]); (7902, [7903]); (7904, [7905]); (7906, [7907]);
   (7908, [7909]); (7910, [7911]); (7912, [7913]); (7914, [7915]);
   (7916, [7917]); (7918, [7919]); (7920, [7921]); (7922, [7923]);
   (7924, [7925]); (7926, [7927]); (7928, [7929]); (7930, [7931]);
   (7932, [7933]); (7934, [7935]); (7944, [7936]); (7945, [7937]);
   (7946, [7938]); (7947, [7939]); (7948, [7940]); (7949, [7941]);
   (7950, [7942]); (7951, [7943]); (7960, [7952]); (7961, [7953]);
   (7962, [7954]); (7963, [7955]); (7964, [7956]); (7965, [7957]);
   (7976, [7968]); (7977, [7969]); (7978, [7970]); (7979, [7971]);
   (7980, [7972]); (7981, [7973]); (7982, [7974]); (7983, [7975]);
   (7992, [7984]); (7993, [7985]); (7994, [7986]); (7995, [7987]);
   (7996, [7988]); (7997, [7989]); (7998, [7990]); (7999, [7991]);
   (8008, [8000]); (8009, [8001]); (8010, [8002]); (8011, [8003]);
   (8012, [8004]); (8013, [8005]); (8025, [8017]); (8027, [8019]);
   (8029, [8021]); (8031, [8023]); (8040, [8032]); (8041, [8033]);
   (8042, [8034]); (8043, [8035]); (8044, [8036]); (8045, [8037]);
   (8046, [8038]); (8047, [8039]); (8072, [8064]); (8073, [8065]);
   (8074, [8066]); (8075, [8067]); (8076, [8068]); (8077, [8069]);
   (8078, [8070]); (8079, [8071]); (8088, [8080]); (8089, [8081]);
   (8090, [8082]); (8091, [8083]); (8092, [8084]); (8093, [8085]);
   (8094, [8086]); (8095, [8087]); (8104, [8096]); (8105, [8097]);
   (8106, [8098]); (8107, [8099]); (8108, [8100]); (8109, [8101]);
   (8110, [8102]); (8111, [8103]); (8120, [8112]); (8121, [8113]);
   (8122, [8048]); (8123, [8049]); (8124, [8115]); (8136, [8050]);
   (8137, [8051]); (8138, [8052]); (8139, [8053]); (8140, [8131]);
   (8152, [8144]); (8153, [8145]); (8154, [8054]); (8155, [8055]);
   (8168, [8160]); (8169, [8161]); (8170, [8058]); (8171, [8059]);
   (8172, [8165]); (8184, [8056]); (8185, [8057]); (8186, [8060]);
   (8187, [8061]); (8188, [8179]); (8486, [969]); (8490, [107]);
   (8491, [229]); (8498, [8526]); (8544, [8560]); (8545, [8561]);
   (8546, [8562]); (8547, [8563]); (8548, [8564]); (8549, [8565]);
   (8550, [8566]); (8551, [8567]); (8552, [8568]); (8553, [8569]);
   (8554, [8570]); (8555, [8571]); (8556, [8572]); (8557, [8573]);
   (8558, [8574]); (8559, [8575]); (8579, [8580]); (9398, [9424]);
   (9399, [9425]); (9400, [9426]); (9401, [9427]); (9402, [9428]);
   (9403, [9429]); (9404, [9430]); (9405, [9431]); (9406, [9432]);
   (9407, [9433]); (9408, [9434]); (9409, [9435]); (9410, [9436]);
   (9411, [9437]); (9412, [9438]); (9413, [9439]); (9414, [9440]);
   (9415, [9441]); (9416, [9442]); (9417, [9443]); (9418, [9444]);
   (9419, [9445]); (9420, [9446]); (9421, [9447]); (9422, [9448]);
   (9423, [9449]); (11264, [11312]); (11265, [11313]); (11266, [11314]);
   (11267, [11315]); (11268, [11316]); (11269, [11317]); (11270, [11318]);
   (11271, [11319]); (11272, [11320]); (11273, [11321]); (11274, [11322]);
   (11275, [11323]); (11276, [11324]); (11277, [11325]); (11278, [11326]);
   (11279, [11327]); (11280, [11328]); (11281, [11329]); (11282, [11330]);
   (11283, [11331]); (11284, [11332]); (11285, [11333]); (11286, [11334]);
   (11287, [11335]); (11288, [11336]); (11289, [11337]); (11290, [11338]);
   (11291, [11339]); (11292, [11340]); (11293, [11341]); (11294, [11342]);
   (11295, [11343]); (11296, [11344]); (11297, [11345]); (11298, [11346]);
   (11299, [11347]); (11300, [11348]); (11301, [11349]); (11302, [11350]);
   (11303, [11351]); (11304, [11352]); (11305, [11353]); (11306, [11354]);
   (11307, [11355]); (11308, [11356]); (11309, [11357]); (11310, [11358]);
   (11311, [11359]); (11360, [11361]); (11362, [619]); (11363, [7549]);
   (11364, [637]); (11367, [11368]); (11369, [11370]); (11371, [11372]);
   (11373, [593]); (11374, [625]); (11375, [592]); (11376, [594]);
   (11378, [11379]); (11381, [11382]); (11390, [575]); (11391, [576]);
   (11392, [11393]); (11394, [11395]); (11396, [11397]); (11398, [11399]);
   (11400, [11401]); (11402, [11403]); (11404, [11405]); (11406, [11407]);
   (11408, [11409]); (11410, [11411]); (11412, [11413]); (11414, [11415]);
   (11416, [11417]); (11418, [11419]); (11420, [11421]); (11422, [11423]);
   (11424, [11425]); (11426, [11427]); (11428, [11429]); (11430, [11431]);
   (11432, [11433]); (11434, [11435]); (11436, [11437]); (11438, [11439]);
   (11440, [11441]); (11442, [11443]); (11444, [11445]); (11446, [11447]);
   (11448, [11449]); (11450, [11451]); (11452, [11453]); (11454, [11455]);
   (11456, [11457]); (11458, [11459]); (11460, [11461]); (11462, [11463]);
   (11464, [11465]); (11466, [11467]); (11468, [11469]); (11470, [11471]);
   (11472, [11473]); (11474, [11475]); (11476, [11477]); (11478, [11479]);
   (11480, [11481]); (11482, [11483]); (11484, [11485]); (11486, [11487]);
   (11488, [11489]); (11490, [11491]); (11499, [11500]); (11501, [11502]);
   (11506, [11507]); (42560, [42561]); (42562, [42563]); (42564, [42565]);
   (42566, [42567]); (42568, [42569]); (42570, [42571]); (42572, [42573]);
   (42574, [42575]); (42576, [42577]); (42578, [42579]); (42580, [42581]);
   (42582, [42583]); (42584, [42585]); (42586, [42587]); (42588, [42589]);
   (42590, [42591]); (42592, [42593]); (42594, [42595]); (42596, [42597]);
   (42598, [42599]); (42600, [42601]); (42602, [42603]); (42604, [42605]);
   (42624, [42625]); (42626, [42627]); (42628, [42629]); (42630, [42631]);
   (42632, [42633]); (42634, [42635]); (42636, [42637]); (42638, [42639]);
   (42640, [42641]); (42642, [42643]); (42644, [42645]); (42646, [42647]);
   (42648, [42649]); (42650, [42651]); (42786, [42787]); (42788, [42789]);
   (42790, [42791]); (42792, [42793]); (42794, [42795]); (42796, [42797]);
   (42798, [42799]); (42802, [42803]); (42804, [42805]); (42806, [42807]);
   (42808, [42809]); (42810, [42811]); (42812, [42813]); (42814, [42815]);
   (42816, [42817]); (42818, [42819]); (42820, [42821]); (42822, [42823]);
   (42824, [42825]); (42826, [42827]); (42828, [42829]); (42830, [42831]);
   (42832, [42833]); (42834, [42835]); (42836, [42837]); (42838, [42839]);
   (42840, [42841]); (42842, [42843]); (42844, [42845]); (42846, [42847]);
   (42848, [42849]); (42850, [42851]); (42852, [42853]); (42854, [42855]);
   (42856, [42857]); (42858, [42859]); (42860, [42861]); (42862, [42863]);
   (42873, [42874]); (42875, [42876]); (42877, [7545]); (42878, [42879]);
   (42880, [42881]); (42882, [42883]); (42884, [42885]); (42886, [42887]);
   (42891, [42892]); (42893, [613]); (42896, [42897]); (42898, [42899]);
   (42902, [42903]); (42904, [42905]); (42906, [42907]); (42908, [42909]);
   (42910, [42911]); (42912, [42913]); (42914, [42915]); (42916, [42917]);
   (42918, [42919]); (42920, [42921]); (42922, [614]); (42923, [604]);
   (42924, [609]); (42925, [620]); (42926, [618]); (42928, [670]);
   (42929, [647]); (42930, [669]); (42931, [43859]); (42932, [42933]);
   (42934, [42935]); (42936, [42937]); (42938, [42939]); (42940, [42941]);
   (42942, [42943]); (42944, [42945]); (42946, [42947]); (42948, [42900]);
   (42949, [642]); (42950, [7566]); (42951, [42952]); (42953, [42954]);
   (42960, [42961]); (42966, [42967]); (42968, [42969]); (42997, [42998]);
   (65313, [65345]); (65314, [65346]); (65315, [65347]); (65316, [65348]);
   (65317, [65349]); (65318, [65350]); (65319, [65351]); (65320, [65352]);
   (65321, [65353]); (65322, [65354]); (65323, [65355]); (65324, [65356]);
   (65325, [65357]); (65326, [65358]); (65327, [65359]); (65328, [65360]);
   (65329, [65361]); (65330, [65362]); (65331, [65363]); (65332, [65364]);
   (65333, [65365]); (65334, [65366]); (65335, [65367]); (65336, [65368]);
   (65337, [65369]); (65338, [65370]); (66560, [66600]); (66561, [66601]);
   (66562, [66602]); (66563, [66603]); (66564, [66604]); (66565, [66605]);
   (66566, [66606]); (66567, [66607]); (66568, [66608]); (66569, [66609]);
   (66570, [66610]); (66571, [66611]); (66572, [66612]); (66573, [66613]);
   (66574, [66614]); (66575, [66615]); (66576, [66616]); (66577, [66617]);
   (66578, [66618]); (66579, [66619]); (66580, [66620]); (66581, [66621]);
   (66582, [66622]); (66583, [66623]); (66584, [66624]); (66585, [66625]);
   (66586, [66626]); (66587, [66627]); (66588, [66628]); (66589, [66629]);
   (66590, [66630]); (66591, [66631]); (66592, [66632]); (66593, [66633]);
   (66594, [66634]); (66595, [66635]); (66596, [66636]); (66597, [66637]);
   (66598, [66638]); (66599, [66639]); (66736, [66776]); (66737, [66777]);
   (66738, [66778]); (66739, [66779]); (66740, [66780]); (66741, [66781]);
   (66742, [66782]); (66743, [66783]); (66744, [66784]); (66745, [66785]);
   (66746, [66786]); (66747, [66787]); (66748, [66788]); (66749, [66789]);
   (66750, [66790]); (66751, [66791]); (66752, [66792]); (66753, [66793]);
   (66754, [66794]); (66755, [66795]); (66756, [66796]); (66757, [66797]);
   (66758, [66798]); (66759, [66799]); (66760, [66800]); (66761, [66801]);
   (66762, [66802]); (66763, [66803]); (66764, [66804]); (66765, [66805]);
   (66766, [66806]); (66767, [66807]); (66768, [66808]); (66769, [66809]);
   (66770, [66810]); (66771, [66811]); (66928, [66967]); (66929, [66968]);
   (66930, [66969]); (66931, [66970]); (66932, [66971]); (66933, [66972]);
   (66934, [66973]); (66935, [66974]); (66936, [66975]); (66937, [66976]);
   (66938, [66977]); (66940, [66979]); (66941, [66980]); (66942, [66981]);
   (66943, [66982]); (66944, [66983]); (66945, [66984]); (66946, [66985]);
   (66947, [66986]); (66948, [66987]); (66949, [66988]); (66950, [66989]);
   (66951, [66990]); (66952, [66991]); (66953, [66992]); (66954, [66993]);
   (66956, [66995]); (66957, [66996]); (66958, [66997]); (66959, [66998]);
   (66960, [66999]); (66961, [67000]); (66962, [67001]); (66964, [67003]);
   (66965, [67004]); (68736, [68800]); (68737, [68801]); (68738, [68802]);
   (68739, [68803]); (68740, [68804]); (68741, [68805]); (68742, [68806]);
   (68743, [68807]); (68744, [68808]); (68745, [68809]); (68746, [68810]);
   (68747, [68811]); (68748, [68812]); (68749, [68813]); (68750, [68814]);
   (68751, [68815]); (68752, [68816]); (68753, [68817]); (68754, [68818]);
   (68755, [68819]); (68756, [68820]); (68757, [68821]); (68758, [68822]);
   (68759, [68823]); (68760, [68824]); (68761, [68825]); (68762, [68826]);
   (68763, [68827]); (68764, [68828]); (68765, [68829]); (68766, [68830]);
   (68767, [68831]); (68768, [68832]); (68769, [68833]); (68770, [68834]);
   (68771, [68835]); (68772, [68836]); (68773, [68837]); (68774, [68838]);
   (68775, [68839]); (68776, [68840]); (68777, [68841]); (68778, [68842]);
   (68779, [68843]); (68780, [68844]); (68781, [68845]); (68782, [68846]);
   (68783, [68847]); (68784, [68848]); (68785, [68849]); (68786, [68850]);
   (71840, [71872]); (71841, [71873]); (71842, [71874]); (71843, [71875]);
   (71844, [71876]); (71845, [71877]); (71846, [71878]); (71847, [71879]);
   (71848, [71880]); (71849, [71881]); (71850, [71882]); (71851, [71883]);
   (71852, [71884]); (71853, [71885]); (71854, [71886]); (71855, [71887]);
   (71856, [71888]); (71857, [71889]); (71858, [71890]); (71859, [71891]);
   (71860, [71892]); (71861, [71893]); (71862, [71894]); (71863, [71895]);
   (71864, [71896]); (71865, [71897]); (71866, [71898]); (71867, [71899]);
   (71868, [71900]); (71869, [71901]); (71870, [71902]); (71871, [71903]);
   (93760, [93792]); (93761, [93793]); (93762, [93794]); (93763, [93795]);
   (93764, [93796]); (93765, [93797]); (93766, [93798]); (93767, [93799]);
   (93768, [93800]); (93769, [93801]); (93770, [93802]); (93771, [93803]);
   (93772, [93804]); (93773, [93805]); (93774, [93806]); (93775, [93807]);
   (93776, [93808]); (93777, [93809]); (93778, [93810]); (93779, [93811]);
   (93780, [93812]); (93781, [93813]); (93782, [93814]); (93783, [93815]);
   (93784, [93816]); (93785, [93817]); (93786, [93818]); (93787, [93819]);
   (93788, [93820]); (93789, [93821]); (93790, [93822]); (93791, [93823]);
   (125184, [125218]); (125185, [125219]); (125186, [125220]);
   (125187, [125221]); (125188, [125222]); (125189, [125223]);
   (125190, [125224]); (125191, [125225]); (125192, [125226]);
   (125193, [125227]); (125194, [125228]); (125195, [125229]);
   (125196, [125230]); (125197, [125231]); (125198, [125232]);
   (125199, [125233]); (125200, [125234]); (125201, [125235]);
   (125202, [125236]); (125203, [125237]); (125204, [125238]);
   (125205, [125239]); (125206, [125240]); (125207, [125241]);
   (125208, [125242]); (125209, [125243]); (125210, [125244]);
   (125211, [125245]); (125212, [125246]); (125213, [125247]);
   (125214, [125248]); (125215, [125249]); (125216, [125250]);
   (125217, [125251])
  ].

Fixpoint in_ranges (c : N) (rs : list (N * N)) : bool :=
  match rs with
  | [] => false
  | (a, b) :: r => (a <=? c) && (c <=? b) || in_ranges c r
  end.

(** [Py_UNICODE_ISSPACE] *)
Definition is_space (c : N) : bool := in_ranges c whitespace.

(** [_PyUnicode_IsCased] and [_PyUnicode_IsCaseIgnorable] *)
Definition cased (c : N) : bool := in_ranges c cased_ranges.
Definition case_ignorable (c : N) : bool := in_ranges c case_ignorable_ranges.

(** [Py_UNICODE_TODECIMAL]: the value of a decimal digit. *)
Fixpoint decimal_in (c : N) (rs : list (N * N)) : option N :=
  match rs with
  | [] => None
  | (a, b) :: r =>
      if (a <=? c) && (c <=? b) then Some ((c - a) mod 10)
      else decimal_in c r
  end.
Definition decimal (c : N) : option N := decimal_in c decimal_digits.

Fixpoint lookup (c : N) (t : list (N * list N)) : option (list N) :=
  match t with
  | [] => None
  | (k, out) :: r =>
      if k =? c then Some out
      else if c <? k then None
      else lookup c r
  end.

(** [_PyUnicode_ToLowerFull]: a character the table does not list is its
    own lower case. *)
Definition to_lower (c : N) : list N :=
  match lookup c lower_table with
  | Some out => out
  | None => [c]
  end.

(** The capital sigma, whose lower case depends on its place in the
    word, and the two forms it takes. *)
Definition capital_sigma : N := 931.
Definition final_small_sigma : N := 962.
Definition small_sigma : N := 963.

End Unicode.

(** ** UTF-8 *)

Module Utf8.
Local Open Scope N_scope.

(** The code points: the numbers up to U+10FFFF. *)
Definition code_point (c : N) : bool := c <? 1114112.

Definition byte (n : N) : ascii := ascii_of_N n.

(** A continuation byte, with six bits of the code point. *)
Definition cont (n : N) : ascii := byte (128 + n mod 64).

Definition encode1 (c : N) : string :=
  if c <? 128 then String (byte c) EmptyString
  else if c <? 2048 then
    String (byte (192 + c / 64)) (String (cont c) EmptyString)
  else if c <? 65536 then
    String (byte (224 + c / 4096))
      (String (cont (c / 64)) (String (cont c) EmptyString))
  else
    String (byte (240 + c / 262144))
      (String (cont (c / 4096))
         (String (cont (c / 64)) (String (cont c) EmptyString))).

Fixpoint encode (l : list N) : string :=
  match l with
  | [] => EmptyString
  | c :: r => (encode1 c ++ encode r)%string
  end.

Definition is_cont (a : ascii) : bool :=
  let n := N_of_ascii a in (128 <=? n) && (n <? 192).

Definition payload (a : ascii) : N := N_of_ascii a mod 64.

(** The decoder: no overlong form and nothing above U+10FFFF.  A
    surrogate, which a [str] may hold though no UTF-8 file does, is
    written in three bytes like its neighbours, as the codec does with
    [surrogatepass]; so every [str] has its bytes.  [None] on bytes that
    are no character sequence. *)
Fixpoint decode (s : string) : option (list N) :=
  match s with
  | EmptyString => Some []
  | String a r =>
      let n := N_of_ascii a in
      if n <? 128 then option_map (cons n) (decode r)
      else if n <? 192 then None
      else if n <? 224 then
        match r with
        | String b r1 =>
            let c := (n - 192) * 64 + payload b in
            if is_cont b && (128 <=? c)
            then option_map (cons c) (decode r1) else None
        | _ => None
        end
      else if n <? 240 then
        match r with
        | String b (String b2 r2) =>
            let c := (n - 224) * 4096 + payload b * 64 + payload b2 in
            if is_cont b && is_cont b2 && (2048 <=? c)
            then option_map (cons c) (decode r2) else None
        | _ => None
        end
      else
        match r with
        | String b (String b2 (String b3 r3)) =>
            let c := (n - 240) * 262144 + payload b * 4096
                     + payload b2 * 64 + payload b3 in
            if is_cont b && is_cont b2 && is_cont b3
               && (65536 <=? c) && (c <? 1114112)
            then option_map (cons c) (decode r3) else None
        | _ => None
        end
  end.

End Utf8.

(** ** Python strings *)

Module PyStr.

(** The characters of a [str].  A [string] that is not UTF-8 is no
    [str]; the methods below leave such bytes as they are. *)
Definition on_chars (f : list N -> list N) (s : string) : string :=
  match Utf8.decode s with
  | Some l => Utf8.encode (f l)
  | None => s
  end.

(** [str.isspace] of one character *)
Definition is_space (c : N) : bool := Unicode.is_space c.

Fixpoint lstrip_chars (l : list N) : list N :=
  match l with
  | [] => []
  | c :: r => if is_space c then lstrip_chars r else l
  end.

Fixpoint rstrip_chars (l : list N) : list N :=
  match l with
  | [] => []
  | c :: r =>
      match rstrip_chars r with
      | [] => if is_space c then [] else [c]
      | r' => c :: r'
      end
  end.

Definition strip_chars (l : list N) : list N := rstrip_chars (lstrip_chars l).

(** [s.strip()]: without the whitespace at either end. *)
Definition strip (s : string) : string := on_chars strip_chars s.

(** The first character that is not case-ignorable, and what follows. *)
Fixpoint skip_ignorable (l : list N) : list N :=
  match l with
  | [] => []
  | c :: r => if Unicode.case_ignorable c then skip_ignorable r else l
  end.

(** [handle_capital_sigma]: a capital sigma is final when a cased
    character comes before it and none after it, case-ignorable
    characters skipped on both sides.  [before] holds the characters
    before the sigma, the nearest first. *)
Definition final_sigma (before after : list N) : bool :=
  match skip_ignorable before with
  | [] => false
  | p :: _ =>
      Unicode.cased p &&
      match skip_ignorable after with
      | [] => true
      | q :: _ => negb (Unicode.cased q)
      end
  end.

(** The lower case of the character [c] between [before] and [after]. *)
Definition lower_char (before : list N) (c : N) (after : list N) : list N :=
  if N.eqb c Unicode.capital_sigma then
    [if final_sigma before after then Unicode.final_small_sigma
     else Unicode.small_sigma]
  else Unicode.to_lower c.

Fixpoint lower_from (before l : list N) : list N :=
  match l with
  | [] => []
  | c :: r => lower_char before c r ++ lower_from (c :: before) r
  end.

Definition lower_chars (l : list N) : list N := lower_from [] l.

(** [s.lower()] *)
Definition lower (s : string) : string := on_chars lower_chars s.

(** [bool(s)]: a string is truthy when it is not empty. *)
Definition truthy (s : string) : bool :=
  match s with EmptyString => false | _ => true end.

(** [s.split(sep)] for a one-character ASCII separator: the pieces
    between the separators; ["".split(";")] is [[""]].  In UTF-8 an
    ASCII byte is always a character of its own. *)
Fixpoint split (sep : ascii) (s : string) : list string :=
  match s with
  | EmptyString => [EmptyString]
  | String c r =>
      if Ascii.eqb c sep then EmptyString :: split sep r
      else match split sep r with
           | [] => [String c EmptyString]
           | p :: ps => String c p :: ps
           end
  end.

(** [sep.join(l)] *)
Fixpoint join (sep : string) (l : list string) : string :=
  match l with
  | [] => EmptyString
  | [a] => a
  | a :: r => (a ++ sep ++ join sep r)%string
  end.

(** [str(n)] for an [int]. *)
Definition str_of_int (n : Z) : string :=
  NilEmpty.string_of_int (Z.to_int n).

(** [needle in hay] *)
Definition Substring (needle hay : string) : Prop :=
  exists pre post : string, hay = (pre ++ needle ++ post)%string.

Fixpoint contains (needle hay : string) : bool :=
  String.prefix needle hay ||
  match hay with
  | EmptyString => false
  | String _ r => contains needle r
  end.

End PyStr.

(** ** Exceptions *)

Inductive exn : Type :=
| KeyError | ValueError | AttributeError | TypeError | IndexError.

Inductive result (A : Type) : Type :=
| Ok (a : A)
| Raise (e : exn).
Arguments Ok {A} a.
Arguments Raise {A} e.

Definition bind {A B} (c : result A) (k : A -> result B) : result B :=
  match c with
  | Ok a => k a
  | Raise e => Raise e
  end.

Notation "x <- c ;; k" := (bind c (fun x => k))
  (at level 61, c at next level, right associativity).
Notation "' pat <- c ;; k" := (bind c (fun x => match x with pat => k end))
  (at level 61, pat pattern, c at next level, right associativity).

(** A [for] loop whose body may raise: the state is threaded from left to
    right and the first exception leaves the loop. *)
Fixpoint for_each {S A} (body : S -> A -> result S) (l : list A) (s : S)
  : result S :=
  match l with
  | [] => Ok s
  | a :: r => s' <- body s a ;; for_each body r s'
  end.

(** A list comprehension whose element expression may raise. *)
Fixpoint map_r {A B} (f : A -> result B) (l : list A) : result (list B) :=
  match l with
  | [] => Ok []
  | a :: r => b <- f a ;; bs <- map_r f r ;; Ok (b :: bs)
  end.

(** ** Python dictionaries with [str] keys *)

Module Dict.
Section Ops.
Context {V : Type}.

Definition keys (d : list (string * V)) : list string := map fst d.

(** [d.get(k)] *)
Fixpoint get (k : string) (d : list (string * V)) : option V :=
  match d with
  | [] => None
  | (k', v) :: r => if String.eqb k' k then Some v else get k r
  end.

(** [k in d] *)
Definition mem (k : string) (d : list (string * V)) : bool :=
  match get k d with Some _ => true | None => false end.

(** [d[k]] *)
Definition item (k : string) (d : list (string * V)) : result V :=
  match get k d with Some v => Ok v | None => Raise KeyError end.

(** [d[k] = v]: an existing key keeps its place, a new one goes last. *)
Fixpoint set (k : string) (v : V) (d : list (string * V))
  : list (string * V) :=
  match d with
  | [] => [(k, v)]
  | (k', v') :: r =>
      if String.eqb k' k then (k', v) :: r else (k', v') :: set k v r
  end.

(** In-place change of the object stored under [k]; no effect when [k]
    is not a key. *)
Fixpoint alter (f : V -> V) (k : string) (d : list (string * V))
  : list (string * V) :=
  match d with
  | [] => []
  | (k', v') :: r =>
      if String.eqb k' k then (k', f v') :: r else (k', v') :: alter f k r
  end.
End Ops.
End Dict.

(** ** Python lists *)

Module PyList.

(** [x in l] for strings *)
Definition mem (x : string) (l : list string) : bool :=
  existsb (String.eqb x) l.

(** [l.index(x)]: the first position of [x], [ValueError] without one. *)
Fixpoint index (x : string) (l : list string) : result Z :=
  match l with
  | [] => Raise ValueError
  | a :: r => if String.eqb a x then Ok 0%Z
              else i <- index x r ;; Ok (i + 1)%Z
  end.

Fixpoint set_nat {A} (i : nat) (v : A) (l : list A) : list A :=
  match l, i with
  | [], _ => []
  | _ :: r, O => v :: r
  | a :: r, S j => a :: set_nat j v r
  end.

(** [l[i] = v]: a negative index counts from the end; an index outside
    the list raises [IndexError]. *)
Definition setitem {A} (i : Z) (v : A) (l : list A) : result (list A) :=
  let n := Z.of_nat (List.length l) in
  let j := if (i <? 0)%Z then (i + n)%Z else i in
  if ((0 <=? j) && (j <? n))%Z then Ok (set_nat (Z.to_nat j) v l)
  else Raise IndexError.

(** [[v] * n] *)
Definition replicate {A} (v : A) (n : Z) : list A := repeat v (Z.to_nat n).

(** [enumerate(l)] *)
Fixpoint enumerate_from {A} (i : Z) (l : list A) : list (Z * A) :=
  match l with
  | [] => []
  | a :: r => (i, a) :: enumerate_from (i + 1)%Z r
  end.
Definition enumerate {A} (l : list A) : list (Z * A) := enumerate_from 0%Z l.

(** [sorted(l, key=key)].  Python's sort is stable; a stable sort has one
    possible result, which insertion from the right computes: an element
    is put in front of the first one whose key is not smaller. *)
Section Sorted.
Context {A K : Type} (leb : K -> K -> bool) (key : A -> K).

Fixpoint insert (a : A) (l : list A) : list A :=
  match l with
  | [] => [a]
  | b :: r => if leb (key a) (key b) then a :: l else b :: insert a r
  end.

Definition sorted (l : list A) : list A := fold_right insert [] l.
End Sorted.

(** [set(l)]: the distinct elements.  The order a [set] is iterated in is
    not specified; the program only ever sorts it. *)
Definition to_set (l : list string) : list string := nodup string_dec l.

End PyList.

(** ** [int(s)] on a [str] *)

Module PyInt.
Local Open Scope N_scope.

(** [_PyUnicode_TransformDecimalAndSpaceToASCII]: a character above the
    ASCII range counts as a space when it is whitespace, as an ASCII
    digit when it is a decimal digit, and as ['?'] otherwise. *)
Definition to_ascii (c : N) : N :=
  if c <? 127 then c
  else if Unicode.is_space c then 32
  else match Unicode.decimal c with
       | Some d => 48 + d
       | None => 63
       end.

(** The whitespace [PyLong_FromString] skips around a number: TAB LF VT
    FF CR and the space. *)
Definition is_c_space (c : N) : bool :=
  (9 <=? c) && (c <=? 13) || (c =? 32).

Fixpoint lskip (l : list N) : list N :=
  match l with
  | [] => []
  | c :: r => if is_c_space c then lskip r else l
  end.

Fixpoint rskip (l : list N) : list N :=
  match l with
  | [] => []
  | c :: r =>
      match rskip r with
      | [] => if is_c_space c then [] else [c]
      | r' => c :: r'
      end
  end.

Definition is_digit (c : N) : bool := (48 <=? c) && (c <=? 57).

Definition digit (c : N) : Z := Z.of_N c - 48.

(** Decimal digits, single underscores allowed between two digits: the
    value and the number of digits. *)
Fixpoint digits (acc : Z) (count : N) (after_digit : bool) (l : list N)
  : option (Z * N) :=
  match l with
  | [] => if after_digit then Some (acc, count) else None
  | c :: r =>
      if is_digit c then digits (10 * acc + digit c) (count + 1) true r
      else if (c =? 95) && after_digit then digits acc count false r
      else None
  end.

(** [sys.int_info.default_max_str_digits] *)
Definition max_str_digits : N := 4300.

Definition of_str (s : string) : result Z :=
  match Utf8.decode s with
  | None => Raise ValueError
  | Some l =>
      let body := rskip (lskip (map to_ascii l)) in
      let parsed :=
        match body with
        | c :: r =>
            if c =? 45 then
              option_map (fun p => (Z.opp (fst p), snd p)) (digits 0 0 false r)
            else if c =? 43 then digits 0 0 false r
            else digits 0 0 false body
        | [] => None
        end in
      match parsed with
      | Some (n, k) => if k <=? max_str_digits then Ok n else Raise ValueError
      | None => Raise ValueError
      end
  end.

End PyInt.

(** ** The CSV loader: theme normalisation *)

(** [normalize_theme(t)]: [t.strip().lower()] *)
Definition normalize_theme (t : string) : string :=
  PyStr.lower (PyStr.strip t).

(** ** The CSV loader *)

(** A row as [csv.DictReader] yields it: a [dict] from the header's column
    names to the fields; a column the row is too short for holds [None]. *)
Definition Row : Type := list (string * option string).

(** An edge record, the tuple [(src, sy, tgt, ty, w, themes, note)]. *)
Record EdgeRec : Type := mkEdge {
  src : string; sy : Z; tgt : string; ty : Z;
  w : Z; themes : list string; note : string
}.

(** A [str] method called on a field: [None] has none. *)
Definition as_str (v : option string) : result string :=
  match v with Some s => Ok s | None => Raise AttributeError end.

(** [int(v)] on a field. *)
Definition int (v : option string) : result Z :=
  match v with Some s => PyInt.of_str s | None => Raise TypeError end.

(** [row.get(k, default)] *)
Definition row_get (k : string) (default : string) (row : Row)
  : option string :=
  match Dict.get k row with Some v => v | None => Some default end.

(** The body of the loop of [load_edges], up to the tuple. *)
Definition load_row (row : Row) : result EdgeRec :=
  v <- Dict.item "source_title" row ;; s <- as_str v ;;
  let src := PyStr.strip s in
  v <- Dict.item "source_year" row ;; sy <- int v ;;
  v <- Dict.item "target_title" row ;; s <- as_str v ;;
  let tgt := PyStr.strip s in
  v <- Dict.item "target_year" row ;; ty <- int v ;;
  v <- Dict.item "weight" row ;; w <- int v ;;
  s <- as_str (row_get "themes" "" row) ;;
  let themes :=
    map normalize_theme
        (filter (fun t => PyStr.truthy (PyStr.strip t)) (PyStr.split ";" s)) in
  s <- as_str (row_get "note" "" row) ;;
  let note := PyStr.strip s in
  Ok (mkEdge src sy tgt ty w themes note).

(** [load_edges], on the rows of the opened file. *)
Definition load_edges (rows : list Row) : result (list EdgeRec) :=
  for_each (fun edges row => e <- load_row row ;; Ok (edges ++ [e])) rows [].

(** ** networkx: the undirected [Graph] *)

Module nx.

(** The attribute dictionary of an edge.  The program passes the three
    keys at every [add_edge], so updating the dictionary of an existing
    edge replaces all of it. *)
Record data : Type := mkData {
  weight : Z; themes : list string; note : string
}.

(** [G._node] maps a node to its attributes, of which the program only
    sets [year] ([None]: the key is not set); [G._adj] maps a node to the
    dictionary of its neighbours.  Both are in insertion order. *)
Record Graph : Type := mkGraph {
  nodes : list (string * option Z);
  adj : list (string * list (string * data))
}.

(** [nx.Graph()] *)
Definition empty : Graph := mkGraph [] [].

(** [G.add_node(n, year=y)] *)
Definition add_node (n : string) (y : Z) (G : Graph) : Graph :=
  if Dict.mem n (nodes G)
  then mkGraph (Dict.set n (Some y) (nodes G)) (adj G)
  else mkGraph (Dict.set n (Some y) (nodes G)) (Dict.set n [] (adj G)).

(** The start of [add_edge]: an endpoint that is not yet a node becomes
    one, without attributes. *)
Definition ensure_node (n : string) (G : Graph) : Graph :=
  if Dict.mem n (nodes G) then G
  else mkGraph (Dict.set n None (nodes G)) (Dict.set n [] (adj G)).

(** [G.add_edge(u, v, weight=.., themes=.., note=..)]: the one attribute
    dictionary is stored under [_adj[u][v]] and under [_adj[v][u]]. *)
Definition add_edge (u v : string) (dd : data) (G : Graph) : Graph :=
  let G1 := ensure_node v (ensure_node u G) in
  mkGraph (nodes G1)
          (Dict.alter (Dict.set u dd) v (Dict.alter (Dict.set v dd) u (adj G1))).

(** [G.nodes()] *)
Definition node_list (G : Graph) : list string := Dict.keys (nodes G).

(** [G.nodes[n]["year"]] *)
Definition year (G : Graph) (n : string) : result Z :=
  a <- Dict.item n (nodes G) ;;
  match a with Some y => Ok y | None => Raise KeyError end.

(** The iteration of [G.edges(data=True)]: the nodes in insertion order,
    each with its neighbours in insertion order, an edge being reported
    from the first of its endpoints that is reached. *)
Fixpoint edges_from (seen : list string)
    (a : list (string * list (string * data)))
  : list (string * string * data) :=
  match a with
  | [] => []
  | (n, nbrs) :: rest =>
      map (fun '(nbr, dd) => (n, nbr, dd))
          (filter (fun '(nbr, _) => negb (PyList.mem nbr seen)) nbrs)
      ++ edges_from (n :: seen) rest
  end.

Definition edges (G : Graph) : list (string * string * data) :=
  edges_from [] (adj G).

(** [G.get_edge_data(u, v)] *)
Definition edge_data (G : Graph) (u v : string) : option data :=
  match Dict.get u (adj G) with
  | Some nbrs => Dict.get v nbrs
  | None => None
  end.

(** [G.degree()]: the number of neighbours, a self-loop counting twice. *)
Definition degree (nbrs : list (string * data)) (n : string) : Z :=
  Z.of_nat (List.length nbrs) + (if Dict.mem n nbrs then 1 else 0).

(** [nx.degree_centrality(G)], in exact rational arithmetic (the library
    computes it in binary floating point). *)
Definition degree_centrality (G : Graph) : list (string * Q) :=
  let len := Z.of_nat (List.length (nodes G)) in
  if (len <=? 1)%Z then map (fun n => (n, 1%Q)) (node_list G)
  else map (fun '(n, nbrs) =>
              (n, (inject_Z (degree nbrs n) / inject_Z (len - 1))%Q))
           (adj G).

End nx.

(** ** The graph builder *)

Definition build_step (G : nx.Graph) (e : EdgeRec) : nx.Graph :=
  let G := nx.add_node (src e) (sy e) G in
  let G := nx.add_node (tgt e) (ty e) G in
  nx.add_edge (src e) (tgt e) (nx.mkData (w e) (themes e) (note e)) G.

Definition build_graph (edges : list EdgeRec) : nx.Graph :=
  fold_left build_step edges nx.empty.

(** ** The layout engine *)

Definition Pos : Type := list (string * (Z * Z)).

Definition positions (G : nx.Graph) : result Pos :=
  keyed <- map_r (fun n => y <- nx.year G n ;; Ok (n, y)) (nx.node_list G) ;;
  let nodes_sorted := map fst (PyList.sorted Z.leb snd keyed) in
  let y_positions :=
    fold_left (fun d '(i, n) => Dict.set n i d)
              (PyList.enumerate nodes_sorted) [] in
  for_each (fun d n =>
              x <- nx.year G n ;;
              y <- Dict.item n y_positions ;;
              Ok (Dict.set n (x, y) d))
           (nx.node_list G) [].

(** ** plotly: traces and the figure *)

Module go.

(** The [text] of a trace: one string, or one string per point. *)
Inductive text_arg : Type :=
| Text (s : string)
| Texts (l : list string).

(** [go.Scatter(...)], with the arguments the program passes: [line] is
    [dict(width=..)], [marker] is [dict(size=.., line=dict(width=..))];
    [visible] is [true] unless given.  The [hovertext] of the node trace
    prints a floating point number to two decimals and is left out. *)
Record Scatter : Type := mkScatter {
  x : list (option Z);
  y : list (option Z);
  mode : string;
  line_width : option Q;
  hoverinfo : string;
  text : text_arg;
  visible : bool;
  opacity : option Q;
  name : string;
  textposition : option string;
  marker_size : list Q;
  marker_line_width : option Q
}.

(** One entry of the dropdown: [dict(label=.., method="update",
    args=[{"visible": ..}])]. *)
Record Button : Type := mkButton {
  label : string;
  method : string;
  args_visible : list bool
}.

(** The figure after [update_layout]: the traces, the title, the title of
    the x axis and the entries of the dropdown (the other arguments of the
    layout are constants of no consequence here). *)
Record Figure : Type := mkFigure {
  traces : list Scatter;
  title : string;
  xaxis_title : string;
  updatemenus : list Button
}.

End go.

(** ** The trace generator *)

(** [a or b] on strings *)
Definition str_or (a b : string) : string :=
  if PyStr.truthy a then a else b.

(** The hover block of one edge. *)
Definition hover_text (u v : string) (d : nx.data) : string :=
  (u ++ " → " ++ v ++ "<br>"
   ++ "Themes: " ++ str_or (PyStr.join ", " (nx.themes d)) "—" ++ "<br>"
   ++ "Influence: " ++ PyStr.str_of_int (nx.weight d) ++ " / 3<br>"
   ++ nx.note d)%string.

Definition Filter : Type := string -> string -> nx.data -> bool.

Definition Acc : Type := (list (option Z) * list (option Z) * list string)%type.

(** The body of the loop of [make_edge_trace]. *)
Definition edge_step (pos : Pos) (filter_func : Filter) (weight : option Z)
    (acc : Acc) (e : string * string * nx.data) : result Acc :=
  let '(x, y, texts) := acc in
  let '(u, v, d) := e in
  if negb (filter_func u v d) then Ok acc
  else if match weight with
          | Some wt => negb (nx.weight d =? wt)%Z
          | None => false
          end then Ok acc
  else
    '(x0, y0) <- Dict.item u pos ;;
    '(x1, y1) <- Dict.item v pos ;;
    Ok (x ++ [Some x0; Some x1; None],
        y ++ [Some y0; Some y1; None],
        texts ++ [hover_text u v d]).

(** The trace returned when no edge passed the filters. *)
Definition placeholder (name_suffix : string) : go.Scatter :=
  go.mkScatter [None] [None] "lines" (Some 1%Q) "text" (go.Text "") false
               None ("edges" ++ name_suffix)%string None [] None.

Definition make_edge_trace (G : nx.Graph) (pos : Pos) (filter_func : Filter)
    (weight : option Z) (name_suffix : string) : result go.Scatter :=
  '(x, y, texts) <-
     for_each (edge_step pos filter_func weight) (nx.edges G) ([], [], []) ;;
  match x with
  | [] => Ok (placeholder name_suffix)
  | _ =>
      let width :=
        ((5 # 2) * match weight with Some wt => inject_Z wt | None => 3 # 2 end)%Q in
      let shown :=
        match weight with
        | Some wt => if (wt =? 0)%Z then ""
                     else (" (w=" ++ PyStr.str_of_int wt ++ ")")%string
        | None => ""
        end in
      Ok (go.mkScatter x y "lines" (Some width) "text"
                       (go.Text (PyStr.join "<br>" texts)) true
                       (Some (6 # 10)%Q)
                       ("Edges" ++ name_suffix ++ shown)%string None [] None)
  end.

(** ** The view controller and [main] *)

Definition all_filter : Filter := fun _ _ _ => true.

(** [lambda u,v,d, th=theme: th in d.get("themes", [])] *)
Definition theme_filter (th : string) : Filter :=
  fun _ _ d => PyList.mem th (nx.themes d).

(** [sorted({t for _,_,_,_,_,ts,_ in edges for t in ts})] *)
Definition all_themes (edges : list EdgeRec) : list string :=
  PyList.sorted String.leb (fun t => t) (PyList.to_set (flat_map themes edges)).

Definition ThemeTraces : Type := list (string * go.Scatter * go.Scatter).

(** The body of the loop over [all_themes]. *)
Definition theme_step (G : nx.Graph) (pos : Pos)
    (st : ThemeTraces * list go.Scatter) (theme : string)
  : result (ThemeTraces * list go.Scatter) :=
  let '(theme_traces, traces) := st in
  tr_w2 <- make_edge_trace G pos (theme_filter theme) (Some 2%Z)
                           ("_" ++ theme ++ "_w2")%string ;;
  tr_w3 <- make_edge_trace G pos (theme_filter theme) (Some 3%Z)
                           ("_" ++ theme ++ "_w3")%string ;;
  Ok (theme_traces ++ [(theme, tr_w2, tr_w3)], traces ++ [tr_w2; tr_w3]).

(** The node trace. *)
Definition node_trace (G : nx.Graph) (pos : Pos) : result go.Scatter :=
  let cent := nx.degree_centrality G in
  xs <- map_r (fun n => p <- Dict.item n pos ;; Ok (Some (fst p)))
              (nx.node_list G) ;;
  ys <- map_r (fun n => p <- Dict.item n pos ;; Ok (Some (snd p)))
              (nx.node_list G) ;;
  ts <- map_r (fun n => yr <- nx.year G n ;;
                        Ok (n ++ "<br>Year≈" ++ PyStr.str_of_int yr)%string)
              (nx.node_list G) ;;
  ss <- map_r (fun n => c <- Dict.item n cent ;; Ok (18 + 40 * c)%Q)
              (nx.node_list G) ;;
  Ok (go.mkScatter xs ys "markers+text" None "text" (go.Texts ts) true None
                   "Works" (Some "top center") ss (Some 1%Q)).

(** Lines 101 to 134 of [main]: the theme traces and the trace list. *)
Definition build_traces (edges : list EdgeRec)
  : result (ThemeTraces * list go.Scatter) :=
  let G := build_graph edges in
  pos <- positions G ;;
  let traces := [] in
  t <- make_edge_trace G pos all_filter (Some 2%Z) "_all_w2" ;;
  let traces := traces ++ [t] in
  t <- make_edge_trace G pos all_filter (Some 3%Z) "_all_w3" ;;
  let traces := traces ++ [t] in
  '(theme_traces, traces) <-
     for_each (theme_step G pos) (all_themes edges) ([], traces) ;;
  nt <- node_trace G pos ;;
  Ok (theme_traces, traces ++ [nt]).

Definition vis_all (num_traces node_idx : Z) : result (list bool) :=
  let vis := PyList.replicate false num_traces in
  vis <- PyList.setitem 0 true vis ;;
  vis <- PyList.setitem 1 true vis ;;
  PyList.setitem node_idx true vis.

Definition vis_for_theme (theme_traces : ThemeTraces)
    (num_traces node_idx : Z) (theme : string) : result (list bool) :=
  let vis := PyList.replicate false num_traces in
  let theme_names := map (fun '(t, _, _) => t) theme_traces in
  t_idx <- PyList.index theme theme_names ;;
  let base := (2 + t_idx * 2)%Z in
  vis <- PyList.setitem base true vis ;;
  vis <- PyList.setitem (base + 1) true vis ;;
  PyList.setitem node_idx true vis.

(** Lines 138 to 161 of [main]: the dropdown entries. *)
Definition build_buttons (theme_traces : ThemeTraces)
    (traces : list go.Scatter) : result (list go.Button) :=
  let num_traces := Z.of_nat (List.length traces) in
  let node_idx := (num_traces - 1)%Z in
  v <- vis_all num_traces node_idx ;;
  let buttons := [go.mkButton "All themes" "update" v] in
  for_each (fun buttons '(theme, _, _) =>
              v <- vis_for_theme theme_traces num_traces node_idx theme ;;
              Ok (buttons ++ [go.mkButton theme "update" v]))
           theme_traces buttons.

(** The figure [main] hands to [write_html]. *)
Definition build_figure (edges : list EdgeRec) : result go.Figure :=
  '(theme_traces, traces) <- build_traces edges ;;
  buttons <- build_buttons theme_traces traces ;;
  Ok (go.mkFigure traces
        "Interactive Timeline–Network with Theme Filters (Book-Level)"
        "Approximate Year" buttons).

(** ** The process and its file system *)

(** The directory [assets/]: the document in it, if any. *)
Record AssetsDir : Type := mkAssets { interactive_html : option go.Figure }.

(** What the script sees of the file system: its own directory, the rows
    of [edges.csv] when the file exists, and [assets/] when it exists.
    Creating the directory and writing the document are taken to succeed. *)
Record World : Type := mkWorld {
  REPO_ROOT : string;
  edges_csv : option (list Row);
  assets : option AssetsDir
}.

(** How the process ends: [sys.exit(code)] or the end of the script
    ([Exit 0]), or an exception nobody catches: the interpreter prints a
    traceback, which is not modelled, and the exit status is 1. *)
Inductive Status : Type :=
| Exit (code : Z)
| Uncaught (e : exn).

Definition exit_status (s : Status) : Z :=
  match s with Exit c => c | Uncaught _ => 1 end.

Record Outcome : Type := mkOutcome {
  status : Status;
  stdout : list string;
  stderr : list string;
  world : World
}.

(** [root / name] *)
Definition path_join (root name : string) : string :=
  if String.eqb root "/" then ("/" ++ name)%string
  else (root ++ "/" ++ name)%string.

(** [ASSETS.mkdir(parents=True, exist_ok=True)], at import. *)
Definition module_load (wd : World) : World :=
  match assets wd with
  | Some _ => wd
  | None => mkWorld (REPO_ROOT wd) (edges_csv wd) (Some (mkAssets None))
  end.

Definition write_html (fig : go.Figure) (wd : World) : World :=
  mkWorld (REPO_ROOT wd) (edges_csv wd) (Some (mkAssets (Some fig))).

Definition main (wd : World) : Outcome :=
  let csv_path := path_join (REPO_ROOT wd) "edges.csv" in
  match edges_csv wd with
  | None =>
      mkOutcome (Exit 1) [] [("CSV not found at " ++ csv_path)%string] wd
  | Some rows =>
      match load_edges rows with
      | Raise e => mkOutcome (Uncaught e) [] [] wd
      | Ok [] => mkOutcome (Exit 1) [] ["No edges found in CSV."] wd
      | Ok edges =>
          match build_figure edges with
          | Raise e => mkOutcome (Uncaught e) [] [] wd
          | Ok fig =>
              let out_html :=
                path_join (path_join (REPO_ROOT wd) "assets") "interactive.html" in
              mkOutcome (Exit 0) [("Wrote " ++ out_html)%string] []
                        (write_html fig wd)
          end
      end
  end.

(** Running the script: the module body, then [main()]. *)
Definition run (wd : World) : Outcome := main (module_load wd).

(** ** Reference notions the properties are stated with *)

(** The year the records last give a title: that of the last record
    naming it, where the target is set after the source. *)
Fixpoint last_year (edges : list EdgeRec) (n : string) : option Z :=
  match edges with
  | [] => None
  | e :: r =>
      match last_year r n with
      | Some y => Some y
      | None => if String.eqb (tgt e) n then Some (ty e)
                else if String.eqb (src e) n then Some (sy e)
                else None
      end
  end.

(** The titles of the records in the order they first appear, the source
    of a record before its target. *)
Definition first_seen (edges : list EdgeRec) : list string :=
  fold_left (fun acc n => if PyList.mem n acc then acc else acc ++ [n])
            (flat_map (fun e => [src e; tgt e]) edges) [].

(** The nodes in front of [n] in a list of nodes. *)
Fixpoint before (n : string) (l : list string) : list string :=
  match l with
  | [] => []
  | m :: r => if String.eqb m n then [] else m :: before n r
  end.

Definition year_is (G : nx.Graph) (test : Z -> bool) (m : string) : bool :=
  match nx.year G m with Ok y => test y | Raise _ => false end.

(** The rank of node [n] of year [yr] in the ascending stable order: the
    number of nodes of a smaller year, plus the number of nodes of the
    same year inserted before [n]. *)
Definition stable_rank (G : nx.Graph) (n : string) (yr : Z) : Z :=
  Z.of_nat
    (List.length (filter (year_is G (fun y => y <? yr)%Z) (nx.node_list G))
     + List.length (filter (year_is G (fun y => y =? yr)%Z)
                           (before n (nx.node_list G)))).

(** The record joins the two titles, in one direction or the other. *)
Definition joins (u v : string) (e : EdgeRec) : bool :=
  (String.eqb (src e) u && String.eqb (tgt e) v)
  || (String.eqb (src e) v && String.eqb (tgt e) u).

(** The record names the title. *)
Definition mentions (n : string) (e : EdgeRec) : bool :=
  String.eqb (src e) n || String.eqb (tgt e) n.

(** The reported edges between two nodes. *)
Definition edges_between (G : nx.Graph) (u v : string)
  : list (string * string * nx.data) :=
  filter (fun '(a, b, _) =>
            (String.eqb a u && String.eqb b v)
            || (String.eqb a v && String.eqb b u))
         (nx.edges G).

(** The attribute dictionary a record gives its edge. *)
Definition data_of (e : EdgeRec) : nx.data :=
  nx.mkData (w e) (themes e) (note e).

(** What a later record [r] of a sequence would leave in the graph if it
    always had the last word: one reported edge between its titles,
    carrying its attributes, and its years on both endpoints. *)
Definition later_record_wins (edges : list EdgeRec) (r : EdgeRec) : Prop :=
  let G := build_graph edges in
  (edges_between G (src r) (tgt r) = [(src r, tgt r, data_of r)]
   \/ edges_between G (src r) (tgt r) = [(tgt r, src r, data_of r)])
  /\ nx.year G (src r) = Ok (sy r)
  /\ nx.year G (tgt r) = Ok (ty r).

(** The edge passes both tests of [make_edge_trace]: the theme predicate
    and, when a weight is asked for, the exact weight. *)
Definition accepts (filter_func : Filter) (weight : option Z)
    (e : string * string * nx.data) : bool :=
  let '(u, v, d) := e in
  filter_func u v d
  && match weight with Some wt => (nx.weight d =? wt)%Z | None => true end.

(** The input is valid and not empty: [edges.csv] exists, every row
    parses, and there is at least one edge record. *)
Definition valid_input (wd : World) (edges : list EdgeRec) : Prop :=
  exists rows,
    edges_csv wd = Some rows /\ load_edges rows = Ok edges /\ edges <> [].

(** The number of distinct themes of the edge records. *)
Definition distinct_themes (edges : list EdgeRec) : nat :=
  List.length (nodup string_dec (flat_map themes edges)).

(** The trace at place [i] of the list is the one the call returns. *)
Definition trace_at (traces : list go.Scatter) (i : nat)
    (call : result go.Scatter) : Prop :=
  exists t, nth_error traces i = Some t /\ call = Ok t.

(** The document in [assets/] of a file system. *)
Definition html_of (wd : World) : option go.Figure :=
  match assets wd with
  | Some dir => interactive_html dir
  | None => None
  end.

(** The document [assets/interactive.html] holds after the run. *)
Definition written (o : Outcome) : option go.Figure := html_of (world o).

(** ** The end-to-end scenario of two rows *)

Definition csv_row (source_title source_year target_title target_year
                    weight themes note : string) : Row :=
  [("source_title", Some source_title); ("source_year", Some source_year);
   ("target_title", Some target_title); ("target_year", Some target_year);
   ("weight", Some weight); ("themes", Some themes); ("note", Some note)].

Definition scenario_rows : list Row :=
  [csv_row "A" "1800" "B" "1810" "2" "freedom" "";
   csv_row "B" "1810" "C" "1850" "3" "freedom;abolition" "x"].

Definition scenario_edges : list EdgeRec :=
  [mkEdge "A" 1800 "B" 1810 2 ["freedom"] "";
   mkEdge "B" 1810 "C" 1850 3 ["freedom"; "abolition"] "x"].

Definition scenario_world : World :=
  mkWorld "/srv/repo" (Some scenario_rows) None.

(** Two works influenced the same third one. *)
Definition shared_target_rows : list Row :=
  [csv_row "A" "1800" "B" "1850" "2" "freedom" "";
   csv_row "C" "1810" "B" "1850" "2" "abolition" "x"].

Definition shared_target_edges : list EdgeRec :=
  [mkEdge "A" 1800 "B" 1850 2 ["freedom"] "";
   mkEdge "C" 1810 "B" 1850 2 ["abolition"] "x"].

Definition shared_target_world : World :=
  mkWorld "/srv/repo" (Some shared_target_rows) None.

(** The last record of the sequence that joins two titles, in one
    direction or the other. *)
Fixpoint last_joining (edges : list EdgeRec) (u v : string)
  : option EdgeRec :=
  match edges with
  | [] => None
  | e :: r =>
      match last_joining r u v with
      | Some e' => Some e'
      | None => if joins u v e then Some e else None
      end
  end.

(** A [str]: the bytes of a sequence of code points. *)
Definition is_str (s : string) : Prop :=
  exists l, s = Utf8.encode l /\ Forall (fun c => Utf8.code_point c = true) l.


(** ** Vocabulary of the proofs *)

(** The structure every graph reached by [add_node] and [add_edge] has. *)
Record well_formed (G : nx.Graph) : Prop := mk_wf {
  wf_keys : Dict.keys (nx.nodes G) = Dict.keys (nx.adj G);
  wf_nodup : NoDup (Dict.keys (nx.nodes G));
  wf_nbrs : forall n nb, Dict.get n (nx.adj G) = Some nb ->
            NoDup (Dict.keys nb) /\ incl (Dict.keys nb) (Dict.keys (nx.nodes G));
  wf_sym : forall u v, nx.edge_data G u v = nx.edge_data G v u
}.

(** Every node carries a year. *)
Definition dated (G : nx.Graph) : Prop :=
  forall n a, Dict.get n (nx.nodes G) = Some a -> a <> None.

(** The reported edge joins [u] and [v]. *)
Definition is_pair (u v : string) (e : string * string * nx.data) : bool :=
  let '(a, b, _) := e in
  (String.eqb a u && String.eqb b v) || (String.eqb a v && String.eqb b u).

(** The position of the first [n] in a list. *)
Fixpoint idx (n : string) (l : list string) : nat :=
  match l with
  | [] => O
  | m :: r => if String.eqb m n then O else S (idx n r)
  end.

(** The order [sorted] sorts by. *)
Definition sorted_le {A K} (leb : K -> K -> bool) (key : A -> K) (a b : A)
  : Prop := leb (key a) (key b) = true.

(** The year of a node, [0] for a node without one. *)
Definition yr (G : nx.Graph) (n : string) : Z :=
  match nx.year G n with Ok y => y | Raise _ => 0%Z end.

(** The position map has both endpoints of every edge of the list. *)
Definition covers (pos : Pos) (l : list (string * string * nx.data)) : Prop :=
  forall u v d, In (u, v, d) l ->
                Dict.get u pos <> None /\ Dict.get v pos <> None.

(** [pos[n]], the origin for a node without a position. *)
Definition at_node (pos : Pos) (n : string) : Z * Z :=
  match Dict.get n pos with Some p => p | None => (0, 0)%Z end.

(** The three coordinates an accepted edge adds to [x] or to [y]. *)
Definition coords (pos : Pos) (sel : Z * Z -> Z)
    (e : string * string * nx.data) : list (option Z) :=
  let '(u, v, _) := e in
  [Some (sel (at_node pos u)); Some (sel (at_node pos v)); None].

(** The hover block of a reported edge. *)
Definition hover (e : string * string * nx.data) : string :=
  let '(u, v, d) := e in hover_text u v d.

(** The trace of a filter combination, when the positions are there. *)
Definition edge_trace (G : nx.Graph) (pos : Pos) (f : Filter)
    (wt : option Z) (name_suffix : string) : go.Scatter :=
  match filter (accepts f wt) (nx.edges G) with
  | [] => placeholder name_suffix
  | l =>
      go.mkScatter
        (flat_map (coords pos fst) l) (flat_map (coords pos snd) l) "lines"
        (Some ((5 # 2)
               * match wt with Some z => inject_Z z | None => 3 # 2 end)%Q)
        "text" (go.Text (PyStr.join "<br>" (map hover l))) true
        (Some (6 # 10)%Q)
        ("Edges" ++ name_suffix
         ++ match wt with
            | Some z => if (z =? 0)%Z then ""
                        else (" (w=" ++ PyStr.str_of_int z ++ ")")%string
            | None => ""
            end)%string
        None [] None
  end.

(** A vector with two visible traces after [a] hidden ones, [b] hidden
    ones behind them, and the node trace. *)
Definition shape (a b : nat) : list bool :=
  repeat false a ++ [true; true] ++ repeat false b ++ [true].

(** The two traces of a theme. *)
Definition theme_trace_w2 (G : nx.Graph) (pos : Pos) (th : string)
  : go.Scatter :=
  edge_trace G pos (theme_filter th) (Some 2%Z) ("_" ++ th ++ "_w2")%string.
Definition theme_trace_w3 (G : nx.Graph) (pos : Pos) (th : string)
  : go.Scatter :=
  edge_trace G pos (theme_filter th) (Some 3%Z) ("_" ++ th ++ "_w3")%string.

(** [theme_traces] and [traces] at the end of [main]'s loops, over the
    sorted themes [ths] and with the node trace [nt]. *)
Definition theme_traces_of (G : nx.Graph) (pos : Pos) (ths : list string)
  : ThemeTraces :=
  map (fun th => (th, theme_trace_w2 G pos th, theme_trace_w3 G pos th)) ths.

Definition traces_of (G : nx.Graph) (pos : Pos) (ths : list string)
    (nt : go.Scatter) : list go.Scatter :=
  [edge_trace G pos all_filter (Some 2%Z) "_all_w2";
   edge_trace G pos all_filter (Some 3%Z) "_all_w3"]
  ++ flat_map (fun th => [theme_trace_w2 G pos th; theme_trace_w3 G pos th])
              ths
  ++ [nt].

(** The entry of a theme, and the entries of the dropdown. *)
Definition theme_button (ths : list string) (th : string) : go.Button :=
  go.mkButton th "update"
    (shape (2 + 2 * idx th ths)
           (2 * (List.length ths - 1 - idx th ths))).

Definition buttons_of (ths : list string) : list go.Button :=
  go.mkButton "All themes" "update" (shape 0 (2 * List.length ths))
  :: map (theme_button ths) ths.

(** The characters from [a] to [b], and a test on all characters of a
    list of ranges. *)
Definition span (a b : N) : list N :=
  map N.of_nat (seq (N.to_nat a) (S (N.to_nat b) - N.to_nat a)).

Definition all_in_ranges (P : N -> bool) (rs : list (N * N)) : bool :=
  forallb (fun r => forallb P (span (fst r) (snd r))) rs.

(** A character that is its own lower case wherever it stands. *)
Definition settled (d : N) : bool :=
  Utf8.code_point d && negb (N.eqb d Unicode.capital_sigma)
  && match Unicode.to_lower d with
     | [e] => N.eqb e d
     | _ => false
     end.

(** The lower case of the characters [l] that stand between [before]
    and [after]. *)
Fixpoint lower_between (before l after : list N) : list N :=
  match l with
  | [] => []
  | c :: r =>
      PyStr.lower_char before c (r ++ after)
      ++ lower_between (c :: before) r after
  end.

(** A context a capital sigma does not see through: nothing, or what
    starts with whitespace. *)
Definition opaque (l : list N) : Prop :=
  match l with
  | [] => True
  | x :: _ => PyStr.is_space x = true
  end.

(** Characters without whitespace at either end. *)
Definition trimmed (l : list N) : Prop :=
  PyStr.lstrip_chars l = l /\ PyStr.rstrip_chars l = l.

(** ** Properties of the string layer *)

(** *** UTF-8 *)

Module Utf8Facts.
Import Utf8.
Local Open Scope N_scope.

Local Ltac arith :=
  repeat match goal with
         | H : _ && _ = true |- _ => apply andb_true_iff in H; destruct H
         | H : _ || _ = true |- _ => apply orb_true_iff in H; destruct H
         | H : (_ <? _) = true |- _ => apply N.ltb_lt in H
         | H : (_ <? _) = false |- _ => apply N.ltb_ge in H
         | H : (_ <=? _) = true |- _ => apply N.leb_le in H
         | H : (_ <=? _) = false |- _ => apply N.leb_gt in H
         end;
  zify; Z.to_euclidean_division_equations; lia.

Lemma byte_val n : n < 256 -> N_of_ascii (byte n) = n.
Proof. apply N_ascii_embedding. Qed.

Lemma ascii_bound a : N_of_ascii a < 256.
Proof. apply N_ascii_bounded. Qed.

Lemma is_cont_cont n : is_cont (cont n) = true.
Proof.
  unfold is_cont, cont. rewrite byte_val by arith.
  apply andb_true_iff. split; [apply N.leb_le|apply N.ltb_lt]; arith.
Qed.

Lemma payload_cont n : payload (cont n) = n mod 64.
Proof. unfold payload, cont. rewrite byte_val by arith. arith. Qed.

(** The four shapes of [decode]. *)
Lemma decode_1 a r :
  N_of_ascii a < 128 ->
  decode (String a r) = option_map (cons (N_of_ascii a)) (decode r).
Proof.
  intros H. apply N.ltb_lt in H. cbn [decode]. cbv zeta. now rewrite H.
Qed.

Lemma decode_2 a b r :
  192 <= N_of_ascii a < 224 ->
  decode (String a (String b r)) =
  let c := (N_of_ascii a - 192) * 64 + payload b in
  if is_cont b && (128 <=? c) then option_map (cons c) (decode r) else None.
Proof.
  intros H.
  assert (H1 : (N_of_ascii a <? 128) = false) by (apply N.ltb_ge; lia).
  assert (H2 : (N_of_ascii a <? 192) = false) by (apply N.ltb_ge; lia).
  assert (H3 : (N_of_ascii a <? 224) = true) by (apply N.ltb_lt; lia).
  change (decode (String a (String b r))) with
    (let n := N_of_ascii a in
     if n <? 128 then option_map (cons n) (decode (String b r))
     else if n <? 192 then None
     else if n <? 224 then
       let c := (n - 192) * 64 + payload b in
       if is_cont b && (128 <=? c)
       then option_map (cons c) (decode r) else None
     else if n <? 240 then
       match r with
       | String b2 r2 =>
           let c := (n - 224) * 4096 + payload b * 64 + payload b2 in
           if is_cont b && is_cont b2 && (2048 <=? c)
           then option_map (cons c) (decode r2) else None
       | _ => None
       end
     else
       match r with
       | String b2 (String b3 r3) =>
           let c := (n - 240) * 262144 + payload b * 4096
                    + payload b2 * 64 + payload b3 in
           if is_cont b && is_cont b2 && is_cont b3
              && (65536 <=? c) && (c <? 1114112)
           then option_map (cons c) (decode r3) else None
       | _ => None
       end).
  cbv zeta. now rewrite H1, H2, H3.
Qed.

Lemma decode_3 a b b2 r :
  224 <= N_of_ascii a < 240 ->
  decode (String a (String b (String b2 r))) =
  let c := (N_of_ascii a - 224) * 4096 + payload b * 64 + payload b2 in
  if is_cont b && is_cont b2 && (2048 <=? c)
  then option_map (cons c) (decode r) else None.
Proof.
  intros H.
  assert (H1 : (N_of_ascii a <? 128) = false) by (apply N.ltb_ge; lia).
  assert (H2 : (N_of_ascii a <? 192) = false) by (apply N.ltb_ge; lia).
  assert (H3 : (N_of_ascii a <? 224) = false) by (apply N.ltb_ge; lia).
  assert (H4 : (N_of_ascii a <? 240) = true) by (apply N.ltb_lt; lia).
  change (decode (String a (String b (String b2 r)))) with
    (let n := N_of_ascii a in
     if n <? 128 then option_map (cons n) (decode (String b (String b2 r)))
     else if n <? 192 then None
     else if n <? 224 then
       let c := (n - 192) * 64 + payload b in
       if is_cont b && (128 <=? c)
       then option_map (cons c) (decode (String b2 r)) else None
     else if n <? 240 then
       let c := (n - 224) * 4096 + payload b * 64 + payload b2 in
       if is_cont b && is_cont b2 && (2048 <=? c)
       then option_map (cons c) (decode r) else None
     else
       match r with
       | String b3 r3 =>
           let c := (n - 240) * 262144 + payload b * 4096
                    + payload b2 * 64 + payload b3 in
           if is_cont b && is_cont b2 && is_cont b3
              && (65536 <=? c) && (c <? 1114112)
           then option_map (cons c) (decode r3) else None
       | _ => None
       end).
  cbv zeta. now rewrite H1, H2, H3, H4.
Qed.

Lemma decode_4 a b b2 b3 r :
  240 <= N_of_ascii a ->
  decode (String a (String b (String b2 (String b3 r)))) =
  let c := (N_of_ascii a - 240) * 262144 + payload b * 4096
           + payload b2 * 64 + payload b3 in
  if is_cont b && is_cont b2 && is_cont b3 && (65536 <=? c) && (c <? 1114112)
  then option_map (cons c) (decode r) else None.
Proof.
  intros H.
  assert (H1 : (N_of_ascii a <? 128) = false) by (apply N.ltb_ge; lia).
  assert (H2 : (N_of_ascii a <? 192) = false) by (apply N.ltb_ge; lia).
  assert (H3 : (N_of_ascii a <? 224) = false) by (apply N.ltb_ge; lia).
  assert (H4 : (N_of_ascii a <? 240) = false) by (apply N.ltb_ge; lia).
  change (decode (String a (String b (String b2 (String b3 r))))) with
    (let n := N_of_ascii a in
     if n <? 128
     then option_map (cons n) (decode (String b (String b2 (String b3 r))))
     else if n <? 192 then None
     else if n <? 224 then
       let c := (n - 192) * 64 + payload b in
       if is_cont b && (128 <=? c)
       then option_map (cons c) (decode (String b2 (String b3 r))) else None
     else if n <? 240 then
       let c := (n - 224) * 4096 + payload b * 64 + payload b2 in
       if is_cont b && is_cont b2 && (2048 <=? c)
       then option_map (cons c) (decode (String b3 r)) else None
     else
       let c := (n - 240) * 262144 + payload b * 4096
                + payload b2 * 64 + payload b3 in
       if is_cont b && is_cont b2 && is_cont b3
          && (65536 <=? c) && (c <? 1114112)
       then option_map (cons c) (decode r) else None).
  cbv zeta. now rewrite H1, H2, H3, H4.
Qed.

(** Decoding undoes encoding, character by character. *)
Lemma decode_encode1 c s :
  code_point c = true ->
  decode (encode1 c ++ s) = option_map (cons c) (decode s).
Proof.
  intros S. assert (B := S). unfold code_point in B. unfold encode1.
  destruct (c <? 128) eqn:E1.
  { cbn [append]. rewrite decode_1; rewrite byte_val; try arith. reflexivity. }
  destruct (c <? 2048) eqn:E2.
  { cbn [append]. rewrite decode_2 by (rewrite byte_val; arith).
    cbv zeta. rewrite is_cont_cont, payload_cont, byte_val by arith.
    replace ((192 + c / 64 - 192) * 64 + c mod 64) with c by arith.
    replace (128 <=? c) with true by (symmetry; apply N.leb_le; arith).
    reflexivity. }
  destruct (c <? 65536) eqn:E3.
  { cbn [append]. rewrite decode_3 by (rewrite byte_val; arith).
    cbv zeta. rewrite !is_cont_cont, !payload_cont, byte_val by arith.
    replace ((224 + c / 4096 - 224) * 4096 + (c / 64) mod 64 * 64 + c mod 64)
      with c by arith.
    replace (2048 <=? c) with true by (symmetry; apply N.leb_le; arith).
    reflexivity. }
  cbn [append]. rewrite decode_4 by (rewrite byte_val; arith).
  cbv zeta. rewrite !is_cont_cont, !payload_cont, byte_val by arith.
  replace ((240 + c / 262144 - 240) * 262144 + (c / 4096) mod 64 * 4096
           + (c / 64) mod 64 * 64 + c mod 64) with c by arith.
  replace (65536 <=? c) with true by (symmetry; apply N.leb_le; arith).
  replace (c <? 1114112) with true by (symmetry; apply N.ltb_lt; arith).
  reflexivity.
Qed.

Lemma decode_encode l :
  Forall (fun c => code_point c = true) l -> decode (encode l) = Some l.
Proof.
  induction 1 as [|c l S _ IH]; [reflexivity|].
  cbn [encode]. now rewrite decode_encode1, IH.
Qed.


Lemma encode1_nonempty c : encode1 c <> EmptyString.
Proof.
  unfold encode1.
  repeat match goal with |- context [if ?b then _ else _] => destruct b end;
    discriminate.
Qed.

Lemma encode_nil l : encode l = EmptyString -> l = [].
Proof.
  destruct l as [|c l]; [reflexivity|]. cbn [encode]. intros H.
  destruct (encode1 c) eqn:E; [now apply encode1_nonempty in E|discriminate].
Qed.

(** Its bytes tell a continuation byte. *)
Lemma cont_byte b :
  is_cont b = true -> byte (128 + payload b) = b.
Proof.
  unfold is_cont, payload, byte. intros H.
  replace (128 + N_of_ascii b mod 64) with (N_of_ascii b) by arith.
  apply ascii_N_embedding.
Qed.

(** What [decode] accepts starts with the encoding of a character. *)
Lemma decode_inv s l :
  decode s = Some l -> s <> EmptyString ->
  exists c l' r,
    l = c :: l' /\ s = (encode1 c ++ r)%string /\ code_point c = true
    /\ decode r = Some l' /\ (String.length r < String.length s)%nat.
Proof.
  destruct s as [|a r]; [congruence|]. intros H _.
  set (n := N_of_ascii a) in *.
  assert (A : byte n = a) by apply ascii_N_embedding.
  assert (Bn : n < 256) by apply N_ascii_bounded.
  destruct (n <? 128) eqn:E1.
  { rewrite decode_1 in H by arith. fold n in H.
    destruct (decode r) as [l'|] eqn:D; [|discriminate].
    injection H as <-. exists n, l', r. repeat split; try exact D; try (simpl; lia).
    - unfold encode1. rewrite E1, A. reflexivity.
    - unfold code_point. apply N.ltb_lt. arith. }
  destruct (n <? 192) eqn:E2.
  { exfalso. cbn [decode] in H. cbv zeta in H. fold n in H.
    rewrite E1, E2 in H. discriminate. }
  destruct (n <? 224) eqn:E3.
  { destruct r as [|b r].
    { exfalso. cbn [decode] in H. cbv zeta in H. fold n in H.
      rewrite E1, E2, E3 in H. discriminate. }
    rewrite decode_2 in H by (fold n; arith). cbv zeta in H. fold n in H.
    destruct (is_cont b) eqn:Cb; [|discriminate].
    destruct (128 <=? (n - 192) * 64 + payload b) eqn:L; [|discriminate].
    cbn [andb] in H.
    destruct (decode r) as [l'|] eqn:D; [|discriminate].
    injection H as <-.
    assert (P := cont_byte b Cb).
    assert (Pb : payload b < 64) by (unfold payload; arith).
    set (p := payload b) in *. set (c := (n - 192) * 64 + p) in *.
    exists c, l', r. repeat split; try exact D; try (simpl; lia).
    - unfold encode1, cont.
      replace (c <? 128) with false by (symmetry; apply N.ltb_ge; arith).
      replace (c <? 2048) with true by (symmetry; apply N.ltb_lt; arith).
      replace (192 + c / 64) with n by arith.
      replace (c mod 64) with p by arith.
      rewrite A, P. reflexivity.
    - unfold code_point. apply N.ltb_lt. arith. }
  destruct (n <? 240) eqn:E4.
  { destruct r as [|b [|b2 r]];
      try (exfalso; cbn [decode] in H; cbv zeta in H; fold n in H;
           rewrite E1, E2, E3, E4 in H; discriminate).
    rewrite decode_3 in H by (fold n; arith). cbv zeta in H. fold n in H.
    destruct (is_cont b) eqn:Cb; [|discriminate].
    destruct (is_cont b2) eqn:Cb2; [|discriminate].
    destruct (2048 <=? (n - 224) * 4096 + payload b * 64 + payload b2) eqn:L;
      [|discriminate].
    cbn [andb] in H.
    destruct (decode r) as [l'|] eqn:D; [|discriminate].
    injection H as <-.
    assert (P := cont_byte b Cb). assert (P2 := cont_byte b2 Cb2).
    assert (Pb : payload b < 64) by (unfold payload; arith).
    assert (Pb2 : payload b2 < 64) by (unfold payload; arith).
    set (p := payload b) in *. set (p2 := payload b2) in *.
    set (c := (n - 224) * 4096 + p * 64 + p2) in *.
    exists c, l', r. repeat split; try exact D; try (simpl; lia).
    - unfold encode1, cont.
      replace (c <? 128) with false by (symmetry; apply N.ltb_ge; arith).
      replace (c <? 2048) with false by (symmetry; apply N.ltb_ge; arith).
      replace (c <? 65536) with true by (symmetry; apply N.ltb_lt; arith).
      replace (224 + c / 4096) with n by arith.
      replace ((c / 64) mod 64) with p by arith.
      replace (c mod 64) with p2 by arith.
      rewrite A, P, P2. reflexivity.
    - unfold code_point. apply N.ltb_lt. arith. }
  destruct r as [|b [|b2 [|b3 r]]];
    try (exfalso; cbn [decode] in H; cbv zeta in H; fold n in H;
         rewrite E1, E2, E3, E4 in H; discriminate).
  rewrite decode_4 in H by (fold n; arith). cbv zeta in H. fold n in H.
  destruct (is_cont b) eqn:Cb; [|discriminate].
  destruct (is_cont b2) eqn:Cb2; [|discriminate].
  destruct (is_cont b3) eqn:Cb3; [|discriminate].
  destruct (65536 <=? (n - 240) * 262144 + payload b * 4096
                      + payload b2 * 64 + payload b3) eqn:L; [|discriminate].
  destruct ((n - 240) * 262144 + payload b * 4096
            + payload b2 * 64 + payload b3 <? 1114112) eqn:U; [|discriminate].
  cbn [andb] in H.
  destruct (decode r) as [l'|] eqn:D; [|discriminate].
  injection H as <-.
  assert (P := cont_byte b Cb). assert (P2 := cont_byte b2 Cb2).
  assert (P3 := cont_byte b3 Cb3).
  assert (Pb : payload b < 64) by (unfold payload; arith).
  assert (Pb2 : payload b2 < 64) by (unfold payload; arith).
  assert (Pb3 : payload b3 < 64) by (unfold payload; arith).
  set (p := payload b) in *. set (p2 := payload b2) in *.
  set (p3 := payload b3) in *.
  set (c := (n - 240) * 262144 + p * 4096 + p2 * 64 + p3) in *.
  exists c, l', r. repeat split; try exact D; try (simpl; lia).
  - unfold encode1, cont.
    replace (c <? 128) with false by (symmetry; apply N.ltb_ge; arith).
    replace (c <? 2048) with false by (symmetry; apply N.ltb_ge; arith).
    replace (c <? 65536) with false by (symmetry; apply N.ltb_ge; arith).
    replace (240 + c / 262144) with n by arith.
    replace ((c / 4096) mod 64) with p by arith.
    replace ((c / 64) mod 64) with p2 by arith.
    replace (c mod 64) with p3 by arith.
    rewrite A, P, P2, P3. reflexivity.
  - unfold code_point. apply N.ltb_lt. arith.
Qed.

(** What [decode] accepts is the encoding of what it returns. *)
Lemma decode_sound s l :
  decode s = Some l ->
  s = encode l /\ Forall (fun c => code_point c = true) l.
Proof.
  remember (String.length s) as k eqn:K.
  revert s l K. induction k as [k IH] using lt_wf_ind. intros s l K H.
  destruct s as [|a r] eqn:Es.
  { injection H as <-. split; [reflexivity|constructor]. }
  rewrite <- Es in *.
  destruct (decode_inv s l H) as (c & l' & r' & -> & E & S & D & L).
  { rewrite Es. discriminate. }
  destruct (IH (String.length r') ltac:(lia) r' l' eq_refl D) as [E' F].
  split; [|now constructor]. cbn [encode]. now rewrite <- E'.
Qed.

(** The strings [decode] accepts are the [str]. *)
Lemma is_str_decode s : is_str s <-> exists l, decode s = Some l.
Proof.
  split.
  - intros [l [-> S]]. exists l. now apply decode_encode.
  - intros [l D]. exists l. now apply decode_sound.
Qed.

Lemma decode_nil s : decode s = Some [] -> s = EmptyString.
Proof. intros H. now destruct (decode_sound s [] H). Qed.

Lemma chars_app s1 s2 :
  list_ascii_of_string (s1 ++ s2) =
  list_ascii_of_string s1 ++ list_ascii_of_string s2.
Proof. induction s1 as [|a s1 IH]; simpl; [reflexivity|now rewrite IH]. Qed.

(** An ASCII byte of an encoding is a character of its own. *)
Lemma encode1_ascii n c :
  n < 128 -> code_point c = true ->
  In (byte n) (list_ascii_of_string (encode1 c)) -> c = n.
Proof.
  intros Hn S. assert (B := S). unfold code_point in B.
  assert (V : forall m, m < 256 -> byte m = byte n -> m = n).
  { intros m Hm E. apply (f_equal N_of_ascii) in E.
    rewrite !byte_val in E by arith. exact E. }
  unfold encode1, cont.
  destruct (c <? 128) eqn:E1; [|destruct (c <? 2048) eqn:E2;
                                 [|destruct (c <? 65536) eqn:E3]];
    cbn [list_ascii_of_string In]; intros I;
    repeat match goal with
           | H : _ \/ _ |- _ => destruct H
           | H : False |- _ => destruct H
           | H : byte _ = byte n |- _ => apply V in H; [|arith]
           end; arith.
Qed.

Lemma encode_ascii n l :
  n < 128 -> Forall (fun c => code_point c = true) l ->
  In (byte n) (list_ascii_of_string (encode l)) -> In n l.
Proof.
  intros Hn. induction 1 as [|c l S _ IH]; simpl; [tauto|].
  rewrite chars_app, in_app_iff. intros [I|I].
  - left. now apply (encode1_ascii n c).
  - right. now apply IH.
Qed.

Lemma ascii_encode n l :
  n < 128 -> In n l -> In (byte n) (list_ascii_of_string (encode l)).
Proof.
  intros Hn. induction l as [|c l IH]; simpl; [tauto|].
  rewrite chars_app, in_app_iff. intros [->|I]; [left|right; now apply IH].
  unfold encode1. apply N.ltb_lt in Hn. rewrite Hn. now left.
Qed.

End Utf8Facts.

(** *** The Unicode tables *)

Module UnicodeFacts.
Import Unicode.
Local Open Scope N_scope.

Lemma lookup_In c t out : lookup c t = Some out -> In (c, out) t.
Proof.
  induction t as [|[k o] t IH]; cbn [lookup]; [discriminate|].
  destruct (N.eqb_spec k c) as [->|_].
  - intros [= ->]. now left.
  - destruct (c <? k); [discriminate|]. intros H. right. auto.
Qed.

Lemma span_In a b c : a <= c <= b -> In c (span a b).
Proof.
  intros H. unfold span. apply in_map_iff. exists (N.to_nat c).
  split; [apply N2Nat.id|]. apply in_seq. lia.
Qed.

Lemma all_in_ranges_spec P rs :
  all_in_ranges P rs = true ->
  forall c, in_ranges c rs = true -> P c = true.
Proof.
  unfold all_in_ranges. intros A c.
  induction rs as [|[a b] rs IH]; cbn [in_ranges]; [discriminate|].
  cbn [forallb] in A. apply andb_true_iff in A. destruct A as [A1 A2].
  intros H. apply orb_true_iff in H. destruct H as [H|H]; [|now apply IH].
  apply andb_true_iff in H. destruct H as [H1 H2].
  apply N.leb_le in H1, H2.
  rewrite forallb_forall in A1. apply A1. apply span_In. cbn [fst snd]. lia.
Qed.

Lemma settled_spec d :
  settled d = true ->
  Utf8.code_point d = true /\ d <> capital_sigma /\ to_lower d = [d].
Proof.
  unfold settled. intros H.
  apply andb_true_iff in H. destruct H as [H H3].
  apply andb_true_iff in H. destruct H as [H1 H2].
  split; [exact H1|]. split.
  - intros ->. discriminate H2.
  - destruct (to_lower d) as [|e [|]]; try discriminate.
    apply N.eqb_eq in H3. now subst.
Qed.

(** Whitespace has no case, is seen by a capital sigma, and is its own
    lower case. *)
Lemma whitespace_checked :
  all_in_ranges
    (fun c => settled c && negb (cased c) && negb (case_ignorable c))
    whitespace = true.
Proof. vm_compute. reflexivity. Qed.

Lemma space_props c :
  is_space c = true ->
  settled c = true /\ cased c = false /\ case_ignorable c = false.
Proof.
  intros H. apply (all_in_ranges_spec _ _ whitespace_checked) in H.
  apply andb_true_iff in H. destruct H as [H H3].
  apply andb_true_iff in H. destruct H as [H1 H2].
  apply negb_true_iff in H2, H3. auto.
Qed.

(** What the lower case mapping gives is settled; it touches no
    whitespace and gives none, gives no semicolon, and never gives
    nothing. *)
Lemma lower_table_checked :
  forallb
    (fun p =>
       negb (is_space (fst p))
       && match snd p with [] => false | _ => true end
       && forallb (fun d => settled d && negb (is_space d) && negb (d =? 59))
            (snd p))
    lower_table = true.
Proof. vm_compute. reflexivity. Qed.

Lemma to_lower_props c :
  Utf8.code_point c = true -> c <> capital_sigma ->
  to_lower c <> []
  /\ forall d, In d (to_lower c) ->
       settled d = true /\ is_space d = is_space c /\ (d = 59 -> c = 59).
Proof.
  intros S N. unfold to_lower.
  destruct (lookup c lower_table) as [out|] eqn:L.
  - apply lookup_In in L.
    assert (T := lower_table_checked). rewrite forallb_forall in T.
    specialize (T _ L). cbn [fst snd] in T.
    apply andb_true_iff in T. destruct T as [T T3].
    apply andb_true_iff in T. destruct T as [T1 T2].
    apply negb_true_iff in T1. split.
    + destruct out; [discriminate|discriminate].
    + intros d I. rewrite forallb_forall in T3. specialize (T3 d I).
      apply andb_true_iff in T3. destruct T3 as [T3 T5].
      apply andb_true_iff in T3. destruct T3 as [T3 T4].
      apply negb_true_iff in T4, T5. apply N.eqb_neq in T5.
      split; [exact T3|]. split; [congruence|]. intros E. contradiction.
  - split; [discriminate|]. intros d [<-|[]].
    split; [|split; [reflexivity|auto]].
    unfold settled, to_lower. rewrite S, L, N.eqb_refl.
    apply N.eqb_neq in N. now rewrite N.
Qed.

End UnicodeFacts.

(** *** [strip] and [lower] on the characters *)

Module PyStrFacts.
Import PyStr.

Local Abbreviation spaces := (Forall (fun c => is_space c = true)).
Local Abbreviation code_points := (Forall (fun c => Utf8.code_point c = true)).


(** **** Stripping *)

Lemma lstrip_spaces ws l : spaces ws -> lstrip_chars (ws ++ l) = lstrip_chars l.
Proof.
  induction 1 as [|c ws Hc _ IH]; [reflexivity|].
  cbn [app lstrip_chars]. now rewrite Hc.
Qed.

Lemma rstrip_only_spaces ws : spaces ws -> rstrip_chars ws = [].
Proof.
  induction 1 as [|c ws Hc _ IH]; [reflexivity|].
  cbn [rstrip_chars]. now rewrite IH, Hc.
Qed.

Lemma rstrip_spaces l ws : spaces ws -> rstrip_chars (l ++ ws) = rstrip_chars l.
Proof.
  intros H. induction l as [|c l IH]; cbn [app rstrip_chars].
  - now apply rstrip_only_spaces.
  - now rewrite IH.
Qed.

Lemma rstrip_snoc l z :
  rstrip_chars (l ++ [z]) = if is_space z then rstrip_chars l else l ++ [z].
Proof.
  induction l as [|c l IH]; cbn [app rstrip_chars].
  - destruct (is_space z); reflexivity.
  - rewrite IH. destruct (is_space z); [reflexivity|].
    destruct l; reflexivity.
Qed.

Lemma lstrip_length l : (List.length (lstrip_chars l) <= List.length l)%nat.
Proof.
  induction l as [|c l IH]; cbn [lstrip_chars]; [lia|].
  destruct (is_space c); cbn [List.length]; lia.
Qed.

Lemma rstrip_length l : (List.length (rstrip_chars l) <= List.length l)%nat.
Proof.
  induction l as [|c l IH]; cbn [rstrip_chars]; [lia|].
  destruct (rstrip_chars l); [destruct (is_space c)|];
    cbn [List.length] in *; lia.
Qed.

(** What is left of a stripped list starts and ends with a character
    that is not whitespace. *)
Lemma lstrip_head c l : lstrip_chars (c :: l) = c :: l -> is_space c = false.
Proof.
  cbn [lstrip_chars]. destruct (is_space c); [|reflexivity].
  intros H. assert (L := lstrip_length l). rewrite H in L.
  cbn [List.length] in L. lia.
Qed.

Lemma rstrip_last l z : rstrip_chars (l ++ [z]) = l ++ [z] -> is_space z = false.
Proof.
  rewrite rstrip_snoc. destruct (is_space z); [|reflexivity].
  intros H. assert (L := rstrip_length l). rewrite H, length_app in L.
  cbn [List.length] in L. lia.
Qed.

Lemma lstrip_split l : exists ws, spaces ws /\ l = ws ++ lstrip_chars l.
Proof.
  induction l as [|c l [ws [H E]]]; [now exists []|].
  cbn [lstrip_chars]. destruct (is_space c) eqn:Ec.
  - exists (c :: ws). split; [now constructor|]. cbn [app]. now rewrite <- E.
  - now exists [].
Qed.

Lemma rstrip_split l : exists ws, spaces ws /\ l = rstrip_chars l ++ ws.
Proof.
  induction l as [|c l [ws [H E]]]; [now exists []|].
  cbn [rstrip_chars]. destruct (rstrip_chars l) as [|d r'].
  - cbn [app] in E. subst ws. destruct (is_space c) eqn:Ec.
    + exists (c :: l). split; [now constructor|reflexivity].
    + exists l. split; [exact H|reflexivity].
  - exists ws. split; [exact H|]. now rewrite E at 1.
Qed.

Lemma strip_split l :
  exists ws1 ws2, spaces ws1 /\ spaces ws2 /\ l = ws1 ++ strip_chars l ++ ws2.
Proof.
  destruct (lstrip_split l) as [ws1 [H1 E1]].
  destruct (rstrip_split (lstrip_chars l)) as [ws2 [H2 E2]].
  exists ws1, ws2. split; [exact H1|]. split; [exact H2|].
  unfold strip_chars. now rewrite <- E2.
Qed.

Lemma lstrip_idem l : lstrip_chars (lstrip_chars l) = lstrip_chars l.
Proof.
  induction l as [|c l IH]; [reflexivity|]. cbn [lstrip_chars].
  destruct (is_space c) eqn:Ec; [exact IH|]. cbn [lstrip_chars]. now rewrite Ec.
Qed.

Lemma rstrip_idem l : rstrip_chars (rstrip_chars l) = rstrip_chars l.
Proof.
  induction l as [|c l IH]; [reflexivity|]. cbn [rstrip_chars].
  destruct (rstrip_chars l) as [|d r'] eqn:E.
  - destruct (is_space c) eqn:Ec; cbn [rstrip_chars]; [reflexivity|now rewrite Ec].
  - change (rstrip_chars (c :: d :: r')) with
      (match rstrip_chars (d :: r') with
       | [] => if is_space c then [] else [c]
       | x :: r0 => c :: x :: r0
       end).
    now rewrite IH.
Qed.

(** Stripping on the right never uncovers whitespace on the left. *)
Lemma lstrip_rstrip_fix l :
  lstrip_chars l = l -> lstrip_chars (rstrip_chars l) = rstrip_chars l.
Proof.
  destruct l as [|c l]; [reflexivity|]. intros H.
  apply lstrip_head in H. cbn [rstrip_chars].
  destruct (rstrip_chars l); rewrite ?H; cbn [lstrip_chars]; now rewrite H.
Qed.

Lemma strip_trimmed l : trimmed (strip_chars l).
Proof.
  unfold trimmed, strip_chars. split.
  - apply lstrip_rstrip_fix, lstrip_idem.
  - apply rstrip_idem.
Qed.

Lemma strip_pad ws1 x ws2 :
  spaces ws1 -> spaces ws2 -> trimmed x -> strip_chars (ws1 ++ x ++ ws2) = x.
Proof.
  intros H1 H2 [L R]. unfold strip_chars. rewrite lstrip_spaces by exact H1.
  destruct x as [|c x].
  - cbn [app]. rewrite <- (app_nil_r ws2), lstrip_spaces by exact H2.
    reflexivity.
  - apply lstrip_head in L. cbn [app lstrip_chars]. rewrite L.
    change (c :: x ++ ws2) with ((c :: x) ++ ws2).
    now rewrite rstrip_spaces.
Qed.

Lemma strip_chars_idem l : strip_chars (strip_chars l) = strip_chars l.
Proof.
  assert (H := strip_pad [] (strip_chars l) [] (Forall_nil _) (Forall_nil _)
                 (strip_trimmed l)).
  cbn [app] in H. now rewrite app_nil_r in H.
Qed.


Lemma strip_sub c l : In c (strip_chars l) -> In c l.
Proof.
  intros I. destruct (strip_split l) as (a & b & _ & _ & E). rewrite E.
  apply in_or_app. right. apply in_or_app. now left.
Qed.

Lemma strip_code_points l : code_points l -> code_points (strip_chars l).
Proof.
  intros H. apply Forall_forall. intros c I.
  rewrite Forall_forall in H. apply H. now apply strip_sub.
Qed.

(** **** Lower case *)

Lemma lower_from_between b l : lower_from b l = lower_between b l [].
Proof.
  revert b. induction l as [|c l IH]; intros b; [reflexivity|].
  cbn [lower_from lower_between]. now rewrite app_nil_r, IH.
Qed.

Lemma lower_between_app b l1 l2 a :
  lower_between b (l1 ++ l2) a =
  lower_between b l1 (l2 ++ a) ++ lower_between (rev l1 ++ b) l2 a.
Proof.
  revert b. induction l1 as [|c l1 IH]; intros b; [reflexivity|].
  cbn [app lower_between rev]. rewrite IH, <- !app_assoc. reflexivity.
Qed.

Lemma skip_ignorable_opaque b B :
  opaque B ->
  match skip_ignorable (b ++ B) with
  | [] => skip_ignorable b = []
  | p :: _ =>
      match skip_ignorable b with
      | [] => Unicode.cased p = false
      | q :: _ => p = q
      end
  end.
Proof.
  intros O. induction b as [|c b IH]; cbn [app skip_ignorable].
  - destruct B as [|x B]; [reflexivity|]. cbn [skip_ignorable].
    destruct (UnicodeFacts.space_props x O) as (_ & C & I).
    now rewrite I.
  - destruct (Unicode.case_ignorable c); [exact IH|reflexivity].
Qed.

(** Whitespace bounds what a capital sigma sees. *)
Lemma final_sigma_opaque b B a A :
  opaque B -> opaque A -> final_sigma (b ++ B) (a ++ A) = final_sigma b a.
Proof.
  intros OB OA. unfold final_sigma.
  assert (After :
            match skip_ignorable (a ++ A) with
            | [] => true
            | q :: _ => negb (Unicode.cased q)
            end =
            match skip_ignorable a with
            | [] => true
            | q :: _ => negb (Unicode.cased q)
            end).
  { assert (S := skip_ignorable_opaque a A OA).
    destruct (skip_ignorable (a ++ A)) as [|p r];
      destruct (skip_ignorable a) as [|q r']; try reflexivity;
      try discriminate; [now rewrite S|now subst]. }
  assert (S := skip_ignorable_opaque b B OB).
  destruct (skip_ignorable (b ++ B)) as [|p r];
    destruct (skip_ignorable b) as [|q r']; try reflexivity;
    try discriminate; [now rewrite S|subst; now rewrite After].
Qed.

Lemma lower_char_opaque b B c a A :
  opaque B -> opaque A -> lower_char (b ++ B) c (a ++ A) = lower_char b c a.
Proof.
  intros OB OA. unfold lower_char. now rewrite final_sigma_opaque.
Qed.

Lemma lower_between_opaque b B l a A :
  opaque B -> opaque A ->
  lower_between (b ++ B) l (a ++ A) = lower_between b l a.
Proof.
  intros OB OA. revert b. induction l as [|c l IH]; intros b; [reflexivity|].
  cbn [lower_between].
  rewrite app_assoc, lower_char_opaque by assumption.
  change (c :: b ++ B) with ((c :: b) ++ B). now rewrite IH.
Qed.

Lemma lower_char_settled b d a : settled d = true -> lower_char b d a = [d].
Proof.
  intros S. destruct (UnicodeFacts.settled_spec d S) as (_ & N & L).
  unfold lower_char. apply N.eqb_neq in N. now rewrite N.
Qed.

Lemma lower_between_settled b l a :
  Forall (fun d => settled d = true) l -> lower_between b l a = l.
Proof.
  intros H. revert b. induction H as [|d l S _ IH]; intros b; [reflexivity|].
  cbn [lower_between]. now rewrite lower_char_settled, IH.
Qed.

Lemma spaces_settled ws : spaces ws -> Forall (fun d => settled d = true) ws.
Proof.
  apply Forall_impl. intros c H. now destruct (UnicodeFacts.space_props c H).
Qed.

Lemma spaces_opaque ws : spaces ws -> opaque ws.
Proof. destruct 1; [exact I|assumption]. Qed.

(** The lower case of one character in its place. *)
Lemma lower_char_props b c a :
  Utf8.code_point c = true ->
  lower_char b c a <> []
  /\ forall d, In d (lower_char b c a) ->
       settled d = true /\ is_space d = is_space c
       /\ (d = 59%N -> c = 59%N).
Proof.
  intros S. unfold lower_char.
  destruct (N.eqb_spec c Unicode.capital_sigma) as [->|N].
  - split; [discriminate|]. intros d [<-|[]].
    destruct (final_sigma b a);
      (split; [vm_compute; reflexivity|]);
      (split; [vm_compute; reflexivity|discriminate]).
  - now apply UnicodeFacts.to_lower_props.
Qed.

Lemma lower_between_props b l a :
  code_points l ->
  forall d, In d (lower_between b l a) ->
    settled d = true /\ (d = 59%N -> In 59%N l).
Proof.
  intros H. revert b. induction H as [|c l S _ IH]; intros b d;
    cbn [lower_between]; [intros []|].
  intros I. apply in_app_or in I. destruct I as [I|I].
  - destruct (lower_char_props b c (l ++ a) S) as [_ P].
    destruct (P d I) as (P1 & _ & P3). split; [exact P1|].
    intros E. left. now apply P3.
  - destruct (IH (c :: b) d I) as [P1 P2]. split; [exact P1|].
    intros E. right. now apply P2.
Qed.

Lemma lower_chars_settled l :
  code_points l -> Forall (fun d => settled d = true) (lower_chars l).
Proof.
  intros H. apply Forall_forall. intros d I.
  unfold lower_chars in I. rewrite lower_from_between in I.
  now destruct (lower_between_props [] l [] H d I).
Qed.

Lemma lower_code_points l : code_points l -> code_points (lower_chars l).
Proof.
  intros H. apply lower_chars_settled in H. revert H.
  apply Forall_impl. intros d S. now destruct (UnicodeFacts.settled_spec d S).
Qed.

Lemma lower_chars_idem l :
  code_points l -> lower_chars (lower_chars l) = lower_chars l.
Proof.
  intros H. unfold lower_chars at 1. rewrite lower_from_between.
  now apply lower_between_settled, lower_chars_settled.
Qed.

Lemma lower_chars_semicolon l :
  code_points l -> In 59%N (lower_chars l) -> In 59%N l.
Proof.
  intros H I. unfold lower_chars in I. rewrite lower_from_between in I.
  now apply (lower_between_props [] l [] H 59%N I).
Qed.

Lemma lower_chars_nil l : lower_chars l = [] -> code_points l -> l = [].
Proof.
  destruct l as [|c l]; [reflexivity|]. intros E H. exfalso.
  inversion H as [|? ? S _]; subst.
  unfold lower_chars in E. cbn [lower_from] in E.
  apply app_eq_nil in E. destruct E as [E _].
  now destruct (lower_char_props [] c l S).
Qed.

(** Whitespace around a text stays where it is; the text between does
    not see it. *)
Lemma lower_chars_padded ws1 x ws2 :
  spaces ws1 -> spaces ws2 ->
  lower_chars (ws1 ++ x ++ ws2) = ws1 ++ lower_chars x ++ ws2.
Proof.
  intros H1 H2. unfold lower_chars.
  rewrite !lower_from_between, !lower_between_app, !app_nil_r.
  rewrite (lower_between_settled [] ws1) by now apply spaces_settled.
  rewrite (lower_between_settled _ ws2) by now apply spaces_settled.
  rewrite <- (app_nil_l (rev ws1)), <- (app_nil_l ws2) at 1.
  rewrite lower_between_opaque; [reflexivity| |now apply spaces_opaque].
  apply spaces_opaque, Forall_rev, H1.
Qed.

Lemma lower_trimmed x : code_points x -> trimmed x -> trimmed (lower_chars x).
Proof.
  intros S [L R]. split.
  - destruct x as [|c x]; [reflexivity|].
    apply lstrip_head in L. inversion S as [|? ? Sc _]; subst.
    unfold lower_chars. cbn [lower_from].
    destruct (lower_char_props [] c x Sc) as [N P].
    destruct (lower_char [] c x) as [|d m]; [contradiction|].
    destruct (P d (or_introl eq_refl)) as (_ & E & _).
    cbn [app lstrip_chars]. now rewrite E, L.
  - destruct x as [|c0 x0] eqn:Ex; [reflexivity|]. rewrite <- Ex in *.
    destruct (exists_last (l := x)) as (l & z & E);
      [rewrite Ex; discriminate|].
    rewrite E in *. apply rstrip_last in R.
    apply Forall_app in S. destruct S as [_ Sz].
    inversion Sz as [|? ? Sc _]; subst.
    unfold lower_chars. rewrite lower_from_between, lower_between_app.
    cbn [lower_between]. rewrite !app_nil_r.
    destruct (lower_char_props (rev l) z [] Sc) as [N P].
    destruct (exists_last N) as (m & d & Em). rewrite Em in *.
    rewrite app_assoc, rstrip_snoc.
    destruct (P d) as (_ & Ed & _); [apply in_or_app; right; now left|].
    now rewrite Ed, R.
Qed.

(** Stripping and lower case commute. *)
Lemma strip_lower_chars l :
  code_points l -> strip_chars (lower_chars l) = lower_chars (strip_chars l).
Proof.
  intros S. destruct (strip_split l) as (a & b & Ha & Hb & E).
  assert (T := strip_trimmed l). assert (Sx := strip_code_points l S).
  remember (strip_chars l) as x eqn:X. rewrite E.
  rewrite lower_chars_padded by assumption.
  apply strip_pad; try assumption. now apply lower_trimmed.
Qed.

(** **** The methods on a [str] *)

Lemma on_chars_compose f g s :
  (forall l, code_points l -> code_points (g l)) ->
  on_chars f (on_chars g s) = on_chars (fun l => f (g l)) s.
Proof.
  intros G. unfold on_chars at 2 3.
  destruct (Utf8.decode s) as [l|] eqn:D.
  - destruct (Utf8Facts.decode_sound s l D) as [_ S].
    unfold on_chars. now rewrite Utf8Facts.decode_encode by now apply G.
  - unfold on_chars. now rewrite D.
Qed.

Lemma on_chars_ext f g s :
  (forall l, code_points l -> f l = g l) -> on_chars f s = on_chars g s.
Proof.
  intros E. unfold on_chars. destruct (Utf8.decode s) as [l|] eqn:D;
    [|reflexivity].
  destruct (Utf8Facts.decode_sound s l D) as [_ S]. now rewrite E.
Qed.


Lemma strip_idem s : strip (strip s) = strip s.
Proof.
  unfold strip. rewrite on_chars_compose by apply strip_code_points.
  apply on_chars_ext. intros l _. apply strip_chars_idem.
Qed.

Lemma lower_idem s : lower (lower s) = lower s.
Proof.
  unfold lower. rewrite on_chars_compose by apply lower_code_points.
  apply on_chars_ext. intros l S. now apply lower_chars_idem.
Qed.

Lemma strip_lower s : strip (lower s) = lower (strip s).
Proof.
  unfold strip, lower.
  rewrite on_chars_compose by apply lower_code_points.
  rewrite on_chars_compose by apply strip_code_points.
  apply on_chars_ext. intros l S. now apply strip_lower_chars.
Qed.

End PyStrFacts.

(** *** The methods at work *)

Module StringExamples.

Example lower_accented : PyStr.lower "École" = "école".
Proof. reflexivity. Qed.

Example lower_final_sigma : PyStr.lower "ΟΔΥΣΣΕΥΣ" = "οδυσσευς".
Proof. reflexivity. Qed.

Example strip_no_break_space :
  PyStr.strip (Utf8.encode [160; 65; 160; 8195]%N) = "A".
Proof. reflexivity. Qed.

Example int_no_break_space :
  PyInt.of_str ("1800" ++ Utf8.encode [160%N]) = Ok 1800%Z.
Proof. reflexivity. Qed.

Example int_fullwidth_digits : PyInt.of_str "１８００" = Ok 1800%Z.
Proof. reflexivity. Qed.

Example int_separator_is_no_space :
  PyInt.of_str (Utf8.encode [28; 53]%N) = Raise ValueError.
Proof. reflexivity. Qed.

Example int_digit_limit :
  PyInt.of_str (Utf8.encode (repeat 48%N 4300)) = Ok 0%Z
  /\ PyInt.of_str (Utf8.encode (repeat 48%N 4301)) = Raise ValueError.
Proof. split; vm_compute; reflexivity. Qed.

End StringExamples.

(** C8. Theme normalisation is idempotent: normalising an already
    normalised theme returns it unchanged. *)
Theorem normalize_theme_idempotent (s : string) :
  normalize_theme (normalize_theme s) = normalize_theme s.
Proof.
  unfold normalize_theme.
  rewrite PyStrFacts.strip_lower, PyStrFacts.strip_idem.
  apply PyStrFacts.lower_idem.
Qed.

(** ** Properties of dictionaries *)

Module DictFacts.
Section Facts.
Context {V : Type}.
Implicit Types (d : list (string * V)) (k : string) (v : V).

Lemma mem_In k d : Dict.mem k d = true <-> In k (Dict.keys d).
Proof.
  unfold Dict.mem. induction d as [|[k' v'] r IH]; simpl.
  - split; [discriminate|tauto].
  - destruct (String.eqb_spec k' k) as [->|N].
    + split; auto.
    + rewrite IH. split; [auto|intros [E|H]; [contradiction|exact H]].
Qed.

Lemma mem_false k d : Dict.mem k d = false <-> ~ In k (Dict.keys d).
Proof.
  rewrite <- mem_In. destruct (Dict.mem k d); split; congruence.
Qed.

Lemma get_None k d : Dict.get k d = None <-> ~ In k (Dict.keys d).
Proof.
  rewrite <- mem_false. unfold Dict.mem.
  destruct (Dict.get k d); split; congruence.
Qed.

Lemma get_In k v d : Dict.get k d = Some v -> In (k, v) d.
Proof.
  induction d as [|[k' v'] r IH]; simpl; [discriminate|].
  destruct (String.eqb_spec k' k) as [->|N].
  - intros [= ->]. now left.
  - intros H. right. auto.
Qed.

Lemma In_get k v d : NoDup (Dict.keys d) -> In (k, v) d -> Dict.get k d = Some v.
Proof.
  induction d as [|[k' v'] r IH]; simpl; [tauto|].
  intros ND [E|H]; inversion ND as [|? ? Nin ND']; subst.
  - inversion E; subst. now rewrite String.eqb_refl.
  - destruct (String.eqb_spec k' k) as [->|N]; [|auto].
    exfalso. apply Nin. change (In (fst (k, v)) (map fst r)). now apply in_map.
Qed.

Lemma get_set k k' v d :
  Dict.get k' (Dict.set k v d) = if String.eqb k k' then Some v else Dict.get k' d.
Proof.
  induction d as [|[a b] r IH]; simpl.
  - reflexivity.
  - destruct (String.eqb_spec a k) as [->|N]; simpl.
    + destruct (String.eqb_spec k k'); reflexivity.
    + rewrite IH. destruct (String.eqb_spec a k') as [->|N'];
        [|reflexivity].
      destruct (String.eqb_spec k k'); [congruence|reflexivity].
Qed.

Lemma keys_set k v d :
  Dict.keys (Dict.set k v d)
  = if Dict.mem k d then Dict.keys d else (Dict.keys d ++ [k])%list.
Proof.
  unfold Dict.mem. induction d as [|[a b] r IH]; simpl; [reflexivity|].
  destruct (String.eqb_spec a k) as [->|N]; simpl; [reflexivity|].
  rewrite IH. now destruct (Dict.get k r).
Qed.

Lemma NoDup_keys_set k v d :
  NoDup (Dict.keys d) -> NoDup (Dict.keys (Dict.set k v d)).
Proof.
  intros ND. rewrite keys_set. destruct (Dict.mem k d) eqn:E; [exact ND|].
  apply mem_false in E.
  apply (Permutation_NoDup (l := k :: Dict.keys d)).
  - apply Permutation_cons_append.
  - now constructor.
Qed.

Lemma get_alter (f : V -> V) k k' d :
  Dict.get k' (Dict.alter f k d)
  = if String.eqb k k' then option_map f (Dict.get k' d) else Dict.get k' d.
Proof.
  induction d as [|[a b] r IH]; simpl.
  - now destruct (String.eqb k k').
  - destruct (String.eqb_spec a k) as [->|N]; simpl.
    + destruct (String.eqb_spec k k'); reflexivity.
    + rewrite IH. destruct (String.eqb_spec a k') as [->|N'];
        [|reflexivity].
      destruct (String.eqb_spec k k'); [congruence|reflexivity].
Qed.

Lemma keys_alter (f : V -> V) k d :
  Dict.keys (Dict.alter f k d) = Dict.keys d.
Proof.
  induction d as [|[a b] r IH]; simpl; [reflexivity|].
  destruct (String.eqb a k); simpl; [reflexivity|now rewrite IH].
Qed.

Lemma item_Ok k d v : Dict.item k d = Ok v <-> Dict.get k d = Some v.
Proof.
  unfold Dict.item. destruct (Dict.get k d); split; congruence.
Qed.
End Facts.
End DictFacts.

(** ** Invariants of the graph *)

Module GraphFacts.
Import DictFacts.


Lemma wf_empty : well_formed nx.empty.
Proof.
  split; simpl; try reflexivity; [constructor|discriminate].
Qed.

Lemma mem_adj G n : well_formed G -> Dict.mem n (nx.adj G) = Dict.mem n (nx.nodes G).
Proof.
  intros W. destruct (Dict.mem n (nx.nodes G)) eqn:E.
  - apply mem_In. rewrite <- (wf_keys G W). now apply mem_In.
  - apply mem_false. rewrite <- (wf_keys G W). now apply mem_false.
Qed.

Lemma wf_add_node n y G : well_formed G -> well_formed (nx.add_node n y G).
Proof.
  intros W. unfold nx.add_node. destruct (Dict.mem n (nx.nodes G)) eqn:E.
  - split; simpl.
    + rewrite keys_set, E. apply (wf_keys G W).
    + apply NoDup_keys_set, (wf_nodup G W).
    + intros m nb H. rewrite keys_set, E. now apply (wf_nbrs G W m).
    + apply (wf_sym G W).
  - assert (Ea : Dict.mem n (nx.adj G) = false) by (now rewrite mem_adj).
    assert (Nin : forall m nb, Dict.get m (nx.adj G) = Some nb ->
                               Dict.get n nb = None).
    { intros m nb H. apply get_None. intros I.
      apply (wf_nbrs G W) in H. destruct H as [_ H]. apply H in I.
      apply mem_false in E. contradiction. }
    split; simpl.
    + rewrite !keys_set, E, Ea. now rewrite (wf_keys G W).
    + apply NoDup_keys_set, (wf_nodup G W).
    + intros m nb. rewrite get_set, keys_set, E.
      destruct (String.eqb_spec n m) as [->|N].
      * intros [= <-]. split; [constructor|intros ? []].
      * intros H. apply (wf_nbrs G W) in H. destruct H as [H1 H2].
        split; [exact H1|]. intros k I. apply in_or_app. left. now apply H2.
    + intros u v. unfold nx.edge_data. simpl. rewrite !get_set.
      pose proof (wf_sym G W u v) as S. unfold nx.edge_data in S.
      destruct (String.eqb_spec n u) as [<-|Nu];
        destruct (String.eqb_spec n v) as [<-|Nv]; simpl.
      * reflexivity.
      * destruct (Dict.get v (nx.adj G)) as [nb|] eqn:Hv; [|reflexivity].
        symmetry. now apply (Nin v).
      * destruct (Dict.get u (nx.adj G)) as [nb|] eqn:Hu; [|reflexivity].
        now apply (Nin u).
      * exact S.
Qed.

Lemma nodes_add_node n y G :
  nx.nodes (nx.add_node n y G) = Dict.set n (Some y) (nx.nodes G).
Proof. unfold nx.add_node. now destruct (Dict.mem n (nx.nodes G)). Qed.

Lemma mem_add_node n y G : Dict.mem n (nx.nodes (nx.add_node n y G)) = true.
Proof.
  rewrite nodes_add_node. unfold Dict.mem.
  now rewrite get_set, String.eqb_refl.
Qed.

Lemma mem_add_node_mono n m y G :
  Dict.mem m (nx.nodes G) = true ->
  Dict.mem m (nx.nodes (nx.add_node n y G)) = true.
Proof.
  rewrite nodes_add_node. unfold Dict.mem. rewrite get_set.
  now destruct (String.eqb n m).
Qed.

Lemma ensure_node_id n G :
  Dict.mem n (nx.nodes G) = true -> nx.ensure_node n G = G.
Proof. unfold nx.ensure_node. now intros ->. Qed.

Lemma add_edge_present u v dd G :
  Dict.mem u (nx.nodes G) = true -> Dict.mem v (nx.nodes G) = true ->
  nx.add_edge u v dd G
  = nx.mkGraph (nx.nodes G)
      (Dict.alter (Dict.set u dd) v (Dict.alter (Dict.set v dd) u (nx.adj G))).
Proof.
  intros Hu Hv. unfold nx.add_edge.
  now rewrite (ensure_node_id u G Hu), (ensure_node_id v G Hv).
Qed.

(** The edge between two nodes after [add_edge]. *)
Lemma edge_data_add_edge u v dd G a b :
  well_formed G -> Dict.mem u (nx.nodes G) = true -> Dict.mem v (nx.nodes G) = true ->
  nx.edge_data (nx.add_edge u v dd G) a b
  = if (String.eqb a u && String.eqb b v) || (String.eqb a v && String.eqb b u)
    then Some dd else nx.edge_data G a b.
Proof.
  intros W Hu Hv. rewrite add_edge_present by assumption.
  unfold nx.edge_data. simpl. rewrite !get_alter.
  assert (Au : Dict.get u (nx.adj G) <> None).
  { rewrite <- (mem_adj G u W) in Hu. unfold Dict.mem in Hu.
    destruct (Dict.get u (nx.adj G)); congruence. }
  assert (Av : Dict.get v (nx.adj G) <> None).
  { rewrite <- (mem_adj G v W) in Hv. unfold Dict.mem in Hv.
    destruct (Dict.get v (nx.adj G)); congruence. }
  destruct (String.eqb_spec v a) as [->|Nva];
    destruct (String.eqb_spec u a) as [->|Nua];
    rewrite ?String.eqb_refl; simpl.
  - destruct (Dict.get a (nx.adj G)) as [nb|]; [|congruence]. simpl.
    rewrite !get_set. rewrite (String.eqb_sym b a).
    destruct (String.eqb a b); reflexivity.
  - destruct (Dict.get a (nx.adj G)) as [nb|]; [|congruence]. simpl.
    rewrite get_set. rewrite (String.eqb_sym b u).
    destruct (String.eqb_spec a u) as [->|_]; [congruence|]. simpl.
    destruct (String.eqb u b); reflexivity.
  - destruct (Dict.get a (nx.adj G)) as [nb|]; [|congruence]. simpl.
    rewrite get_set. rewrite (String.eqb_sym b v).
    destruct (String.eqb_spec a v) as [->|_]; [congruence|].
    rewrite orb_false_r.
    destruct (String.eqb v b); reflexivity.
  - destruct (String.eqb_spec a u) as [->|_]; [congruence|].
    destruct (String.eqb_spec a v) as [->|_]; [congruence|]. reflexivity.
Qed.

Lemma wf_add_edge u v dd G :
  well_formed G -> Dict.mem u (nx.nodes G) = true -> Dict.mem v (nx.nodes G) = true ->
  well_formed (nx.add_edge u v dd G).
Proof.
  intros W Hu Hv. split.
  - rewrite add_edge_present by assumption. simpl.
    rewrite !keys_alter. apply (wf_keys G W).
  - rewrite add_edge_present by assumption. apply (wf_nodup G W).
  - rewrite add_edge_present by assumption. simpl. intros n nb.
    rewrite !get_alter.
    assert (S : forall k nb0, Dict.mem k (nx.nodes G) = true ->
              NoDup (Dict.keys nb0) /\ incl (Dict.keys nb0) (Dict.keys (nx.nodes G)) ->
              NoDup (Dict.keys (Dict.set k dd nb0))
              /\ incl (Dict.keys (Dict.set k dd nb0)) (Dict.keys (nx.nodes G))).
    { intros k nb0 Hk [N I]. split; [now apply NoDup_keys_set|].
      rewrite keys_set. destruct (Dict.mem k nb0); [exact I|].
      intros x Hx. apply in_app_or in Hx. destruct Hx as [Hx|[<-|[]]];
        [now apply I|now apply mem_In]. }
    destruct (Dict.get n (nx.adj G)) as [nb0|] eqn:E.
    + pose proof (wf_nbrs G W n nb0 E) as B.
      destruct (String.eqb v n); destruct (String.eqb u n); simpl;
        intros [= <-]; auto.
    + destruct (String.eqb v n); destruct (String.eqb u n); simpl;
        discriminate.
  - intros a b. rewrite !edge_data_add_edge by assumption.
    rewrite (wf_sym G W a b), orb_comm.
    now rewrite (andb_comm (String.eqb a v)), (andb_comm (String.eqb a u)).
Qed.

End GraphFacts.

(** ** The iteration over the edges *)

Module EdgeFacts.
Import DictFacts GraphFacts.


Lemma filter_none {A} (f : A -> bool) l :
  (forall x, In x l -> f x = false) -> filter f l = [].
Proof.
  induction l as [|a r IH]; simpl; intros H; [reflexivity|].
  rewrite (H a) by now left. apply IH. intros x Hx. apply H. now right.
Qed.

Lemma pymem_In x l : PyList.mem x l = true <-> In x l.
Proof.
  unfold PyList.mem. rewrite existsb_exists. split.
  - intros [y [Hy E]]. apply String.eqb_eq in E. now subst.
  - intros H. exists x. split; [exact H|apply String.eqb_refl].
Qed.

Lemma pymem_false x l : PyList.mem x l = false <-> ~ In x l.
Proof.
  rewrite <- pymem_In. destruct (PyList.mem x l); split; congruence.
Qed.

(** Where a reported edge comes from. *)
Lemma In_edges_from seen a x y d :
  In (x, y, d) (nx.edges_from seen a) ->
  ~ In y seen /\ exists nb, In (x, nb) a /\ In (y, d) nb.
Proof.
  revert seen. induction a as [|[n nbrs] rest IH]; simpl; intros seen H;
    [contradiction|].
  apply in_app_or in H. destruct H as [H|H].
  - apply in_map_iff in H. destruct H as [[k dd] [E H]].
    inversion E; subst. apply filter_In in H. destruct H as [H1 H2].
    apply negb_true_iff, pymem_false in H2.
    split; [exact H2|]. exists nbrs. split; [now left|exact H1].
  - apply IH in H. destruct H as [H1 [nb [H2 H3]]]. split.
    + intros I. apply H1. now right.
    + exists nb. split; [now right|exact H3].
Qed.

(** The neighbours of one node that are a given node: at most one. *)
Lemma filter_key {V} (k : string) (v : V) (nb : list (string * V)) f :
  NoDup (Dict.keys nb) -> Dict.get k nb = Some v ->
  (forall k' v', f (k', v') = String.eqb k' k) ->
  filter f nb = [(k, v)].
Proof.
  intros ND G F. induction nb as [|[a b] r IH]; simpl in *; [discriminate|].
  inversion ND as [|? ? Nin ND']; subst. rewrite F.
  destruct (String.eqb_spec a k) as [->|N].
  - inversion G; subst. f_equal. apply filter_none. intros [k' v'] I.
    rewrite F. apply String.eqb_neq. intros ->. apply Nin.
    change (In (fst (k, v')) (map fst r)). now apply in_map.
  - now apply IH.
Qed.

Section Pair.
Variables (u v : string) (d : nx.data).

(** The edges reported at node [n] that join [u] and [v], when [n] is
    [u] and [v] has not been passed. *)
Lemma head_hit seen nbrs w0 :
  NoDup (Dict.keys nbrs) -> Dict.get w0 nbrs = Some d -> ~ In w0 seen ->
  forall n, (forall k dd, is_pair u v (n, k, dd) = String.eqb k w0) ->
  filter (is_pair u v)
    (map (fun '(nbr, dd) => (n, nbr, dd))
         (filter (fun '(nbr, _) => negb (PyList.mem nbr seen)) nbrs))
  = [(n, w0, d)].
Proof.
  intros ND G Ns n P.
  assert (E : forall l : list (string * nx.data),
            filter (is_pair u v) (map (fun '(nbr, dd) => (n, nbr, dd)) l)
            = map (fun '(nbr, dd) => (n, nbr, dd))
                  (filter (fun '(nbr, _) => String.eqb nbr w0) l)).
  { induction l as [|[k dd] r IH]; [reflexivity|]. cbn [map filter].
    rewrite P, IH. now destruct (String.eqb k w0). }
  rewrite E.
  assert (F : forall l : list (string * nx.data),
            filter (fun '(nbr, _) => String.eqb nbr w0)
                   (filter (fun '(nbr, _) => negb (PyList.mem nbr seen)) l)
            = filter (fun '(nbr, _) => String.eqb nbr w0) l).
  { induction l as [|[k dd] r IH]; [reflexivity|]. cbn [filter].
    destruct (String.eqb_spec k w0) as [->|N].
    - apply pymem_false in Ns. rewrite Ns. cbn [negb filter].
      rewrite String.eqb_refl. now rewrite IH.
    - destruct (negb (PyList.mem k seen)); cbn [filter]; [|exact IH].
      apply String.eqb_neq in N. now rewrite N. }
  rewrite F.
  rewrite (filter_key w0 d nbrs _ ND G); [reflexivity|].
  now intros k' v'.
Qed.

Lemma head_miss seen nbrs n :
  n <> u -> n <> v ->
  filter (is_pair u v)
    (map (fun '(nbr, dd) => (n, nbr, dd))
         (filter (fun '(nbr, _) => negb (PyList.mem nbr seen)) nbrs))
  = [].
Proof.
  intros Nu Nv. apply filter_none. intros [[a b] dd] H.
  apply in_map_iff in H. destruct H as [[k d0] [E _]]. inversion E; subst.
  unfold is_pair. apply String.eqb_neq in Nu, Nv. now rewrite Nu, Nv.
Qed.

(** No edge between [u] and [v] is reported from a list of nodes that
    has neither of them with the other still to come. *)
Lemma tail_miss seen a :
  (In u (Dict.keys a) -> In v seen) ->
  (In v (Dict.keys a) -> In u seen) ->
  filter (is_pair u v) (nx.edges_from seen a) = [].
Proof.
  intros Hu Hv. apply filter_none. intros [[x y] dd] H.
  apply In_edges_from in H. destruct H as [Ns [nb [I _]]].
  assert (Ix : In x (Dict.keys a)).
  { change (In (fst (x, nb)) (map fst a)). now apply in_map. }
  unfold is_pair.
  destruct (String.eqb_spec x u) as [->|Nu];
    destruct (String.eqb_spec y v) as [->|Nv]; simpl.
  - exfalso. auto.
  - destruct (String.eqb_spec u v) as [->|_]; [|reflexivity].
    destruct (String.eqb_spec y v) as [->|_]; [|reflexivity]. exfalso. auto.
  - destruct (String.eqb_spec x v) as [->|_]; [|reflexivity].
    destruct (String.eqb_spec v u) as [->|_]; [|reflexivity]. contradiction.
  - destruct (String.eqb_spec x v) as [->|_]; [|reflexivity].
    destruct (String.eqb_spec y u) as [->|_]; [|reflexivity]. exfalso. auto.
Qed.

(** An edge present in the adjacency of both its endpoints is reported
    once, from the endpoint the iteration reaches first. *)
Lemma reported_once seen a nbu nbv :
  NoDup (Dict.keys a) ->
  (forall n nb, Dict.get n a = Some nb -> NoDup (Dict.keys nb)) ->
  ~ In u seen -> ~ In v seen ->
  Dict.get u a = Some nbu -> Dict.get v nbu = Some d ->
  Dict.get v a = Some nbv -> Dict.get u nbv = Some d ->
  filter (is_pair u v) (nx.edges_from seen a) = [(u, v, d)]
  \/ filter (is_pair u v) (nx.edges_from seen a) = [(v, u, d)].
Proof.
  revert seen. induction a as [|[n nbrs] rest IH];
    intros seen ND NB Su Sv Gu Guv Gv Gvu;
    [discriminate|].
  cbn [nx.edges_from]. rewrite filter_app.
  simpl in ND. inversion ND as [|? ? Nin ND']; subst.
  simpl in Gu, Gv.
  destruct (String.eqb_spec n u) as [->|Nu].
  - inversion Gu; subst nbu. left.
    rewrite (head_hit seen nbrs v); try assumption.
    + rewrite tail_miss; [reflexivity| |].
      * intros I. contradiction.
      * intros _. now left.
    + apply (NB u). simpl. now rewrite String.eqb_refl.
    + intros k dd. unfold is_pair. rewrite String.eqb_refl. simpl.
      destruct (String.eqb_spec u v) as [->|N]; simpl.
      * apply orb_diag.
      * apply orb_false_r.
  - destruct (String.eqb_spec n v) as [->|Nv].
    + inversion Gv; subst nbv. right.
      rewrite (head_hit seen nbrs u); try assumption.
      * rewrite tail_miss; [reflexivity| |].
        -- intros _. now left.
        -- intros I. contradiction.
      * apply (NB v). simpl. now rewrite String.eqb_refl.
      * intros k dd. unfold is_pair. rewrite String.eqb_refl. simpl.
        apply String.eqb_neq in Nu. rewrite Nu. reflexivity.
    + rewrite head_miss by assumption. simpl.
      apply IH; try assumption.
      * intros m nb H. apply (NB m). simpl.
        destruct (String.eqb_spec n m) as [->|_]; [|exact H].
        exfalso. apply Nin. apply mem_In. unfold Dict.mem. now rewrite H.
      * intros [E|I]; [congruence|contradiction].
      * intros [E|I]; [congruence|contradiction].
Qed.
End Pair.

(** In a well-formed graph an edge is reported exactly once, in one of
    its two orientations. *)
Lemma edges_between_single G u v d :
  well_formed G -> nx.edge_data G u v = Some d ->
  edges_between G u v = [(u, v, d)] \/ edges_between G u v = [(v, u, d)].
Proof.
  intros W E. pose proof (wf_sym G W u v) as S. rewrite E in S.
  unfold nx.edge_data in E, S.
  destruct (Dict.get u (nx.adj G)) as [nbu|] eqn:Gu; [|discriminate].
  destruct (Dict.get v (nx.adj G)) as [nbv|] eqn:Gv; [|discriminate].
  unfold edges_between, nx.edges.
  apply (reported_once u v d [] (nx.adj G) nbu nbv); auto.
  - rewrite <- (wf_keys G W). apply (wf_nodup G W).
  - intros n nb H. now apply (wf_nbrs G W n nb).
Qed.

End EdgeFacts.

(** ** The graph builder *)

Module BuildFacts.
Import DictFacts GraphFacts.

Lemma build_step_unfold G e :
  let G2 := nx.add_node (tgt e) (ty e) (nx.add_node (src e) (sy e) G) in
  build_step G e
  = nx.mkGraph (nx.nodes G2)
      (Dict.alter (Dict.set (src e) (data_of e)) (tgt e)
         (Dict.alter (Dict.set (tgt e) (data_of e)) (src e) (nx.adj G2))).
Proof.
  intros G2. unfold build_step. apply add_edge_present.
  - apply mem_add_node_mono, mem_add_node.
  - apply mem_add_node.
Qed.

Lemma nodes_build_step G e :
  nx.nodes (build_step G e)
  = Dict.set (tgt e) (Some (ty e)) (Dict.set (src e) (Some (sy e)) (nx.nodes G)).
Proof.
  rewrite build_step_unfold. simpl. now rewrite !nodes_add_node.
Qed.

Lemma wf_build_step G e : well_formed G -> well_formed (build_step G e).
Proof.
  intros W. unfold build_step. apply wf_add_edge.
  - now apply wf_add_node, wf_add_node.
  - apply mem_add_node_mono, mem_add_node.
  - apply mem_add_node.
Qed.

Lemma dated_build_step G e : dated G -> dated (build_step G e).
Proof.
  intros D n a. rewrite nodes_build_step, !get_set.
  destruct (String.eqb (tgt e) n); [intros [= <-]; discriminate|].
  destruct (String.eqb (src e) n); [intros [= <-]; discriminate|].
  apply D.
Qed.

Lemma wf_fold l : forall G, well_formed G -> well_formed (fold_left build_step l G).
Proof.
  induction l as [|e r IH]; simpl; intros G W; [exact W|].
  now apply IH, wf_build_step.
Qed.

Lemma dated_fold l : forall G, dated G -> dated (fold_left build_step l G).
Proof.
  induction l as [|e r IH]; simpl; intros G D; [exact D|].
  now apply IH, dated_build_step.
Qed.

Lemma wf_build_graph edges : well_formed (build_graph edges).
Proof. apply wf_fold, wf_empty. Qed.

Lemma dated_build_graph edges : dated (build_graph edges).
Proof. apply dated_fold. intros n a. discriminate. Qed.

(** The attributes of a node after the records of [l]. *)
Lemma nodes_fold l : forall G n,
  Dict.get n (nx.nodes (fold_left build_step l G))
  = match last_year l n with
    | Some y => Some (Some y)
    | None => Dict.get n (nx.nodes G)
    end.
Proof.
  induction l as [|e r IH]; simpl; intros G n; [reflexivity|].
  rewrite IH. destruct (last_year r n); [reflexivity|].
  rewrite nodes_build_step, !get_set.
  destruct (String.eqb (tgt e) n); [reflexivity|].
  now destruct (String.eqb (src e) n).
Qed.

Lemma year_build_graph edges n :
  nx.year (build_graph edges) n
  = match last_year edges n with Some y => Ok y | None => Raise KeyError end.
Proof.
  unfold nx.year, Dict.item, build_graph. rewrite nodes_fold.
  now destruct (last_year edges n).
Qed.

(** A dated node has a year. *)
Lemma year_Ok G n :
  dated G -> In n (nx.node_list G) -> exists y, nx.year G n = Ok y.
Proof.
  intros D I. unfold nx.year, Dict.item.
  destruct (Dict.get n (nx.nodes G)) as [a|] eqn:E.
  - destruct a as [y|]; [now exists y|]. now apply D in E.
  - apply get_None in E. contradiction.
Qed.

(** The edge between two titles after one more record. *)
Lemma edge_data_build_step G e a b :
  well_formed G ->
  nx.edge_data (build_step G e) a b
  = if joins a b e then Some (data_of e) else nx.edge_data G a b.
Proof.
  intros W. unfold build_step.
  rewrite edge_data_add_edge.
  - assert (A : forall n y G0, well_formed G0 ->
              nx.edge_data (nx.add_node n y G0) a b = nx.edge_data G0 a b).
    { intros n y G0 W0. unfold nx.add_node.
      destruct (Dict.mem n (nx.nodes G0)) eqn:M; [reflexivity|].
      unfold nx.edge_data. simpl. rewrite get_set.
      destruct (String.eqb_spec n a) as [<-|N]; [|reflexivity].
      rewrite <- (mem_adj G0 n W0) in M. unfold Dict.mem in M.
      destruct (Dict.get n (nx.adj G0)); [discriminate|reflexivity]. }
    rewrite A by now apply wf_add_node. rewrite A by assumption.
    unfold joins, data_of.
    rewrite (String.eqb_sym a (src e)), (String.eqb_sym b (tgt e)),
            (String.eqb_sym a (tgt e)), (String.eqb_sym b (src e)).
    now rewrite (andb_comm (String.eqb (tgt e) a)).
  - now apply wf_add_node, wf_add_node.
  - apply mem_add_node_mono, mem_add_node.
  - apply mem_add_node.
Qed.

(** Records that do not join two titles leave the edge between them. *)
Lemma edge_data_fold l u v : forall G,
  well_formed G -> forallb (fun e => negb (joins u v e)) l = true ->
  nx.edge_data (fold_left build_step l G) u v = nx.edge_data G u v.
Proof.
  induction l as [|e r IH]; simpl; intros G W H; [reflexivity|].
  apply andb_prop in H. destruct H as [H1 H2].
  rewrite IH by (auto using wf_build_step).
  rewrite edge_data_build_step by assumption.
  apply negb_true_iff in H1. now rewrite H1.
Qed.

Lemma mem_keys {V} k (d : list (string * V)) :
  Dict.mem k d = PyList.mem k (Dict.keys d).
Proof.
  destruct (PyList.mem k (Dict.keys d)) eqn:E.
  - apply mem_In. now apply EdgeFacts.pymem_In.
  - apply mem_false. now apply EdgeFacts.pymem_false.
Qed.

(** The nodes are in the order the records first name them. *)
Lemma node_list_fold l : forall G,
  nx.node_list (fold_left build_step l G)
  = fold_left (fun acc n => if PyList.mem n acc then acc else acc ++ [n])
              (flat_map (fun e => [src e; tgt e]) l) (nx.node_list G).
Proof.
  induction l as [|e r IH]; intros G; [reflexivity|].
  cbn [fold_left flat_map app]. rewrite IH. f_equal.
  unfold nx.node_list. rewrite nodes_build_step, !keys_set, !mem_keys.
  rewrite keys_set, mem_keys. reflexivity.
Qed.

Lemma node_list_build_graph edges :
  nx.node_list (build_graph edges) = first_seen edges.
Proof. unfold build_graph, first_seen. now rewrite node_list_fold. Qed.

Lemma last_year_none l n :
  forallb (fun e => negb (mentions n e)) l = true -> last_year l n = None.
Proof.
  induction l as [|e r IH]; simpl; intros H; [reflexivity|].
  apply andb_prop in H. destruct H as [H1 H2]. rewrite (IH H2).
  apply negb_true_iff, orb_false_iff in H1. destruct H1 as [-> ->].
  reflexivity.
Qed.

Lemma last_year_app l1 l2 n :
  last_year (l1 ++ l2) n
  = match last_year l2 n with Some y => Some y | None => last_year l1 n end.
Proof.
  induction l1 as [|e r IH]; simpl.
  - now destruct (last_year l2 n).
  - rewrite IH. now destruct (last_year l2 n).
Qed.

End BuildFacts.

(** ** Duplicate records *)

Lemma build_graph_split pre r post :
  build_graph (pre ++ r :: post)
  = fold_left build_step post (build_step (build_graph pre) r).
Proof. unfold build_graph. now rewrite fold_left_app. Qed.

Lemma joins_self r : joins (src r) (tgt r) r = true.
Proof. unfold joins. now rewrite !String.eqb_refl. Qed.

(** C7, as stated, fails: a record after the duplicate that names one of
    the two titles with another year changes that node's year. *)
Lemma duplicate_pair_counterexample :
  ~ (forall pre r1 mid r2 post,
        src r1 = src r2 -> tgt r1 = tgt r2 ->
        later_record_wins (pre ++ r1 :: mid ++ r2 :: post) r2).
Proof.
  intros H.
  specialize (H [] (mkEdge "A" 1800 "B" 1810 2 ["x"] "")
                [] (mkEdge "A" 1800 "B" 1810 3 ["y"] "n")
                [mkEdge "B" 1900 "C" 1950 1 [] ""] eq_refl eq_refl).
  destruct H as [_ [_ H]]. vm_compute in H. discriminate H.
Qed.

(** C7, amended.  In a sequence with two records of the same source and
    target, the graph keeps a single edge between the two titles; it
    carries the weight, themes and note of the later record alone when no
    record after it joins the two titles (in either direction), and an
    endpoint has the later record's year when no record after it names
    that title (a title that is both source and target has the target's
    year). *)
Theorem duplicate_pair_last_wins pre r1 mid r2 post :
  src r1 = src r2 -> tgt r1 = tgt r2 ->
  forallb (fun e => negb (joins (src r2) (tgt r2) e)) post = true ->
  let G := build_graph (pre ++ r1 :: mid ++ r2 :: post) in
  (edges_between G (src r2) (tgt r2) = [(src r2, tgt r2, data_of r2)]
   \/ edges_between G (src r2) (tgt r2) = [(tgt r2, src r2, data_of r2)])
  /\ (forallb (fun e => negb (mentions (tgt r2) e)) post = true ->
      nx.year G (tgt r2) = Ok (ty r2))
  /\ (forallb (fun e => negb (mentions (src r2) e)) post = true ->
      src r2 <> tgt r2 \/ sy r2 = ty r2 ->
      nx.year G (src r2) = Ok (sy r2)).
Proof.
  intros _ _ NJ G.
  assert (E : G = build_graph ((pre ++ r1 :: mid) ++ r2 :: post)).
  { unfold G. f_equal. now rewrite <- app_assoc. }
  split; [|split].
  - apply EdgeFacts.edges_between_single.
    + apply BuildFacts.wf_build_graph.
    + rewrite E, build_graph_split.
      rewrite BuildFacts.edge_data_fold;
        [|apply BuildFacts.wf_build_step, BuildFacts.wf_build_graph|exact NJ].
      rewrite BuildFacts.edge_data_build_step
        by apply BuildFacts.wf_build_graph.
      now rewrite joins_self.
  - intros NM. rewrite E, BuildFacts.year_build_graph.
    rewrite BuildFacts.last_year_app. simpl.
    rewrite (BuildFacts.last_year_none post _ NM).
    now rewrite String.eqb_refl.
  - intros NM D. rewrite E, BuildFacts.year_build_graph.
    rewrite BuildFacts.last_year_app. simpl.
    rewrite (BuildFacts.last_year_none post _ NM).
    rewrite String.eqb_refl.
    destruct (String.eqb_spec (tgt r2) (src r2)) as [Eq|_]; [|reflexivity].
    destruct D as [D| ->]; [now symmetry in Eq|reflexivity].
Qed.

Lemma duplicate_pair_last_wins_witness :
  let r1 := mkEdge "A" 1800 "B" 1810 2 ["x"] "" in
  let r2 := mkEdge "A" 1801 "B" 1811 3 ["y"] "n" in
  let G := build_graph ([] ++ r1 :: [] ++ r2 :: [mkEdge "C" 1900 "D" 1950 1 [] ""]) in
  (edges_between G "A" "B" = [("A", "B", data_of r2)]
   \/ edges_between G "A" "B" = [("B", "A", data_of r2)])
  /\ nx.year G "B" = Ok 1811%Z /\ nx.year G "A" = Ok 1801%Z.
Proof.
  intros r1 r2 G.
  destruct (duplicate_pair_last_wins [] r1 [] r2
              [mkEdge "C" 1900 "D" 1950 1 [] ""] eq_refl eq_refl eq_refl)
    as [H1 [H2 H3]].
  split; [exact H1|]. split.
  - exact (H2 eq_refl).
  - apply (H3 eq_refl). left. discriminate.
Defined.

(** ** Loops that do not raise *)

Module LoopFacts.

Lemma for_each_ok {S A} (body : S -> A -> result S) (g : S -> A -> S) l :
  (forall s a, In a l -> body s a = Ok (g s a)) ->
  forall s, for_each body l s = Ok (fold_left g l s).
Proof.
  induction l as [|a r IH]; simpl; intros H s; [reflexivity|].
  rewrite H by now left. simpl. apply IH. intros s' a' I. apply H. now right.
Qed.

Lemma map_r_ok {A B} (f : A -> result B) (g : A -> B) l :
  (forall a, In a l -> f a = Ok (g a)) -> map_r f l = Ok (map g l).
Proof.
  induction l as [|a r IH]; simpl; intros H; [reflexivity|].
  rewrite H by now left. simpl. rewrite IH; [reflexivity|].
  intros a' I. apply H. now right.
Qed.

End LoopFacts.

(** ** The stable sort *)

Module SortFacts.


Lemma filter_length_perm {A} (f : A -> bool) l l' :
  Permutation l l' -> List.length (filter f l) = List.length (filter f l').
Proof.
  induction 1 as [|a l l' _ IH|a b l|l l' l'' _ IH1 _ IH2]; simpl.
  - reflexivity.
  - destruct (f a); simpl; congruence.
  - destruct (f a), (f b); reflexivity.
  - congruence.
Qed.

Section Generic.
Context {A K : Type} (leb : K -> K -> bool) (key : A -> K).

Lemma insert_perm a l : Permutation (PyList.insert leb key a l) (a :: l).
Proof.
  induction l as [|b r IH]; simpl; [reflexivity|].
  destruct (leb (key a) (key b)); [reflexivity|].
  rewrite IH. apply perm_swap.
Qed.

Lemma sorted_perm l : Permutation (PyList.sorted leb key l) l.
Proof.
  induction l as [|a r IH]; simpl; [reflexivity|].
  rewrite insert_perm. now constructor.
Qed.

Hypothesis leb_total : forall a b, leb a b = true \/ leb b a = true.
Hypothesis leb_trans :
  forall a b c, leb a b = true -> leb b c = true -> leb a c = true.


Lemma insert_sorted a l :
  StronglySorted (sorted_le leb key) l ->
  StronglySorted (sorted_le leb key) (PyList.insert leb key a l).
Proof.
  induction 1 as [|b r S IH F]; simpl.
  - constructor; constructor.
  - destruct (leb (key a) (key b)) eqn:E.
    + constructor; [now constructor|]. constructor; [exact E|].
      apply Forall_forall. intros x I. rewrite Forall_forall in F.
      apply (leb_trans _ (key b)); [exact E|now apply F].
    + constructor; [exact IH|].
      apply Forall_forall. intros x I.
      apply (Permutation_in _ (insert_perm a r)) in I.
      destruct I as [<-|I].
      * destruct (leb_total (key a) (key b)) as [T|T]; [congruence|exact T].
      * rewrite Forall_forall in F. now apply F.
Qed.

Lemma sorted_sorted l : StronglySorted (sorted_le leb key) (PyList.sorted leb key l).
Proof.
  induction l as [|a r IH]; simpl; [constructor|]. now apply insert_sorted.
Qed.
Hypothesis leb_antisym :
  forall a b, leb (key a) (key b) = true -> leb (key b) (key a) = true -> a = b.

(** A sorted list is determined by its elements: the order in which a
    set hands them to [sorted] does not matter. *)
Lemma sorted_unique l1 : forall l2,
  StronglySorted (sorted_le leb key) l1 ->
  StronglySorted (sorted_le leb key) l2 -> Permutation l1 l2 ->
  l1 = l2.
Proof.
  induction l1 as [|a r1 IH]; intros l2 S1 S2 P.
  - now apply Permutation_nil in P.
  - destruct l2 as [|b r2];
      [symmetry in P; now apply Permutation_nil in P|].
    inversion S1 as [|? ? S1' F1]; subst.
    inversion S2 as [|? ? S2' F2]; subst.
    rewrite Forall_forall in F1, F2.
    assert (E : a = b).
    { assert (Ia : In a (b :: r2))
        by (apply (Permutation_in _ P); now left).
      assert (Ib : In b (a :: r1))
        by (apply (Permutation_in _ (Permutation_sym P)); now left).
      destruct Ia as [->|Ia]; [reflexivity|].
      destruct Ib as [->|Ib]; [reflexivity|].
      apply leb_antisym; [now apply F1|now apply F2]. }
    subst b. f_equal. apply IH; [assumption|assumption|].
    now apply Permutation_cons_inv in P.
Qed.

Lemma sorted_any_order l l' :
  Permutation l l' -> PyList.sorted leb key l = PyList.sorted leb key l'.
Proof.
  intros P. apply sorted_unique; try apply sorted_sorted.
  rewrite (sorted_perm l), P. symmetry. apply sorted_perm.
Qed.
End Generic.

(** Sorting the nodes by a key, as [positions] does. *)
Section ByYear.
Variable k : string -> Z.

Local Abbreviation sortk := (PyList.sorted Z.leb k).
Local Abbreviation insk := (PyList.insert Z.leb k).
Local Abbreviation lek := (sorted_le Z.leb k).

Lemma Zleb_total a b : (a <=? b)%Z = true \/ (b <=? a)%Z = true.
Proof. rewrite !Z.leb_le. lia. Qed.

Lemma Zleb_trans a b c :
  (a <=? b)%Z = true -> (b <=? c)%Z = true -> (a <=? c)%Z = true.
Proof. rewrite !Z.leb_le. lia. Qed.

Lemma sortk_sorted l : StronglySorted lek (sortk l).
Proof. apply sorted_sorted; [exact Zleb_total|exact Zleb_trans]. Qed.

Lemma idx_insert_self a l :
  StronglySorted lek l ->
  idx a (insk a l) = List.length (filter (fun m => k m <? k a)%Z l).
Proof.
  induction 1 as [|b r S IH F]; simpl.
  - now rewrite String.eqb_refl.
  - destruct (k a <=? k b)%Z eqn:E; simpl.
    + rewrite String.eqb_refl.
      apply Z.leb_le in E.
      assert (Hb : (k b <? k a)%Z = false) by (apply Z.ltb_ge; lia).
      rewrite Hb. symmetry. apply length_zero_iff_nil.
      apply EdgeFacts.filter_none. intros x I.
      rewrite Forall_forall in F. specialize (F x I).
      unfold sorted_le in F. apply Z.leb_le in F. apply Z.ltb_ge. lia.
    + apply Z.leb_gt in E.
      assert (Hb : (k b <? k a)%Z = true) by (apply Z.ltb_lt; lia).
      rewrite Hb. simpl.
      destruct (String.eqb_spec b a) as [->|_]; [lia|]. now rewrite IH.
Qed.

Lemma idx_insert_other a n l :
  StronglySorted lek l -> In n l -> a <> n ->
  idx n (insk a l)
  = (idx n l + if (k a <=? k n)%Z then 1 else 0)%nat.
Proof.
  intros S I N. induction S as [|b r S IH F]; simpl; [contradiction|].
  destruct (k a <=? k b)%Z eqn:E; simpl.
  - apply String.eqb_neq in N. rewrite N.
    assert (Hn : (k a <=? k n)%Z = true).
    { apply Z.leb_le in E. apply Z.leb_le.
      destruct I as [<-|I]; [exact E|].
      rewrite Forall_forall in F. specialize (F n I).
      unfold sorted_le in F. apply Z.leb_le in F. lia. }
    rewrite Hn. lia.
  - destruct (String.eqb_spec b n) as [->|Nb].
    + rewrite E. lia.
    + destruct I as [I|I]; [contradiction|]. rewrite (IH I). lia.
Qed.

(** The place of a node in the sorted list is its stable rank. *)
Lemma idx_sorted n l :
  NoDup l -> In n l ->
  idx n (sortk l)
  = (List.length (filter (fun m => k m <? k n)%Z l)
     + List.length (filter (fun m => k m =? k n)%Z (before n l)))%nat.
Proof.
  induction l as [|a r IH]; intros ND I; [contradiction|].
  inversion ND as [|? ? Nin ND']; subst.
  cbn [PyList.sorted fold_right before filter].
  change (fold_right insk [] r) with (sortk r).
  destruct (String.eqb_spec a n) as [->|N].
  - rewrite idx_insert_self by apply sortk_sorted.
    rewrite Z.ltb_irrefl. simpl.
    rewrite (filter_length_perm _ _ _ (sorted_perm Z.leb k r)). lia.
  - destruct I as [I|I]; [contradiction|].
    rewrite idx_insert_other;
      [|apply sortk_sorted
       |apply (Permutation_in _ (Permutation_sym (sorted_perm Z.leb k r))), I
       |exact N].
    rewrite (IH ND' I). cbn [filter].
    destruct (Z.compare_spec (k a) (k n)) as [E|L|G].
    + rewrite E, Z.leb_refl, Z.ltb_irrefl, Z.eqb_refl. simpl. lia.
    + assert (H1 : (k a <=? k n)%Z = true) by (apply Z.leb_le; lia).
      assert (H2 : (k a <? k n)%Z = true) by (apply Z.ltb_lt; lia).
      assert (H3 : (k a =? k n)%Z = false) by (apply Z.eqb_neq; lia).
      rewrite H1, H2, H3. simpl. lia.
    + assert (H1 : (k a <=? k n)%Z = false) by (apply Z.leb_gt; lia).
      assert (H2 : (k a <? k n)%Z = false) by (apply Z.ltb_ge; lia).
      assert (H3 : (k a =? k n)%Z = false) by (apply Z.eqb_neq; lia).
      rewrite H1, H2, H3. simpl. lia.
Qed.

Lemma insert_keyed a s :
  (forall p, In p s -> snd p = k (fst p)) ->
  map fst (PyList.insert Z.leb snd (a, k a) s) = insk a (map fst s).
Proof.
  induction s as [|[b kb] s IH]; simpl; intros H; [reflexivity|].
  assert (E : kb = k b) by (apply (H (b, kb)); now left). subst kb.
  destruct (k a <=? k b)%Z; simpl; [reflexivity|].
  rewrite IH; [reflexivity|]. intros p I. apply H. now right.
Qed.

(** Sorting the pairs of a node and its key, then dropping the keys, is
    sorting the nodes by the key. *)
Lemma sorted_keyed l :
  map fst (PyList.sorted Z.leb snd (map (fun n => (n, k n)) l)) = sortk l.
Proof.
  induction l as [|a r IH]; simpl; [reflexivity|].
  rewrite insert_keyed; [now rewrite IH|].
  intros p I.
  apply (Permutation_in _ (sorted_perm Z.leb snd _)) in I.
  apply in_map_iff in I. destruct I as [n [<- _]]. reflexivity.
Qed.
End ByYear.

End SortFacts.

(** ** The layout engine *)

Module LayoutFacts.
Import DictFacts GraphFacts SortFacts.

Lemma set_fresh {V} k (v : V) d :
  ~ In k (Dict.keys d) -> Dict.set k v d = d ++ [(k, v)].
Proof.
  induction d as [|[a b] r IH]; simpl; intros N; [reflexivity|].
  destruct (String.eqb_spec a k) as [->|_]; [exfalso; auto|].
  rewrite IH; auto.
Qed.

(** Filling a dictionary from a list of distinct new keys lists them in
    order. *)
Lemma fold_set_fresh {V} (f : string -> V) l : forall d,
  NoDup l -> (forall n, In n l -> ~ In n (Dict.keys d)) ->
  fold_left (fun d n => Dict.set n (f n) d) l d
  = d ++ map (fun n => (n, f n)) l.
Proof.
  induction l as [|a r IH]; simpl; intros d ND F; [now rewrite app_nil_r|].
  inversion ND as [|? ? Nin ND']; subst.
  rewrite set_fresh by (apply F; now left).
  rewrite IH; [now rewrite <- app_assoc|exact ND'|].
  intros n I. unfold Dict.keys. rewrite map_app. simpl.
  intros J. apply in_app_or in J. destruct J as [J|[<-|[]]].
  - apply (F n); [now right|exact J].
  - contradiction.
Qed.

(** [y_positions]: each node of the sorted list is mapped to its place. *)
Lemma y_positions_get n l : forall i d,
  NoDup l -> In n l ->
  Dict.get n (fold_left (fun d '(j, m) => Dict.set m j d)
                        (PyList.enumerate_from i l) d)
  = Some (i + Z.of_nat (idx n l))%Z.
Proof.
  assert (Out : forall l i d, ~ In n l ->
            Dict.get n (fold_left (fun d '(j, m) => Dict.set m j d)
                                  (PyList.enumerate_from i l) d)
            = Dict.get n d).
  { induction l0 as [|a r IH]; simpl; intros i d N; [reflexivity|].
    rewrite IH by tauto. rewrite get_set.
    destruct (String.eqb_spec a n) as [->|_]; [exfalso; auto|reflexivity]. }
  induction l as [|a r IH]; simpl; intros i d ND I; [contradiction|].
  inversion ND as [|? ? Nin ND']; subst.
  destruct (String.eqb_spec a n) as [->|N].
  - rewrite Out by assumption. rewrite get_set, String.eqb_refl.
    f_equal. lia.
  - destruct I as [I|I]; [contradiction|].
    rewrite IH by assumption. f_equal. lia.
Qed.


Lemma year_yr G n :
  dated G -> In n (nx.node_list G) -> nx.year G n = Ok (yr G n).
Proof.
  intros D I. destruct (BuildFacts.year_Ok G n D I) as [y E].
  unfold yr. now rewrite E.
Qed.

(** The position map, node by node. *)
Lemma positions_explicit G :
  well_formed G -> dated G ->
  positions G
  = Ok (map (fun n => (n, (yr G n,
                           Z.of_nat (idx n (PyList.sorted Z.leb (yr G)
                                                          (nx.node_list G))))))
            (nx.node_list G)).
Proof.
  intros W D. unfold positions.
  rewrite (LoopFacts.map_r_ok _ (fun n => (n, yr G n))).
  2:{ intros n I. now rewrite (year_yr G n D I). }
  cbn [bind]. rewrite sorted_keyed.
  set (ns := PyList.sorted Z.leb (yr G) (nx.node_list G)).
  assert (P : Permutation ns (nx.node_list G)) by apply sorted_perm.
  assert (ND : NoDup (nx.node_list G)) by apply (wf_nodup G W).
  rewrite (LoopFacts.for_each_ok _
             (fun d n => Dict.set n (yr G n, Z.of_nat (idx n ns)) d)).
  - f_equal. now rewrite fold_set_fresh.
  - intros d n I. rewrite (year_yr G n D I). cbn [bind].
    unfold Dict.item, PyList.enumerate.
    rewrite y_positions_get.
    + reflexivity.
    + apply (Permutation_NoDup (Permutation_sym P) ND).
    + apply (Permutation_in _ (Permutation_sym P) I).
Qed.

Lemma before_incl n l : incl (before n l) l.
Proof.
  induction l as [|a r IH]; simpl; [easy|].
  destruct (String.eqb a n); [intros x []|].
  intros x [<-|I]; [now left|right; now apply IH].
Qed.

Lemma rank_is_place G n :
  well_formed G -> dated G -> In n (nx.node_list G) ->
  Z.of_nat (idx n (PyList.sorted Z.leb (yr G) (nx.node_list G)))
  = stable_rank G n (yr G n).
Proof.
  intros W D I. unfold stable_rank. f_equal.
  rewrite idx_sorted; [|apply (wf_nodup G W)|exact I].
  assert (E : forall test m, In m (nx.node_list G) ->
              year_is G test m = test (yr G m)).
  { intros test m Im. unfold year_is. now rewrite (year_yr G m D Im). }
  f_equal; f_equal; apply filter_ext_in; intros m Im; symmetry.
  - apply (E (fun y => (y <? yr G n)%Z)), Im.
  - apply (E (fun y => (y =? yr G n)%Z)). now apply (before_incl n).
Qed.

End LayoutFacts.

(** C2. The layout gives every node of the built graph a position: its
    x is the node's year attribute, which is the year the records last
    gave the title; its y is the node's rank in the ascending stable
    order by year, nodes of the same year staying in insertion order,
    the order in which the records first name the titles. *)
Theorem positions_year_and_rank (edges : list EdgeRec) :
  let G := build_graph edges in
  exists pos,
    positions G = Ok pos
    /\ Dict.keys pos = nx.node_list G
    /\ nx.node_list G = first_seen edges
    /\ forall n, In n (nx.node_list G) ->
         exists year,
           nx.year G n = Ok year
           /\ last_year edges n = Some year
           /\ Dict.get n pos = Some (year, stable_rank G n year).
Proof.
  intros G.
  assert (W : well_formed G) by apply BuildFacts.wf_build_graph.
  assert (D : dated G) by apply BuildFacts.dated_build_graph.
  eexists. split; [apply (LayoutFacts.positions_explicit G W D)|]. split.
  - unfold Dict.keys. rewrite map_map. simpl. apply map_id.
  - split; [apply BuildFacts.node_list_build_graph|].
    intros n I. exists (yr G n).
    pose proof (LayoutFacts.year_yr G n D I) as Y. split; [exact Y|]. split.
    + unfold G in Y. rewrite BuildFacts.year_build_graph in Y.
      destruct (last_year edges n); [|discriminate]. now inversion Y.
    + apply DictFacts.In_get.
      * unfold Dict.keys. rewrite map_map. simpl. rewrite map_id.
        apply (wf_nodup G W).
      * rewrite <- (LayoutFacts.rank_is_place G n W D I).
        apply (in_map (fun n0 => (n0, (yr G n0, _))) _ n I).
Qed.

(** ** The trace generator *)

Module TraceFacts.
Import DictFacts GraphFacts.


Lemma edge_step_skip pos f wt acc e :
  accepts f wt e = false -> edge_step pos f wt acc e = Ok acc.
Proof.
  destruct acc as [[x y] t], e as [[u v] d]. unfold accepts, edge_step.
  destruct (f u v d); simpl; [|reflexivity].
  destruct wt as [wt|]; [|discriminate]. now intros ->.
Qed.

Lemma edge_step_take pos f wt x y t e :
  accepts f wt e = true ->
  (let '(u, v, _) := e in
   Dict.get u pos <> None /\ Dict.get v pos <> None) ->
  edge_step pos f wt (x, y, t) e
  = Ok (x ++ coords pos fst e, y ++ coords pos snd e, t ++ [hover e]).
Proof.
  destruct e as [[u v] d]. unfold accepts, edge_step, coords, hover, at_node.
  intros A [Hu Hv]. apply andb_prop in A. destruct A as [A1 A2].
  rewrite A1. simpl.
  assert (W : match wt with
              | Some wt0 => negb (nx.weight d =? wt0)%Z
              | None => false
              end = false).
  { destruct wt; [now rewrite A2|reflexivity]. }
  rewrite W. unfold Dict.item.
  destruct (Dict.get u pos) as [[x0 y0]|]; [|congruence].
  destruct (Dict.get v pos) as [[x1 y1]|]; [|congruence].
  reflexivity.
Qed.

(** The loop of [make_edge_trace] collects the accepted edges in order. *)
Lemma edge_loop pos f wt l : forall x y t,
  covers pos l ->
  for_each (edge_step pos f wt) l (x, y, t)
  = Ok (x ++ flat_map (coords pos fst) (filter (accepts f wt) l),
        y ++ flat_map (coords pos snd) (filter (accepts f wt) l),
        t ++ map hover (filter (accepts f wt) l)).
Proof.
  induction l as [|e r IH]; intros x y t C.
  - simpl. now rewrite !app_nil_r.
  - cbn [for_each filter].
    assert (Cr : covers pos r).
    { intros u v d I. apply (C u v d). now right. }
    destruct (accepts f wt e) eqn:A.
    + rewrite edge_step_take; [|exact A|].
      * cbn [bind]. rewrite IH by exact Cr.
        cbn [flat_map map]. now rewrite <- !app_assoc.
      * destruct e as [[u v] d]. apply (C u v d). now left.
    + rewrite edge_step_skip by exact A. cbn [bind]. now apply IH.
Qed.


Lemma make_edge_trace_explicit G pos f wt sfx :
  covers pos (nx.edges G) ->
  make_edge_trace G pos f wt sfx = Ok (edge_trace G pos f wt sfx).
Proof.
  intros C. unfold make_edge_trace, edge_trace.
  rewrite edge_loop by exact C. cbn [bind app].
  destruct (filter (accepts f wt) (nx.edges G)) as [|[[u v] d] r];
    reflexivity.
Qed.

(** Without an accepted edge the positions are not even looked at. *)
Lemma make_edge_trace_none G pos f wt sfx :
  (forall e, In e (nx.edges G) -> accepts f wt e = false) ->
  make_edge_trace G pos f wt sfx = Ok (placeholder sfx).
Proof.
  intros H. unfold make_edge_trace.
  assert (E : forall l acc, (forall e, In e l -> accepts f wt e = false) ->
              for_each (edge_step pos f wt) l acc = Ok acc).
  { induction l as [|e r IH]; intros acc Hl; [reflexivity|].
    cbn [for_each]. rewrite edge_step_skip by (apply Hl; now left).
    cbn [bind]. apply IH. intros e' I. apply Hl. now right. }
  now rewrite E.
Qed.

(** Every endpoint of a reported edge is a node. *)
Lemma edge_endpoints G u v d :
  well_formed G -> In (u, v, d) (nx.edges G) ->
  In u (nx.node_list G) /\ In v (nx.node_list G).
Proof.
  intros W I. apply EdgeFacts.In_edges_from in I.
  destruct I as [_ [nb [I1 I2]]].
  assert (Iu : In u (Dict.keys (nx.adj G))).
  { change (In (fst (u, nb)) (map fst (nx.adj G))). now apply in_map. }
  assert (ND : NoDup (Dict.keys (nx.adj G))).
  { rewrite <- (wf_keys G W). apply (wf_nodup G W). }
  split.
  - unfold nx.node_list. now rewrite (wf_keys G W).
  - apply (In_get _ _ _ ND) in I1. apply (wf_nbrs G W) in I1.
    destruct I1 as [_ Inc]. apply Inc.
    change (In (fst (v, d)) (map fst nb)). now apply in_map.
Qed.

Lemma positions_cover G pos :
  well_formed G -> dated G -> positions G = Ok pos ->
  (forall n, In n (nx.node_list G) -> Dict.get n pos <> None)
  /\ covers pos (nx.edges G).
Proof.
  intros W D P. rewrite (LayoutFacts.positions_explicit G W D) in P.
  injection P as <-.
  match goal with |- (forall n, _ -> Dict.get n ?p <> None) /\ _ =>
    assert (N : forall n, In n (nx.node_list G) -> Dict.get n p <> None)
  end.
  { intros n I H. apply get_None in H. apply H.
    unfold Dict.keys. rewrite map_map. simpl. now rewrite map_id. }
  split; [exact N|].
  intros u v d I. apply (edge_endpoints G u v d W) in I. destruct I. auto.
Qed.

End TraceFacts.

(** ** The visibility vectors *)

Module ViewFacts.


Lemma shape_length a b : List.length (shape a b) = (a + 2 + b + 1)%nat.
Proof.
  unfold shape. rewrite !length_app, !repeat_length. simpl. lia.
Qed.

Lemma nth_error_repeat_false n j : nth_error (repeat false n) j <> Some true.
Proof.
  revert j. induction n as [|n IH]; intros [|j]; simpl; try discriminate.
  apply IH.
Qed.

Lemma shape_true a b j :
  nth_error (shape a b) j = Some true
  <-> j = a \/ j = S a \/ j = (a + 2 + b)%nat.
Proof.
  unfold shape. destruct (Nat.lt_ge_cases j a) as [L|L].
  - rewrite nth_error_app1 by (rewrite repeat_length; lia).
    split; [intros H; now apply nth_error_repeat_false in H|lia].
  - rewrite nth_error_app2 by (rewrite repeat_length; lia).
    rewrite repeat_length.
    destruct (j - a)%nat as [|[|m]] eqn:E; simpl.
    + split; [intros _; left; lia|reflexivity].
    + split; [intros _; right; left; lia|reflexivity].
    + destruct (Nat.lt_ge_cases m b) as [L'|L'].
      * rewrite nth_error_app1 by (rewrite repeat_length; lia).
        split; [intros H; now apply nth_error_repeat_false in H|lia].
      * rewrite nth_error_app2 by (rewrite repeat_length; lia).
        rewrite repeat_length.
        destruct (m - b)%nat as [|q] eqn:E'; simpl.
        -- split; [intros _; right; right; lia|reflexivity].
        -- split; [destruct q; discriminate|lia].
Qed.

Lemma shape_count a b : count_occ bool_dec (shape a b) true = 3%nat.
Proof.
  unfold shape.
  assert (R : forall n, count_occ bool_dec (repeat false n) true = O).
  { induction n as [|n IH]; simpl; [reflexivity|exact IH]. }
  rewrite !count_occ_app, !R. reflexivity.
Qed.

Lemma set_nat_at {A} (l1 : list A) x l2 v :
  PyList.set_nat (List.length l1) v (l1 ++ x :: l2) = l1 ++ v :: l2.
Proof. induction l1 as [|a r IH]; simpl; [reflexivity|now rewrite IH]. Qed.

Lemma setitem_at {A} (l1 : list A) x l2 v i :
  i = Z.of_nat (List.length l1) ->
  PyList.setitem i v (l1 ++ x :: l2) = Ok (l1 ++ v :: l2).
Proof.
  intros ->. unfold PyList.setitem.
  rewrite length_app. cbn [List.length].
  assert (E1 : (Z.of_nat (List.length l1) <? 0)%Z = false)
    by (apply Z.ltb_ge; lia).
  rewrite E1.
  assert (E2 : ((0 <=? Z.of_nat (List.length l1))
                && (Z.of_nat (List.length l1)
                    <? Z.of_nat (List.length l1 + S (List.length l2))))%Z = true).
  { apply andb_true_intro. split; [apply Z.leb_le|apply Z.ltb_lt]; lia. }
  rewrite E2, Nat2Z.id. now rewrite set_nat_at.
Qed.

Lemma repeat_split {A} (x : A) a b :
  repeat x (a + b) = repeat x a ++ repeat x b.
Proof. apply repeat_app. Qed.

(** The vector of a selection that shows the two traces at [a], [a+1]. *)
Lemma vis_at a b :
  let n := Z.of_nat (a + 2 + b + 1) in
  forall v0, v0 = PyList.replicate false n ->
  (v1 <- PyList.setitem (Z.of_nat a) true v0 ;;
   v2 <- PyList.setitem (Z.of_nat a + 1) true v1 ;;
   PyList.setitem (n - 1) true v2)
  = Ok (shape a b).
Proof.
  intros n v0 ->. unfold PyList.replicate, n. rewrite Nat2Z.id.
  replace (a + 2 + b + 1)%nat with (a + (1 + (1 + (b + 1))))%nat by lia.
  rewrite !repeat_split. cbn [repeat app].
  rewrite (setitem_at (repeat false a) false _ true)
    by now rewrite repeat_length.
  cbn [bind].
  change (repeat false a ++ true :: false :: repeat false b ++ [false])
    with (repeat false a ++ [true] ++ false :: repeat false b ++ [false]).
  rewrite app_assoc.
  rewrite (setitem_at (repeat false a ++ [true]) false _ true)
    by (rewrite length_app, repeat_length; simpl; lia).
  cbn [bind].
  replace ((repeat false a ++ [true]) ++ true :: repeat false b ++ [false])
    with ((repeat false a ++ [true; true] ++ repeat false b) ++ [false])
    by (rewrite <- !app_assoc; reflexivity).
  rewrite (setitem_at _ false [] true).
  - unfold shape. now rewrite <- !app_assoc.
  - rewrite !length_app, !repeat_length. simpl. lia.
Qed.

Lemma vis_all_shape m :
  let n := Z.of_nat (3 + m) in
  vis_all n (n - 1) = Ok (shape 0 m).
Proof.
  intros n. unfold vis_all.
  pose proof (vis_at 0 m (PyList.replicate false n)) as H.
  replace (Z.of_nat (0 + 2 + m + 1)) with n in H by (unfold n; lia).
  apply H. reflexivity.
Qed.

Lemma index_idx th l :
  In th l -> PyList.index th l = Ok (Z.of_nat (idx th l)).
Proof.
  induction l as [|a r IH]; simpl; [contradiction|].
  destruct (String.eqb_spec a th) as [->|N]; [reflexivity|].
  intros [E|I]; [contradiction|]. rewrite (IH I). cbn [bind].
  f_equal. lia.
Qed.

Lemma idx_lt th l : In th l -> (idx th l < List.length l)%nat.
Proof.
  induction l as [|a r IH]; simpl; [contradiction|].
  destruct (String.eqb_spec a th) as [->|N]; [lia|].
  intros [E|I]; [contradiction|]. specialize (IH I). lia.
Qed.

Lemma idx_nth th l i :
  NoDup l -> nth_error l i = Some th -> idx th l = i.
Proof.
  revert i. induction l as [|a r IH]; intros [|i] ND H; simpl in *;
    try discriminate.
  - inversion H; subst. now rewrite String.eqb_refl.
  - inversion ND as [|? ? Nin ND']; subst.
    destruct (String.eqb_spec a th) as [->|N].
    + exfalso. apply Nin. eapply nth_error_In, H.
    + f_equal. now apply IH.
Qed.

(** The vector of the theme at place [idx] among [k] themes. *)
Lemma vis_for_theme_shape (tts : ThemeTraces) th :
  let names := map (fun '(t, _, _) => t) tts in
  let k := List.length names in
  let n := Z.of_nat (2 + 2 * k + 1) in
  In th names ->
  vis_for_theme tts n (n - 1) th
  = Ok (shape (2 + 2 * idx th names)
              (2 * (k - 1 - idx th names))).
Proof.
  intros names k n I. unfold vis_for_theme. fold names.
  rewrite (index_idx th names I). cbn [bind].
  pose proof (idx_lt th names I) as L. fold k in L.
  set (i := idx th names) in *.
  pose proof (vis_at (2 + 2 * i) (2 * (k - 1 - i))
                (PyList.replicate false n)) as H.
  replace (Z.of_nat (2 + 2 * i + 2 + 2 * (k - 1 - i) + 1)) with n in H
    by (unfold n; lia).
  replace (Z.of_nat (2 + 2 * i)) with (2 + Z.of_nat i * 2)%Z in H by lia.
  apply H. reflexivity.
Qed.

End ViewFacts.

(** ** The sorted themes *)

Module ThemeFacts.

Lemma leb_trans a : forall b c,
  String.leb a b = true -> String.leb b c = true -> String.leb a c = true.
Proof.
  unfold String.leb.
  induction a as [|x a IH]; intros [|y b] [|z c]; simpl; try congruence.
  unfold Ascii.compare.
  destruct (N.compare_spec (N_of_ascii x) (N_of_ascii y)) as [E1|L1|G1];
    destruct (N.compare_spec (N_of_ascii y) (N_of_ascii z)) as [E2|L2|G2];
    destruct (N.compare_spec (N_of_ascii x) (N_of_ascii z)) as [E3|L3|G3];
    try congruence; try lia.
  apply IH.
Qed.

Lemma all_themes_perm edges :
  Permutation (all_themes edges) (nodup string_dec (flat_map themes edges)).
Proof. apply SortFacts.sorted_perm. Qed.

Lemma all_themes_length edges :
  List.length (all_themes edges) = distinct_themes edges.
Proof. apply Permutation_length, all_themes_perm. Qed.

Lemma all_themes_nodup edges : NoDup (all_themes edges).
Proof.
  apply (Permutation_NoDup (Permutation_sym (all_themes_perm edges))).
  apply NoDup_nodup.
Qed.

Lemma all_themes_In edges th :
  In th (all_themes edges) <-> exists e, In e edges /\ In th (themes e).
Proof.
  split.
  - intros I. apply (Permutation_in _ (all_themes_perm edges)) in I.
    apply nodup_In, in_flat_map in I. exact I.
  - intros H.
    apply (Permutation_in _ (Permutation_sym (all_themes_perm edges))).
    apply nodup_In, in_flat_map. exact H.
Qed.

(** Ascending without repetition: each theme is strictly below the ones
    after it. *)
Lemma all_themes_ascending edges :
  StronglySorted (fun a b => String.ltb a b = true) (all_themes edges).
Proof.
  pose proof (all_themes_nodup edges) as ND.
  pose proof (SortFacts.sorted_sorted String.leb (fun t => t)
                String.leb_total (fun a b c => leb_trans a b c)
                (PyList.to_set (flat_map themes edges))) as S.
  fold (all_themes edges) in S.
  induction S as [|a r S IH F]; [constructor|].
  inversion ND as [|? ? Nin ND']; subst.
  constructor; [now apply IH|].
  apply Forall_forall. intros b I. rewrite Forall_forall in F.
  specialize (F b I). unfold sorted_le, String.leb in F.
  unfold String.ltb.
  destruct (String.compare a b) eqn:C; [|reflexivity|discriminate].
  apply String.compare_eq_iff in C. subst. contradiction.
Qed.

(** Whatever order the set of themes is iterated in, sorting it gives
    [all_themes]. *)
Lemma all_themes_any_order edges l :
  Permutation l (PyList.to_set (flat_map themes edges)) ->
  PyList.sorted String.leb (fun t => t) l = all_themes edges.
Proof.
  intros P. unfold all_themes.
  apply (SortFacts.sorted_any_order String.leb (fun t => t)
           String.leb_total (fun a b c => leb_trans a b c)
           String.leb_antisym); exact P.
Qed.

End ThemeFacts.

(** ** The figure *)

Module FigureFacts.
Import DictFacts GraphFacts TraceFacts ViewFacts.

Lemma cent_keys G :
  well_formed G -> Dict.keys (nx.degree_centrality G) = nx.node_list G.
Proof.
  intros W. unfold nx.degree_centrality, Dict.keys, nx.node_list.
  destruct (Z.of_nat (List.length (nx.nodes G)) <=? 1)%Z.
  - rewrite map_map. simpl. apply map_id.
  - rewrite map_map. rewrite (wf_keys G W). unfold Dict.keys.
    apply map_ext. now intros [n nbrs].
Qed.

Lemma node_trace_total G pos :
  well_formed G -> dated G ->
  (forall n, In n (nx.node_list G) -> Dict.get n pos <> None) ->
  exists nt, node_trace G pos = Ok nt.
Proof.
  intros W D C. unfold node_trace.
  rewrite (LoopFacts.map_r_ok _ (fun n => Some (fst (at_node pos n)))).
  2:{ intros n I. unfold Dict.item, at_node.
      destruct (Dict.get n pos) eqn:E; [reflexivity|now apply C in I]. }
  cbn [bind].
  rewrite (LoopFacts.map_r_ok _ (fun n => Some (snd (at_node pos n)))).
  2:{ intros n I. unfold Dict.item, at_node.
      destruct (Dict.get n pos) eqn:E; [reflexivity|now apply C in I]. }
  cbn [bind].
  rewrite (LoopFacts.map_r_ok _
             (fun n => (n ++ "<br>Year≈"
                          ++ PyStr.str_of_int (yr G n))%string)).
  2:{ intros n I. now rewrite (LayoutFacts.year_yr G n D I). }
  cbn [bind].
  rewrite (LoopFacts.map_r_ok _
             (fun n => (18 + 40 * match Dict.get n (nx.degree_centrality G) with
                                  | Some c => c
                                  | None => 0
                                  end)%Q)).
  2:{ intros n I. unfold Dict.item.
      destruct (Dict.get n (nx.degree_centrality G)) eqn:E; [reflexivity|].
      apply get_None in E. now rewrite (cent_keys G W) in E. }
  cbn [bind]. eexists. reflexivity.
Qed.

Section Explicit.
Variables (G : nx.Graph) (pos : Pos).


Lemma theme_loop ths : forall tt tr,
  covers pos (nx.edges G) ->
  for_each (theme_step G pos) ths (tt, tr)
  = Ok (tt ++ theme_traces_of G pos ths,
        tr ++ flat_map (fun th => [theme_trace_w2 G pos th;
                                   theme_trace_w3 G pos th]) ths).
Proof.
  induction ths as [|th r IH]; intros tt tr C.
  - simpl. now rewrite !app_nil_r.
  - cbn [for_each theme_step].
    rewrite !make_edge_trace_explicit by exact C. cbn [bind].
    rewrite IH by exact C. simpl. now rewrite <- !app_assoc.
Qed.

Lemma traces_of_length ths nt :
  List.length (traces_of G pos ths nt) = (2 + 2 * List.length ths + 1)%nat.
Proof.
  unfold traces_of. cbn [app List.length]. rewrite length_app.
  assert (E : List.length
                (flat_map (fun th => [theme_trace_w2 G pos th;
                                      theme_trace_w3 G pos th]) ths)
              = (2 * List.length ths)%nat).
  { induction ths as [|a r IH]; simpl; [reflexivity|]. rewrite IH. lia. }
  rewrite E. simpl. lia.
Qed.

Lemma traces_of_theme ths nt i th :
  nth_error ths i = Some th ->
  nth_error (traces_of G pos ths nt) (2 + 2 * i) = Some (theme_trace_w2 G pos th)
  /\ nth_error (traces_of G pos ths nt) (2 + 2 * i + 1)
     = Some (theme_trace_w3 G pos th).
Proof.
  unfold traces_of. cbn [app]. intros H.
  replace (2 + 2 * i + 1)%nat with (S (S (2 * i + 1))) by lia.
  cbn [Nat.add nth_error]. change (i + (i + 0))%nat with (2 * i)%nat.
  revert i H. induction ths as [|a r IH]; intros [|i] H; try discriminate.
  - inversion H; subst. split; reflexivity.
  - simpl in H. destruct (IH i H) as [H2 H3].
    replace (2 * S i)%nat with (S (S (2 * i))) by lia.
    replace (2 * S i + 1)%nat with (S (S (2 * i + 1))) by lia.
    split; assumption.
Qed.

Lemma traces_of_last ths nt :
  nth_error (traces_of G pos ths nt)
            (List.length (traces_of G pos ths nt) - 1) = Some nt.
Proof.
  assert (E : forall (l : list go.Scatter) x,
            nth_error (l ++ [x]) (List.length (l ++ [x]) - 1) = Some x).
  { intros l x. rewrite length_app. cbn [List.length].
    rewrite nth_error_app2 by lia.
    replace (List.length l + 1 - 1 - List.length l)%nat with O by lia.
    reflexivity. }
  unfold traces_of. rewrite app_assoc. apply E.
Qed.

End Explicit.


Lemma fold_buttons {X Y} (f : string -> go.Button) (a : string -> X)
    (b : string -> Y) l : forall bs,
  fold_left (fun bs '(th, _, _) => bs ++ [f th])
            (map (fun th => (th, a th, b th)) l) bs
  = bs ++ map f l.
Proof.
  induction l as [|x r IH]; intros bs; simpl; [now rewrite app_nil_r|].
  rewrite IH. now rewrite <- app_assoc.
Qed.

Lemma build_buttons_explicit G pos ths traces :
  List.length traces = (2 + 2 * List.length ths + 1)%nat ->
  build_buttons (theme_traces_of G pos ths) traces = Ok (buttons_of ths).
Proof.
  intros L. unfold build_buttons. rewrite L.
  assert (N : map (fun '(t, _, _) => t) (theme_traces_of G pos ths) = ths).
  { unfold theme_traces_of. rewrite map_map. simpl. apply map_id. }
  replace (2 + 2 * List.length ths + 1)%nat
    with (3 + 2 * List.length ths)%nat at 1 2 by lia.
  rewrite (vis_all_shape (2 * List.length ths)). cbn [bind].
  rewrite (LoopFacts.for_each_ok _
             (fun bs '(th, _, _) => bs ++ [theme_button ths th])).
  - f_equal. unfold theme_traces_of. now rewrite fold_buttons.
  - intros bs [[th a] b] I.
    assert (Ith : In th ths).
    { unfold theme_traces_of in I. apply in_map_iff in I.
      destruct I as [x [E Ix]]. now inversion E; subst. }
    pose proof (vis_for_theme_shape (theme_traces_of G pos ths) th) as V.
    cbv zeta in V. rewrite N in V.
    replace (3 + 2 * List.length ths)%nat
      with (2 + 2 * List.length ths + 1)%nat by lia.
    rewrite (V Ith). reflexivity.
Qed.

(** The figure [main] builds from a list of edge records. *)
Lemma figure_explicit edges :
  let G := build_graph edges in
  exists pos nt,
    positions G = Ok pos
    /\ covers pos (nx.edges G)
    /\ node_trace G pos = Ok nt
    /\ build_traces edges
       = Ok (theme_traces_of G pos (all_themes edges),
             traces_of G pos (all_themes edges) nt)
    /\ build_figure edges
       = Ok (go.mkFigure (traces_of G pos (all_themes edges) nt)
               "Interactive Timeline–Network with Theme Filters (Book-Level)"
               "Approximate Year" (buttons_of (all_themes edges))).
Proof.
  intros G.
  assert (W : well_formed G) by apply BuildFacts.wf_build_graph.
  assert (D : dated G) by apply BuildFacts.dated_build_graph.
  destruct (positions G) as [pos|e] eqn:P.
  2:{ rewrite (LayoutFacts.positions_explicit G W D) in P. discriminate. }
  destruct (positions_cover G pos W D P) as [C1 C2].
  destruct (node_trace_total G pos W D C1) as [nt NT].
  exists pos, nt. split; [reflexivity|]. split; [exact C2|].
  split; [exact NT|].
  assert (B : build_traces edges
              = Ok (theme_traces_of G pos (all_themes edges),
                    traces_of G pos (all_themes edges) nt)).
  { unfold build_traces. fold G. rewrite P. cbn [bind].
    rewrite !make_edge_trace_explicit by exact C2. cbn [bind app].
    rewrite theme_loop by exact C2. cbn [bind app]. rewrite NT. cbn [bind].
    reflexivity. }
  split; [exact B|].
  unfold build_figure. rewrite B. cbn [bind].
  rewrite build_buttons_explicit by apply traces_of_length.
  reflexivity.
Qed.

(** With a valid input the script writes the figure and ends normally. *)
Lemma run_valid wd edges :
  valid_input wd edges ->
  exists fig,
    build_figure edges = Ok fig
    /\ status (run wd) = Exit 0
    /\ written (run wd) = Some fig.
Proof.
  intros [rows [Hc [Hl Hn]]].
  destruct (figure_explicit edges) as [pos [nt [_ [_ [_ [_ F]]]]]].
  eexists. split; [exact F|].
  unfold run, main.
  assert (Hc' : edges_csv (module_load wd) = Some rows).
  { unfold module_load. destruct (assets wd); [exact Hc|exact Hc]. }
  rewrite Hc', Hl. destruct edges as [|e r]; [congruence|].
  rewrite F. split; reflexivity.
Qed.

End FigureFacts.

(** ** The trace list *)

Lemma scenario_valid : valid_input scenario_world scenario_edges.
Proof.
  exists scenario_rows. split; [reflexivity|]. split; [|discriminate].
  vm_compute. reflexivity.
Qed.

(** What the script leaves with a valid input, piece by piece. *)
Lemma run_figure wd edges :
  valid_input wd edges ->
  let G := build_graph edges in
  exists pos nt,
    positions G = Ok pos
    /\ covers pos (nx.edges G)
    /\ node_trace G pos = Ok nt
    /\ status (run wd) = Exit 0
    /\ written (run wd)
       = Some (go.mkFigure
                 (traces_of G pos (all_themes edges) nt)
                 "Interactive Timeline–Network with Theme Filters (Book-Level)"
                 "Approximate Year"
                 (buttons_of (all_themes edges))).
Proof.
  intros V G.
  destruct (FigureFacts.run_valid wd edges V) as [fig [F [St Wr]]].
  destruct (FigureFacts.figure_explicit edges)
    as [pos [nt [P [C [NT [_ F']]]]]].
  fold G in P, C, NT, F'. rewrite F' in F. injection F as <-.
  exists pos, nt. auto.
Qed.

(** C1. For every valid, non-empty input the trace list of the figure has
    [2 + 2 * (number of distinct themes) + 1] entries: the aggregate
    traces of weight 2 and of weight 3, then for each distinct theme, in
    the order of the sorted themes, its trace of weight 2 and its trace of
    weight 3, and the node trace last. *)
Theorem trace_list_layout (wd : World) (edges : list EdgeRec) :
  valid_input wd edges ->
  let G := build_graph edges in
  exists fig pos,
    written (run wd) = Some fig
    /\ positions G = Ok pos
    /\ List.length (go.traces fig) = (2 + 2 * distinct_themes edges + 1)%nat
    /\ trace_at (go.traces fig) 0
         (make_edge_trace G pos all_filter (Some 2%Z) "_all_w2")
    /\ trace_at (go.traces fig) 1
         (make_edge_trace G pos all_filter (Some 3%Z) "_all_w3")
    /\ NoDup (all_themes edges)
    /\ (forall th, In th (all_themes edges)
                   <-> exists e, In e edges /\ In th (themes e))
    /\ (forall i th, nth_error (all_themes edges) i = Some th ->
          trace_at (go.traces fig) (2 + 2 * i)
            (make_edge_trace G pos (theme_filter th) (Some 2%Z)
                             ("_" ++ th ++ "_w2")%string)
          /\ trace_at (go.traces fig) (2 + 2 * i + 1)
               (make_edge_trace G pos (theme_filter th) (Some 3%Z)
                                ("_" ++ th ++ "_w3")%string))
    /\ trace_at (go.traces fig) (List.length (go.traces fig) - 1)
         (node_trace G pos).
Proof.
  intros V G.
  destruct (run_figure wd edges V) as [pos [nt [P [C [NT [_ Wr]]]]]].
  fold G in P, C, NT, Wr.
  eexists. exists pos. split; [exact Wr|]. cbn [go.traces].
  split; [exact P|]. split.
  { rewrite FigureFacts.traces_of_length.
    now rewrite ThemeFacts.all_themes_length. }
  split.
  { eexists. split; [reflexivity|].
    now apply TraceFacts.make_edge_trace_explicit. }
  split.
  { eexists. split; [reflexivity|].
    now apply TraceFacts.make_edge_trace_explicit. }
  split; [apply ThemeFacts.all_themes_nodup|].
  split; [apply ThemeFacts.all_themes_In|].
  split.
  - intros i th H.
    destruct (FigureFacts.traces_of_theme G pos _ nt i th H) as [H2 H3].
    split; eexists; (split; [eassumption|]);
      now apply TraceFacts.make_edge_trace_explicit.
  - eexists. split; [apply FigureFacts.traces_of_last|exact NT].
Qed.

Lemma trace_list_layout_witness :
  exists fig,
    written (run scenario_world) = Some fig
    /\ List.length (go.traces fig) = 7%nat.
Proof.
  destruct (trace_list_layout scenario_world scenario_edges scenario_valid)
    as [fig [pos [Wr [_ [L _]]]]].
  exists fig. split; [exact Wr|]. rewrite L. reflexivity.
Defined.

(** ** Filters without a match *)

Lemma edge_trace_none G pos f wt sfx :
  covers pos (nx.edges G) ->
  (forall e, In e (nx.edges G) -> accepts f wt e = false) ->
  edge_trace G pos f wt sfx = placeholder sfx.
Proof.
  intros C H.
  pose proof (TraceFacts.make_edge_trace_explicit G pos f wt sfx C) as E.
  rewrite (TraceFacts.make_edge_trace_none G pos f wt sfx H) in E.
  now injection E.
Qed.

(** C3. When a combination of theme predicate and weight matches no edge,
    the trace generator still returns a trace: the placeholder of one
    null point, marked not visible; and the trace list of the figure
    holds it at the place of that combination. *)
Theorem empty_match_placeholder (wd : World) (edges : list EdgeRec) :
  valid_input wd edges ->
  let G := build_graph edges in
  let no_match f wt :=
    forall e, In e (nx.edges G) -> accepts f (Some wt) e = false in
  (forall pos f wt sfx,
      (forall e, In e (nx.edges G) -> accepts f wt e = false) ->
      make_edge_trace G pos f wt sfx = Ok (placeholder sfx))
  /\ (forall sfx, go.x (placeholder sfx) = [None]
                  /\ go.y (placeholder sfx) = [None]
                  /\ go.visible (placeholder sfx) = false)
  /\ exists fig,
       written (run wd) = Some fig
       /\ (no_match all_filter 2%Z ->
           nth_error (go.traces fig) 0 = Some (placeholder "_all_w2"))
       /\ (no_match all_filter 3%Z ->
           nth_error (go.traces fig) 1 = Some (placeholder "_all_w3"))
       /\ forall i th, nth_error (all_themes edges) i = Some th ->
            (no_match (theme_filter th) 2%Z ->
             nth_error (go.traces fig) (2 + 2 * i)
             = Some (placeholder ("_" ++ th ++ "_w2")%string))
            /\ (no_match (theme_filter th) 3%Z ->
                nth_error (go.traces fig) (2 + 2 * i + 1)
                = Some (placeholder ("_" ++ th ++ "_w3")%string)).
Proof.
  intros V G no_match.
  split; [intros pos f wt sfx; apply TraceFacts.make_edge_trace_none|].
  split; [intros sfx; repeat split|].
  destruct (run_figure wd edges V) as [pos [nt [P [C [NT [_ Wr]]]]]].
  fold G in P, C, NT, Wr.
  eexists. split; [exact Wr|]. cbn [go.traces].
  split; [|split].
  - intros H. unfold traces_of. cbn [app nth_error].
    now rewrite edge_trace_none.
  - intros H. unfold traces_of. cbn [app nth_error].
    now rewrite edge_trace_none.
  - intros i th Hth.
    destruct (FigureFacts.traces_of_theme G pos _ nt i th Hth) as [H2 H3].
    split; intros H.
    + rewrite H2. unfold theme_trace_w2. now rewrite edge_trace_none.
    + rewrite H3. unfold theme_trace_w3. now rewrite edge_trace_none.
Qed.

Lemma empty_match_placeholder_witness :
  exists fig,
    written (run scenario_world) = Some fig
    /\ nth_error (go.traces fig) 2 = Some (placeholder "_abolition_w2").
Proof.
  destruct (empty_match_placeholder scenario_world scenario_edges
              scenario_valid) as [_ [_ [fig [Wr [_ [_ H]]]]]].
  exists fig. split; [exact Wr|].
  destruct (H 0%nat "abolition" eq_refl) as [H2 _].
  apply H2. intros e I. vm_compute in I.
  destruct I as [<-|[<-|[]]]; reflexivity.
Defined.

(** ** The dropdown *)

(** C4. For every valid input, also one without any theme, the vector of
    the selection "All themes" is as long as the trace list and has
    exactly three true entries: at 0, at 1 and at the place of the node
    trace, the last one. *)
Theorem all_themes_visibility (wd : World) (edges : list EdgeRec) :
  valid_input wd edges ->
  exists fig b,
    written (run wd) = Some fig
    /\ nth_error (go.updatemenus fig) 0 = Some b
    /\ go.label b = "All themes"
    /\ (let n := Z.of_nat (List.length (go.traces fig)) in
        vis_all n (n - 1) = Ok (go.args_visible b))
    /\ List.length (go.args_visible b) = List.length (go.traces fig)
    /\ count_occ bool_dec (go.args_visible b) true = 3%nat
    /\ forall j, nth_error (go.args_visible b) j = Some true
                 <-> j = 0%nat \/ j = 1%nat
                     \/ j = (List.length (go.traces fig) - 1)%nat.
Proof.
  intros V.
  destruct (run_figure wd edges V) as [pos [nt [_ [_ [_ [_ Wr]]]]]].
  eexists. eexists. split; [exact Wr|]. cbn [go.traces go.updatemenus].
  unfold buttons_of.
  split; [reflexivity|]. cbn [go.label go.args_visible].
  split; [reflexivity|].
  rewrite FigureFacts.traces_of_length.
  set (k := List.length (all_themes edges)).
  split.
  { cbv zeta. replace (2 + 2 * k + 1)%nat with (3 + 2 * k)%nat by lia.
    apply ViewFacts.vis_all_shape. }
  split; [rewrite ViewFacts.shape_length; lia|].
  split; [apply ViewFacts.shape_count|].
  intros j. rewrite ViewFacts.shape_true. lia.
Qed.

Lemma all_themes_visibility_witness :
  exists fig b,
    written (run scenario_world) = Some fig
    /\ nth_error (go.updatemenus fig) 0 = Some b
    /\ count_occ bool_dec (go.args_visible b) true = 3%nat.
Proof.
  destruct (all_themes_visibility scenario_world scenario_edges
              scenario_valid) as [fig [b [Wr [Hb [_ [_ [_ [Hc _]]]]]]]].
  exists fig, b. auto.
Defined.

(** C5. The themes are sorted ascending without repetition; the entry of
    the theme at place [i] shows exactly the traces at [2 + 2 i] and
    [2 + 2 i + 1], which are that theme's traces of weight 2 and 3, and
    the last one, the node trace; its vector is as long as the trace
    list. *)
Theorem theme_visibility (wd : World) (edges : list EdgeRec) :
  valid_input wd edges ->
  let G := build_graph edges in
  exists fig pos,
    written (run wd) = Some fig
    /\ positions G = Ok pos
    /\ StronglySorted (fun a b => String.ltb a b = true) (all_themes edges)
    /\ (forall th, In th (all_themes edges)
                   <-> exists e, In e edges /\ In th (themes e))
    /\ List.length (go.updatemenus fig) = S (List.length (all_themes edges))
    /\ forall i th, nth_error (all_themes edges) i = Some th ->
         exists b,
           nth_error (go.updatemenus fig) (S i) = Some b
           /\ go.label b = th
           /\ List.length (go.args_visible b) = List.length (go.traces fig)
           /\ (forall j, nth_error (go.args_visible b) j = Some true
                         <-> j = (2 + 2 * i)%nat \/ j = (2 + 2 * i + 1)%nat
                             \/ j = (List.length (go.traces fig) - 1)%nat)
           /\ trace_at (go.traces fig) (2 + 2 * i)
                (make_edge_trace G pos (theme_filter th) (Some 2%Z)
                                 ("_" ++ th ++ "_w2")%string)
           /\ trace_at (go.traces fig) (2 + 2 * i + 1)
                (make_edge_trace G pos (theme_filter th) (Some 3%Z)
                                 ("_" ++ th ++ "_w3")%string)
           /\ trace_at (go.traces fig) (List.length (go.traces fig) - 1)
                (node_trace G pos).
Proof.
  intros V G.
  destruct (run_figure wd edges V) as [pos [nt [P [C [NT [_ Wr]]]]]].
  fold G in P, C, NT, Wr.
  eexists. exists pos. split; [exact Wr|].
  cbn [go.traces go.updatemenus].
  split; [exact P|].
  split; [apply ThemeFacts.all_themes_ascending|].
  split; [apply ThemeFacts.all_themes_In|].
  split; [unfold buttons_of; simpl; now rewrite length_map|].
  intros i th H.
  exists (theme_button (all_themes edges) th).
  pose proof (ViewFacts.idx_nth th _ i
                (ThemeFacts.all_themes_nodup edges) H) as Ei.
  assert (Li : (i < List.length (all_themes edges))%nat).
  { apply nth_error_Some. congruence. }
  destruct (FigureFacts.traces_of_theme G pos _ nt i th H) as [H2 H3].
  split.
  { unfold buttons_of. cbn [nth_error].
    now apply map_nth_error. }
  unfold theme_button. cbn [go.label go.args_visible].
  rewrite Ei, FigureFacts.traces_of_length.
  split; [reflexivity|].
  split; [rewrite ViewFacts.shape_length; lia|].
  split; [intros j; rewrite ViewFacts.shape_true; lia|].
  split.
  { eexists. split; [exact H2|].
    now apply TraceFacts.make_edge_trace_explicit. }
  split.
  { eexists. split; [exact H3|].
    now apply TraceFacts.make_edge_trace_explicit. }
  eexists. split; [|exact NT].
  rewrite <- (FigureFacts.traces_of_length G pos (all_themes edges) nt).
  apply FigureFacts.traces_of_last.
Qed.

Lemma theme_visibility_witness :
  exists fig b,
    written (run scenario_world) = Some fig
    /\ nth_error (go.updatemenus fig) 2 = Some b
    /\ go.label b = "freedom"
    /\ (forall j, nth_error (go.args_visible b) j = Some true
                  <-> j = 4%nat \/ j = 5%nat
                      \/ j = (List.length (go.traces fig) - 1)%nat).
Proof.
  destruct (theme_visibility scenario_world scenario_edges scenario_valid)
    as [fig [pos [Wr [_ [_ [_ [_ H]]]]]]].
  destruct (H 1%nat "freedom" eq_refl) as [b [Hb [Hl [_ [Hv _]]]]].
  exists fig, b. auto.
Defined.

(** ** The error paths *)

Lemma module_load_csv wd : edges_csv (module_load wd) = edges_csv wd.
Proof. unfold module_load. now destruct (assets wd). Qed.

Lemma module_load_root wd : REPO_ROOT (module_load wd) = REPO_ROOT wd.
Proof. unfold module_load. now destruct (assets wd). Qed.

Lemma module_load_html wd : html_of (module_load wd) = html_of wd.
Proof.
  unfold module_load, html_of.
  destruct (assets wd) eqn:E; simpl; rewrite ?E; reflexivity.
Qed.

(** No edge record is parsed exactly when the file has no row. *)
Lemma load_edges_nil rows : load_edges rows = Ok [] <-> rows = [].
Proof.
  split; [|now intros ->].
  destruct rows as [|r rs]; [reflexivity|]. unfold load_edges. simpl.
  destruct (load_row r) as [e|x]; simpl; [|discriminate].
  intros H. exfalso.
  assert (G : forall rows acc l,
            for_each (fun edges row => e <- load_row row ;; Ok (edges ++ [e]))
                     rows acc = Ok l -> (List.length acc <= List.length l)%nat).
  { induction rows as [|r' rs' IH]; intros acc l; simpl.
    - intros [= ->]. lia.
    - destruct (load_row r') as [e'|x']; simpl; [|discriminate].
      intros H'. apply IH in H'. rewrite length_app in H'. simpl in H'. lia. }
  apply G in H. simpl in H. lia.
Qed.

Lemma substring_suffix (a b : string) : PyStr.Substring b (a ++ b)%string.
Proof.
  exists a, EmptyString.
  assert (E : forall s : string, (s ++ "")%string = s).
  { induction s as [|c s IH]; simpl; [reflexivity|now rewrite IH]. }
  now rewrite E.
Qed.

(** C6. When [edges.csv] is missing, or is there without any edge record
    parsed from it, the process ends with status 1 and one diagnostic
    line on stderr, which holds the path tried when the file is missing;
    the document [assets/interactive.html] is neither created nor
    changed. *)
Theorem missing_or_empty_input (wd : World) :
  edges_csv wd = None
  \/ (exists rows, edges_csv wd = Some rows /\ load_edges rows = Ok []) ->
  status (run wd) = Exit 1
  /\ exit_status (status (run wd)) = 1%Z
  /\ stdout (run wd) = []
  /\ (exists msg,
        stderr (run wd) = [msg]
        /\ (edges_csv wd = None ->
            PyStr.Substring (path_join (REPO_ROOT wd) "edges.csv") msg))
  /\ html_of (world (run wd)) = html_of wd.
Proof.
  intros [H|[rows [H1 H2]]]; unfold run, main;
    rewrite module_load_csv, module_load_root.
  - rewrite H. cbn [status stdout stderr world exit_status].
    repeat split; [|apply module_load_html].
    eexists. split; [reflexivity|]. intros _. apply substring_suffix.
  - rewrite H1, H2. cbn [status stdout stderr world exit_status].
    repeat split; [|apply module_load_html].
    eexists. split; [reflexivity|]. congruence.
Qed.

Lemma missing_or_empty_input_witness :
  status (run (mkWorld "/srv/repo" None None)) = Exit 1
  /\ stderr (run (mkWorld "/srv/repo" None None))
     = ["CSV not found at /srv/repo/edges.csv"]
  /\ html_of (world (run (mkWorld "/srv/repo" None None))) = None.
Proof.
  destruct (missing_or_empty_input (mkWorld "/srv/repo" None None)
              (or_introl eq_refl)) as [S [_ [_ [_ H]]]].
  split; [exact S|]. split; [reflexivity|exact H].
Defined.

(** C10. The directory [assets/] is made, when it is not there, by the
    module body, which runs before [main] looks at the input: also when
    [edges.csv] is missing, and the process ends with status 1 without
    writing the document, the directory is there afterwards. *)
Theorem assets_created_before_validation (wd : World) :
  edges_csv wd = None ->
  run wd = main (module_load wd)
  /\ assets (module_load wd) <> None
  /\ status (run wd) = Exit 1
  /\ html_of (world (run wd)) = html_of wd
  /\ assets (world (run wd)) <> None
  /\ (assets wd = None -> assets (world (run wd)) = Some (mkAssets None))
  /\ (forall dir, assets wd = Some dir ->
                  assets (world (run wd)) = Some dir).
Proof.
  intros H. split; [reflexivity|].
  assert (E : world (run wd) = module_load wd).
  { unfold run, main. now rewrite module_load_csv, H. }
  assert (S : status (run wd) = Exit 1).
  { unfold run, main. now rewrite module_load_csv, H. }
  assert (M : assets (module_load wd)
              = match assets wd with
                | Some dir => Some dir
                | None => Some (mkAssets None)
                end).
  { unfold module_load. destruct (assets wd) eqn:A; simpl; rewrite ?A;
      reflexivity. }
  rewrite E, M, module_load_html.
  split; [now destruct (assets wd)|]. split; [exact S|].
  split; [reflexivity|]. split; [now destruct (assets wd)|].
  split; [now intros ->|now intros dir ->].
Qed.

Lemma assets_created_before_validation_witness :
  status (run (mkWorld "/srv/repo" None None)) = Exit 1
  /\ assets (world (run (mkWorld "/srv/repo" None None)))
     = Some (mkAssets None).
Proof.
  destruct (assets_created_before_validation (mkWorld "/srv/repo" None None)
              eq_refl) as [_ [_ [S [_ [_ [H _]]]]]].
  split; [exact S|exact (H eq_refl)].
Defined.

(** ** The hover text *)

Module HoverFacts.
Import PyStr.

Lemma append_assoc (a b c : string) :
  ((a ++ b) ++ c = a ++ (b ++ c))%string.
Proof. induction a as [|x a IH]; simpl; [reflexivity|now rewrite IH]. Qed.

Lemma append_empty (a : string) : (a ++ "")%string = a.
Proof. induction a as [|x a IH]; simpl; [reflexivity|now rewrite IH]. Qed.

Lemma substring_refl s : Substring s s.
Proof. exists EmptyString, EmptyString. simpl. now rewrite append_empty. Qed.

Lemma substring_left a s t : Substring s t -> Substring s (a ++ t)%string.
Proof.
  intros [pre [post E]]. exists (a ++ pre)%string, post.
  now rewrite E, append_assoc.
Qed.

Lemma substring_right a s t : Substring s t -> Substring s (t ++ a)%string.
Proof.
  intros [pre [post E]]. exists pre, (post ++ a)%string.
  now rewrite E, !append_assoc.
Qed.

(** A joined list holds each of its elements. *)
Lemma join_substring sep l x : In x l -> Substring x (join sep l).
Proof.
  induction l as [|a r IH]; [contradiction|].
  intros [<-|I].
  - destruct r as [|b r]; [apply substring_refl|].
    cbn [join]. apply substring_right, substring_refl.
  - destruct r as [|b r]; [contradiction|].
    change (join sep (a :: b :: r))
      with (a ++ sep ++ join sep (b :: r))%string.
    apply substring_left, substring_left, IH, I.
Qed.

Lemma prefix_append n post : String.prefix n (n ++ post) = true.
Proof.
  induction n as [|c n IH]; simpl; [now destruct post|].
  destruct (ascii_dec c c); [exact IH|contradiction].
Qed.

(** [contains] decides [Substring]. *)
Lemma substring_contains needle hay :
  Substring needle hay -> contains needle hay = true.
Proof.
  assert (U : forall n h, String.prefix n h = true -> contains n h = true).
  { intros n h P. destruct h; cbn [contains]; now rewrite P. }
  intros [pre [post ->]]. induction pre as [|c pre IH].
  - change ("" ++ needle ++ post)%string with (needle ++ post)%string.
    apply U, prefix_append.
  - cbn [append contains]. rewrite IH. apply orb_true_r.
Qed.

End HoverFacts.

(** The text of a trace holds, for every edge its filters accept, the
    hover block of that edge, written from the two endpoints in the order
    the graph reports them. *)
Lemma hover_block_present G pos f wt sfx u v d :
  covers pos (nx.edges G) ->
  In (u, v, d) (nx.edges G) -> accepts f wt (u, v, d) = true ->
  exists t s,
    make_edge_trace G pos f wt sfx = Ok t
    /\ go.text t = go.Text s
    /\ PyStr.Substring (hover_text u v d) s.
Proof.
  intros C I A.
  rewrite (TraceFacts.make_edge_trace_explicit G pos f wt sfx C).
  unfold edge_trace.
  assert (J : In (u, v, d) (filter (accepts f wt) (nx.edges G))).
  { apply filter_In. now split. }
  destruct (filter (accepts f wt) (nx.edges G)) as [|e r] eqn:E;
    [contradiction|].
  eexists. eexists. split; [reflexivity|]. split; [reflexivity|].
  apply HoverFacts.join_substring.
  change (hover_text u v d) with (hover (u, v, d)).
  now apply in_map.
Qed.

(** The scenario of two rows: the text of the aggregate trace of weight 3
    names the edge from B to C with its themes and its weight. *)
Lemma scenario_hover_text :
  exists fig t s,
    written (run scenario_world) = Some fig
    /\ nth_error (go.traces fig) 1 = Some t
    /\ go.text t = go.Text s
    /\ s = "B → C<br>Themes: freedom, abolition<br>Influence: 3 / 3<br>x"
    /\ PyStr.contains "Themes: freedom, abolition" s = true
    /\ PyStr.contains "Influence: 3 / 3" s = true.
Proof.
  eexists. eexists. eexists.
  split; [vm_compute; reflexivity|].
  split; [reflexivity|]. split; [reflexivity|].
  split; [reflexivity|]. split; vm_compute; reflexivity.
Qed.

(** C9. The label of a hover block is written from the endpoints in the
    order the undirected graph reports the edge, which need not be from
    source to target: with the records A to B and C to B, the edge whose
    source is C and whose target is B is labelled from B to C, and no
    block is labelled from C to B. *)
Theorem hover_label_reversed :
  exists fig t s,
    load_edges shared_target_rows = Ok shared_target_edges
    /\ written (run shared_target_world) = Some fig
    /\ nx.edges (build_graph shared_target_edges)
       = [("A", "B", nx.mkData 2 ["freedom"] "");
          ("B", "C", nx.mkData 2 ["abolition"] "x")]
    /\ nth_error (go.traces fig) 0 = Some t
    /\ go.text t = go.Text s
    /\ s = ("A → B<br>Themes: freedom<br>Influence: 2 / 3<br><br>"
            ++ "B → C<br>Themes: abolition<br>Influence: 2 / 3<br>x")%string
    /\ ~ PyStr.Substring "C → B" s.
Proof.
  eexists. eexists. eexists.
  split; [vm_compute; reflexivity|].
  split; [vm_compute; reflexivity|].
  split; [vm_compute; reflexivity|].
  split; [reflexivity|]. split; [reflexivity|]. split; [reflexivity|].
  intros H. apply HoverFacts.substring_contains in H.
  vm_compute in H. discriminate H.
Qed.

(** * Further properties of the pipeline *)

(** ** The loader, row by row *)

Module LoaderFacts.

Lemma for_each_append rows : forall acc,
  for_each (fun edges row => e <- load_row row ;; Ok (edges ++ [e])) rows acc
  = (l <- map_r load_row rows ;; Ok (acc ++ l)).
Proof.
  induction rows as [|r rs IH]; intros acc; simpl.
  - now rewrite app_nil_r.
  - destruct (load_row r) as [e|x]; simpl; [|reflexivity].
    rewrite IH. destruct (map_r load_row rs); simpl; [|reflexivity].
    now rewrite <- app_assoc.
Qed.

Lemma load_edges_map_r rows : load_edges rows = map_r load_row rows.
Proof.
  unfold load_edges. rewrite for_each_append.
  now destruct (map_r load_row rows).
Qed.

Lemma map_r_Forall2 {A B} (f : A -> result B) l : forall l',
  map_r f l = Ok l' <-> Forall2 (fun a b => f a = Ok b) l l'.
Proof.
  induction l as [|a r IH]; intros l'; simpl.
  - split; [intros [= <-]; constructor|intros H; now inversion H].
  - destruct (f a) as [b|x] eqn:E; simpl.
    + destruct (map_r f r) as [bs|x] eqn:E'; simpl.
      * split.
        -- intros [= <-]. constructor; [exact E|]. now apply IH.
        -- intros H. inversion H as [|? b' ? bs' Hb Hbs]; subst.
           apply IH in Hbs. congruence.
      * split; [discriminate|].
        intros H. inversion H as [|? b' ? bs' Hb Hbs]; subst.
        apply IH in Hbs. discriminate.
    + split; [discriminate|].
      intros H. inversion H; subst. congruence.
Qed.

Lemma map_r_first_failure {A B} (f : A -> result B) pre a post x :
  Forall (fun a' => exists b, f a' = Ok b) pre -> f a = Raise x ->
  map_r f (pre ++ a :: post) = Raise x.
Proof.
  intros H E. induction H as [|a' pre' [b Hb] _ IH]; simpl.
  - now rewrite E.
  - now rewrite Hb, IH.
Qed.

(** What a parsed row held. *)
Lemma load_row_inv row e :
  load_row row = Ok e ->
  exists s1 s2 s3 s4 s5 s6 s7,
    Dict.get "source_title" row = Some (Some s1)
    /\ Dict.get "source_year" row = Some (Some s2)
    /\ Dict.get "target_title" row = Some (Some s3)
    /\ Dict.get "target_year" row = Some (Some s4)
    /\ Dict.get "weight" row = Some (Some s5)
    /\ row_get "themes" "" row = Some s6
    /\ row_get "note" "" row = Some s7
    /\ src e = PyStr.strip s1 /\ PyInt.of_str s2 = Ok (sy e)
    /\ tgt e = PyStr.strip s3 /\ PyInt.of_str s4 = Ok (ty e)
    /\ PyInt.of_str s5 = Ok (w e)
    /\ themes e
       = map normalize_theme
             (filter (fun t => PyStr.truthy (PyStr.strip t))
                     (PyStr.split ";" s6))
    /\ note e = PyStr.strip s7.
Proof.
  unfold load_row, Dict.item, as_str, int.
  destruct (Dict.get "source_title" row) as [[s1|]|]; cbn [bind];
    try discriminate.
  destruct (Dict.get "source_year" row) as [[s2|]|]; cbn [bind];
    try discriminate.
  destruct (PyInt.of_str s2) as [y1|] eqn:E2; cbn [bind]; try discriminate.
  destruct (Dict.get "target_title" row) as [[s3|]|]; cbn [bind];
    try discriminate.
  destruct (Dict.get "target_year" row) as [[s4|]|]; cbn [bind];
    try discriminate.
  destruct (PyInt.of_str s4) as [y2|] eqn:E4; cbn [bind]; try discriminate.
  destruct (Dict.get "weight" row) as [[s5|]|]; cbn [bind];
    try discriminate.
  destruct (PyInt.of_str s5) as [w0|] eqn:E5; cbn [bind]; try discriminate.
  destruct (row_get "themes" "" row) as [s6|]; cbn [bind]; try discriminate.
  destruct (row_get "note" "" row) as [s7|]; cbn [bind]; try discriminate.
  intros [= <-]. exists s1, s2, s3, s4, s5, s6, s7. cbn.
  repeat split; assumption.
Qed.

End LoaderFacts.

(** X1. Loading succeeds exactly when every row parses, and then gives one
    record per row, in the order of the rows. *)
Theorem load_edges_per_row (rows : list Row) (edges : list EdgeRec) :
  load_edges rows = Ok edges
  <-> Forall2 (fun row e => load_row row = Ok e) rows edges.
Proof.
  rewrite LoaderFacts.load_edges_map_r. apply LoaderFacts.map_r_Forall2.
Qed.

(** X2. The first row that does not parse ends the run with its
    exception: exit status 1, nothing on stdout, and the document is
    neither created nor changed, whatever the rows before and after. *)
Theorem malformed_row_aborts (wd : World) pre row post (x : exn) :
  edges_csv wd = Some (pre ++ row :: post) ->
  Forall (fun r => exists e, load_row r = Ok e) pre ->
  load_row row = Raise x ->
  load_edges (pre ++ row :: post) = Raise x
  /\ status (run wd) = Uncaught x
  /\ exit_status (status (run wd)) = 1%Z
  /\ stdout (run wd) = []
  /\ html_of (world (run wd)) = html_of wd.
Proof.
  intros Hc Hp Hr.
  assert (L : load_edges (pre ++ row :: post) = Raise x).
  { rewrite LoaderFacts.load_edges_map_r.
    now apply LoaderFacts.map_r_first_failure. }
  split; [exact L|]. unfold run, main.
  rewrite module_load_csv, Hc, L. cbn [status stdout world exit_status].
  repeat split. apply module_load_html.
Qed.

Lemma malformed_row_aborts_witness :
  let bad := csv_row "B" "1810" "C" "1850" "heavy" "freedom" "" in
  let wd := mkWorld "/srv/repo"
                    (Some ([csv_row "A" "1800" "B" "1810" "2" "" ""]
                           ++ bad :: scenario_rows)) None in
  status (run wd) = Uncaught ValueError /\ html_of (world (run wd)) = None.
Proof.
  intros bad wd.
  destruct (malformed_row_aborts wd
              [csv_row "A" "1800" "B" "1810" "2" "" ""] bad scenario_rows
              ValueError eq_refl) as [_ [S [_ [_ H]]]].
  - constructor; [|constructor]. eexists. vm_compute. reflexivity.
  - vm_compute. reflexivity.
  - split; [exact S|exact H].
Defined.

(** ** What the loader leaves in a record *)

Module FieldFacts.
Import PyStr PyStrFacts.

Lemma lower_empty s : lower s = EmptyString -> s = EmptyString.
Proof.
  unfold lower, on_chars. destruct (Utf8.decode s) as [l|] eqn:D; [|auto].
  destruct (Utf8Facts.decode_sound s l D) as [-> S]. intros E.
  apply Utf8Facts.encode_nil, lower_chars_nil in E; [|exact S]. now subst.
Qed.

Lemma truthy_nonempty s : truthy s = true -> s <> EmptyString.
Proof. destruct s; [discriminate|discriminate]. Qed.

(** Neither method brings in a semicolon. *)
Lemma semicolon_kept f s :
  (forall l, Forall (fun c => Utf8.code_point c = true) l ->
             Forall (fun c => Utf8.code_point c = true) (f l)
             /\ (In 59%N (f l) -> In 59%N l)) ->
  In ";"%char (list_ascii_of_string (on_chars f s)) ->
  In ";"%char (list_ascii_of_string s).
Proof.
  intros F. unfold on_chars.
  destruct (Utf8.decode s) as [l|] eqn:D; [|auto].
  destruct (Utf8Facts.decode_sound s l D) as [-> S].
  destruct (F l S) as [S' K]. intros I.
  change ";"%char with (Utf8.byte 59) in *.
  apply Utf8Facts.ascii_encode; [reflexivity|]. apply K.
  now apply Utf8Facts.encode_ascii in I.
Qed.

Lemma strip_semicolon s :
  In ";"%char (list_ascii_of_string (strip s)) ->
  In ";"%char (list_ascii_of_string s).
Proof.
  apply semicolon_kept. intros l S. split; [now apply strip_code_points|].
  apply strip_sub.
Qed.

Lemma lower_semicolon s :
  In ";"%char (list_ascii_of_string (lower s)) ->
  In ";"%char (list_ascii_of_string s).
Proof.
  apply semicolon_kept. intros l S. split; [now apply lower_code_points|].
  now apply lower_chars_semicolon.
Qed.

(** The pieces of a split do not hold the separator. *)
Lemma split_no_sep sep s p : In p (split sep s) -> ~ In sep (list_ascii_of_string p).
Proof.
  revert p. induction s as [|a r IH]; simpl; intros p.
  - intros [<-|[]]. simpl. tauto.
  - destruct (Ascii.eqb_spec a sep) as [->|N].
    + intros [<-|H]; [simpl; tauto|now apply IH].
    + destruct (split sep r) as [|q qs] eqn:E.
      * intros [<-|[]]. simpl. intros [H|[]]. contradiction.
      * intros [<-|H].
        -- simpl. intros [H|H]; [contradiction|].
           apply (IH q); [now left|exact H].
        -- apply IH. now right.
Qed.

End FieldFacts.

(** X3. Every theme of a parsed record is a non-empty string that is its
    own normal form: trimmed, in lower case, and without a semicolon. *)
Theorem loaded_themes_normalised (row : Row) (e : EdgeRec) :
  load_row row = Ok e ->
  forall t, In t (themes e) ->
    t <> EmptyString
    /\ normalize_theme t = t
    /\ PyStr.strip t = t
    /\ PyStr.lower t = t
    /\ ~ In ";"%char (list_ascii_of_string t).
Proof.
  intros H t I.
  destruct (LoaderFacts.load_row_inv row e H)
    as (s1 & s2 & s3 & s4 & s5 & s6 & s7 & _ & _ & _ & _ & _ & _ & _
        & _ & _ & _ & _ & _ & Ht & _).
  rewrite Ht in I. apply in_map_iff in I. destruct I as [t0 [<- I]].
  apply filter_In in I. destruct I as [I T].
  unfold normalize_theme.
  assert (S : PyStr.strip (PyStr.lower (PyStr.strip t0))
              = PyStr.lower (PyStr.strip t0))
    by now rewrite PyStrFacts.strip_lower, PyStrFacts.strip_idem.
  split; [|split; [|split; [exact S|split]]].
  - intros E. apply FieldFacts.lower_empty in E.
    now apply FieldFacts.truthy_nonempty in T.
  - rewrite S. apply PyStrFacts.lower_idem.
  - apply PyStrFacts.lower_idem.
  - intros C.
    apply FieldFacts.lower_semicolon, FieldFacts.strip_semicolon in C.
    now apply (FieldFacts.split_no_sep ";"%char s6 t0 I).
Qed.

Lemma loaded_themes_normalised_witness :
  normalize_theme "abolition" = "abolition"
  /\ "abolition" <> EmptyString.
Proof.
  destruct (loaded_themes_normalised
              (csv_row "B" "1810" "C" "1850" "3" " Freedom ; ;ABOLITION;" "x")
              (mkEdge "B" 1810 "C" 1850 3 ["freedom"; "abolition"] "x")
              eq_refl "abolition" (or_intror (or_introl eq_refl)))
    as [H1 [H2 _]].
  split; [exact H2|exact H1].
Defined.

(** X4. The two titles and the note of a parsed record carry no
    whitespace at either end. *)
Theorem loaded_titles_stripped (row : Row) (e : EdgeRec) :
  load_row row = Ok e ->
  PyStr.strip (src e) = src e
  /\ PyStr.strip (tgt e) = tgt e
  /\ PyStr.strip (note e) = note e.
Proof.
  intros H.
  destruct (LoaderFacts.load_row_inv row e H)
    as (s1 & s2 & s3 & s4 & s5 & s6 & s7 & _ & _ & _ & _ & _ & _ & _
        & -> & _ & -> & _ & _ & _ & ->).
  repeat split; apply PyStrFacts.strip_idem.
Qed.

Lemma loaded_titles_stripped_witness :
  PyStr.strip "A" = "A" /\ PyStr.strip "B" = "B" /\ PyStr.strip "hi" = "hi".
Proof.
  exact (loaded_titles_stripped
           (csv_row " A " "1800" "B  " "1810" "2" "" " hi ")
           (mkEdge "A" 1800 "B" 1810 2 [] "hi") eq_refl).
Defined.

(** X5. A row gives a record only if it has the five required columns,
    each with a field; the columns [themes] and [note] may be missing,
    and then the record has no theme and an empty note. *)
Theorem required_and_optional_columns (row : Row) (e : EdgeRec) :
  load_row row = Ok e ->
  (forall k, In k ["source_title"; "source_year"; "target_title";
                   "target_year"; "weight"] ->
             exists s, Dict.get k row = Some (Some s))
  /\ (Dict.get "themes" row = None -> themes e = [])
  /\ (Dict.get "note" row = None -> note e = EmptyString).
Proof.
  intros H.
  destruct (LoaderFacts.load_row_inv row e H)
    as (s1 & s2 & s3 & s4 & s5 & s6 & s7 & H1 & H2 & H3 & H4 & H5 & H6 & H7
        & _ & _ & _ & _ & _ & Ht & Hn).
  split; [|split].
  - intros k [<-|[<-|[<-|[<-|[<-|[]]]]]]; eauto.
  - intros N. unfold row_get in H6. rewrite N in H6.
    injection H6 as <-. rewrite Ht. reflexivity.
  - intros N. unfold row_get in H7. rewrite N in H7.
    injection H7 as <-. rewrite Hn. reflexivity.
Qed.

Lemma required_and_optional_columns_witness :
  themes (mkEdge "A" 1800 "B" 1810 2 [] "") = []
  /\ note (mkEdge "A" 1800 "B" 1810 2 [] "") = EmptyString.
Proof.
  destruct (required_and_optional_columns
              [("source_title", Some "A"); ("source_year", Some "1800");
               ("target_title", Some "B"); ("target_year", Some "1810");
               ("weight", Some "2")]
              (mkEdge "A" 1800 "B" 1810 2 [] "") eq_refl) as [_ [H1 H2]].
  split; [exact (H1 eq_refl)|exact (H2 eq_refl)].
Defined.

(** ** Padding and case of a theme *)

Module PadFacts.
Import PyStr PyStrFacts.


End PadFacts.



(** ** The graph, in terms of the records *)

Module RecordFacts.
Import DictFacts GraphFacts BuildFacts.

Lemma last_year_mention l n :
  last_year l n <> None <-> exists e, In e l /\ mentions n e = true.
Proof.
  induction l as [|e r IH]; simpl.
  - split; [congruence|intros [e [[] _]]].
  - destruct (last_year r n) as [y|] eqn:E.
    + split; [intros _|discriminate].
      destruct (proj1 IH) as [e' [I M]]; [discriminate|].
      exists e'. split; [now right|exact M].
    + unfold mentions.
      destruct (String.eqb (tgt e) n) eqn:Et.
      * split; [intros _|discriminate].
        exists e. split; [now left|]. now rewrite Et, orb_true_r.
      * destruct (String.eqb (src e) n) eqn:Es.
        -- split; [intros _|discriminate]. exists e.
           split; [now left|]. now rewrite Es.
        -- split; [congruence|]. intros [e' [[<-|I] M]].
           ++ now rewrite Es, Et in M.
           ++ exfalso. apply (proj2 IH); [|reflexivity].
              exists e'. split; [exact I|exact M].
Qed.

Lemma edge_data_last_joining l u v : forall G,
  well_formed G ->
  nx.edge_data (fold_left build_step l G) u v
  = match last_joining l u v with
    | Some e => Some (data_of e)
    | None => nx.edge_data G u v
    end.
Proof.
  induction l as [|e r IH]; intros G W; simpl; [reflexivity|].
  rewrite IH by now apply wf_build_step.
  destruct (last_joining r u v); [reflexivity|].
  rewrite edge_data_build_step by exact W.
  now destruct (joins u v e).
Qed.

Lemma last_joining_In l u v e :
  last_joining l u v = Some e -> In e l /\ joins u v e = true.
Proof.
  induction l as [|a r IH]; simpl; [discriminate|].
  destruct (last_joining r u v) as [e'|].
  - intros [= ->]. destruct (IH eq_refl). split; [now right|assumption].
  - destruct (joins u v a) eqn:J; [|discriminate].
    intros [= <-]. split; [now left|exact J].
Qed.

Lemma joins_sym u v e : joins u v e = joins v u e.
Proof. unfold joins. apply orb_comm. Qed.

Lemma last_joining_sym l u v : last_joining l u v = last_joining l v u.
Proof.
  induction l as [|a r IH]; simpl; [reflexivity|].
  now rewrite IH, joins_sym.
Qed.

(** The orientation of a reported edge: its first endpoint does not come
    after the second one in the adjacency. *)
Lemma edges_from_order a : forall seen x y d,
  NoDup (Dict.keys a) ->
  In (x, y, d) (nx.edges_from seen a) -> In y (Dict.keys a) ->
  (idx x (Dict.keys a) <= idx y (Dict.keys a))%nat.
Proof.
  induction a as [|[n nbrs] rest IH]; intros seen x y d ND I Iy;
    [contradiction|].
  cbn [nx.edges_from] in I. simpl in ND, Iy |- *.
  inversion ND as [|? ? Nin ND']; subst.
  apply in_app_or in I. destruct I as [I|I].
  - apply in_map_iff in I. destruct I as [[k dd] [E _]].
    inversion E; subst. rewrite String.eqb_refl. lia.
  - pose proof (EdgeFacts.In_edges_from _ _ _ _ _ I) as [Ns [nb [Ix _]]].
    assert (Ix' : In x (Dict.keys rest)).
    { change (In (fst (x, nb)) (map fst rest)). now apply in_map. }
    destruct (String.eqb_spec n x) as [->|Nx]; [contradiction|].
    destruct (String.eqb_spec n y) as [->|Ny].
    + exfalso. apply Ns. now left.
    + destruct Iy as [Iy|Iy]; [contradiction|].
      specialize (IH (n :: seen) x y d ND' I Iy). lia.
Qed.

Lemma idx_inj a b l : In a l -> In b l -> idx a l = idx b l -> a = b.
Proof.
  induction l as [|c r IH]; simpl; [contradiction|].
  destruct (String.eqb_spec c a) as [<-|Na];
    destruct (String.eqb_spec c b) as [<-|Nb]; try congruence; try lia.
  intros [E|Ia] [E'|Ib]; try contradiction.
  intros H. apply IH; [assumption|assumption|lia].
Qed.

(** A reported edge is in the adjacency of its first endpoint. *)
Lemma edges_edge_data G u v d :
  well_formed G -> In (u, v, d) (nx.edges G) ->
  nx.edge_data G u v = Some d
  /\ (idx u (nx.node_list G) <= idx v (nx.node_list G))%nat.
Proof.
  intros W I.
  assert (ND : NoDup (Dict.keys (nx.adj G))).
  { rewrite <- (wf_keys G W). apply (wf_nodup G W). }
  pose proof (TraceFacts.edge_endpoints G u v d W I) as [_ Iv].
  split.
  - apply EdgeFacts.In_edges_from in I. destruct I as [_ [nb [I1 I2]]].
    apply (In_get _ _ _ ND) in I1. unfold nx.edge_data. rewrite I1.
    apply In_get; [|exact I2]. now apply (wf_nbrs G W u nb).
  - unfold nx.node_list. rewrite (wf_keys G W).
    apply (edges_from_order _ [] u v d ND I).
    rewrite <- (wf_keys G W). exact Iv.
Qed.

Lemma edge_data_nodes G u v d :
  well_formed G -> nx.edge_data G u v = Some d ->
  In u (nx.node_list G) /\ In v (nx.node_list G).
Proof.
  intros W E. unfold nx.edge_data in E.
  destruct (Dict.get u (nx.adj G)) as [nb|] eqn:Gu; [|discriminate].
  split.
  - unfold nx.node_list. rewrite (wf_keys G W). apply mem_In.
    unfold Dict.mem. now rewrite Gu.
  - apply (wf_nbrs G W u nb Gu). apply mem_In. unfold Dict.mem.
    now rewrite E.
Qed.

Lemma edges_iff G u v d :
  well_formed G ->
  In (u, v, d) (nx.edges G)
  <-> nx.edge_data G u v = Some d
      /\ (idx u (nx.node_list G) <= idx v (nx.node_list G))%nat.
Proof.
  intros W. split; [now apply edges_edge_data|].
  intros [E L].
  assert (F : forall x y, In (x, y, d) (edges_between G u v) ->
                          In (x, y, d) (nx.edges G)).
  { intros x y I. unfold edges_between in I. now apply filter_In in I. }
  destruct (EdgeFacts.edges_between_single G u v d W E) as [H|H].
  - apply F. rewrite H. now left.
  - assert (I : In (v, u, d) (nx.edges G)) by (apply F; rewrite H; now left).
    destruct (edges_edge_data G v u d W I) as [_ L'].
    destruct (edge_data_nodes G u v d W E) as [Iu Iv].
    assert (u = v) by (apply (idx_inj u v (nx.node_list G)); auto; lia).
    now subst.
Qed.

Lemma edge_data_records edges u v :
  nx.edge_data (build_graph edges) u v
  = option_map data_of (last_joining edges u v).
Proof.
  unfold build_graph. rewrite edge_data_last_joining by apply wf_empty.
  now destruct (last_joining edges u v).
Qed.

End RecordFacts.

(** X7. The nodes of the built graph are the titles the records name,
    each once. *)
Theorem graph_nodes_are_titles (edges : list EdgeRec) :
  NoDup (nx.node_list (build_graph edges))
  /\ forall n, In n (nx.node_list (build_graph edges))
               <-> exists e, In e edges /\ mentions n e = true.
Proof.
  split; [apply (wf_nodup _ (BuildFacts.wf_build_graph edges))|].
  intros n. rewrite <- RecordFacts.last_year_mention.
  unfold nx.node_list. rewrite <- DictFacts.mem_In. unfold Dict.mem.
  unfold build_graph. rewrite BuildFacts.nodes_fold. simpl.
  destruct (last_year edges n); split; congruence.
Qed.

(** X8. Between any two titles the graph has the attributes of the last
    record joining them, in whichever direction that record and the
    question go; it has no edge when no record joins them. *)
Theorem edge_data_is_last_joining (edges : list EdgeRec) (u v : string) :
  nx.edge_data (build_graph edges) u v
  = option_map data_of (last_joining edges u v)
  /\ nx.edge_data (build_graph edges) v u
     = nx.edge_data (build_graph edges) u v.
Proof.
  split; [apply RecordFacts.edge_data_records|].
  now rewrite !RecordFacts.edge_data_records, RecordFacts.last_joining_sym.
Qed.

(** X9. The iteration over the edges reports an edge from [u] to [v]
    exactly when some record joins the two titles and [u] was not named
    for the first time after [v]; the attributes are those of the last
    record joining them. *)
Theorem reported_edges_spec (edges : list EdgeRec) (u v : string)
    (d : nx.data) :
  In (u, v, d) (nx.edges (build_graph edges))
  <-> (exists e, last_joining edges u v = Some e /\ d = data_of e)
      /\ (idx u (first_seen edges) <= idx v (first_seen edges))%nat.
Proof.
  rewrite (RecordFacts.edges_iff _ u v d (BuildFacts.wf_build_graph edges)).
  rewrite BuildFacts.node_list_build_graph, RecordFacts.edge_data_records.
  destruct (last_joining edges u v) as [e|]; simpl.
  - split; intros [H L]; (split; [|exact L]).
    + exists e. split; [reflexivity|]. congruence.
    + destruct H as [e' [[= <-] ->]]. reflexivity.
  - split; intros [H L]; [discriminate|]. now destruct H as [e' [H _]].
Qed.

(** X10. Two titles have at most one reported edge between them, and
    none exactly when no record joins them. *)
Theorem one_edge_per_pair (edges : list EdgeRec) (u v : string) :
  (List.length (edges_between (build_graph edges) u v) <= 1)%nat
  /\ (edges_between (build_graph edges) u v = []
      <-> last_joining edges u v = None).
Proof.
  set (G := build_graph edges).
  assert (W : well_formed G) by apply BuildFacts.wf_build_graph.
  pose proof (RecordFacts.edge_data_records edges u v) as E. fold G in E.
  destruct (last_joining edges u v) as [e|] eqn:L; simpl in E.
  - destruct (EdgeFacts.edges_between_single G u v _ W E) as [H|H];
      rewrite H; simpl; (split; [lia|split; discriminate]).
  - assert (N : edges_between G u v = []).
    { unfold edges_between. apply EdgeFacts.filter_none.
      intros [[a b] d] I.
      destruct (RecordFacts.edges_edge_data G a b d W I) as [Ed _].
      destruct (String.eqb_spec a u) as [->|Nu];
        destruct (String.eqb_spec b v) as [->|Nv]; simpl;
        try (rewrite E in Ed; discriminate).
      - destruct (String.eqb_spec u v) as [->|_]; [|reflexivity].
        destruct (String.eqb_spec b v) as [->|_]; [contradiction|reflexivity].
      - destruct (String.eqb_spec a v) as [->|_]; [|reflexivity].
        destruct (String.eqb_spec v u) as [->|_]; [contradiction|reflexivity].
      - destruct (String.eqb_spec a v) as [->|_]; [|reflexivity].
        destruct (String.eqb_spec b u) as [->|_]; [|reflexivity].
        rewrite (wf_sym G W) in Ed. rewrite E in Ed. discriminate. }
    rewrite N. simpl. split; [lia|split; reflexivity].
Qed.

(** ** More on the layout *)

Module RankFacts.
Import DictFacts GraphFacts SortFacts.

Lemma get_map {V} (f : string -> V) n l v :
  Dict.get n (map (fun m => (m, f m)) l) = Some v -> In n l /\ v = f n.
Proof.
  induction l as [|a r IH]; simpl; [discriminate|].
  destruct (String.eqb_spec a n) as [->|N].
  - intros [= <-]. split; [now left|reflexivity].
  - intros H. destruct (IH H). split; [now right|assumption].
Qed.

(** In a sorted list a node of a smaller key stands before one of a
    larger key. *)
Lemma idx_sorted_lt (k : string -> Z) s a b :
  StronglySorted (sorted_le Z.leb k) s -> In a s -> In b s ->
  (k a < k b)%Z -> (idx a s < idx b s)%nat.
Proof.
  intros S. induction S as [|c r S IH F]; simpl; [contradiction|].
  rewrite Forall_forall in F. intros Ia Ib L.
  destruct (String.eqb_spec c a) as [<-|Na].
  - destruct (String.eqb_spec c b) as [<-|Nb]; lia.
  - destruct Ia as [Ia|Ia]; [contradiction|].
    destruct (String.eqb_spec c b) as [<-|Nb].
    + specialize (F a Ia). unfold sorted_le in F. apply Z.leb_le in F. lia.
    + destruct Ib as [Ib|Ib]; [contradiction|].
      specialize (IH Ia Ib L). lia.
Qed.

Lemma idx_in_range a l : In a l -> (idx a l < List.length l)%nat.
Proof.
  induction l as [|c r IH]; simpl; [contradiction|].
  destruct (String.eqb_spec c a) as [<-|N]; [lia|].
  intros [E|I]; [contradiction|]. specialize (IH I). lia.
Qed.

(** What a position of a built graph is. *)
Lemma position_inv edges pos n x y :
  positions (build_graph edges) = Ok pos ->
  Dict.get n pos = Some (x, y) ->
  let G := build_graph edges in
  let s := PyList.sorted Z.leb (yr G) (nx.node_list G) in
  In n (nx.node_list G) /\ In n s
  /\ x = yr G n /\ y = Z.of_nat (idx n s).
Proof.
  intros P H G s.
  assert (W : well_formed G) by apply BuildFacts.wf_build_graph.
  assert (D : dated G) by apply BuildFacts.dated_build_graph.
  unfold G in P. fold G in P.
  rewrite (LayoutFacts.positions_explicit G W D) in P.
  injection P as <-. apply get_map in H. destruct H as [I E].
  injection E as -> ->. split; [exact I|]. split; [|split; reflexivity].
  apply (Permutation_in _ (Permutation_sym (sorted_perm Z.leb (yr G) _))), I.
Qed.

Lemma map_r_KeyError {A B} (f : A -> result B) l a :
  (forall a' x, f a' = Raise x -> x = KeyError) ->
  In a l -> f a = Raise KeyError -> map_r f l = Raise KeyError.
Proof.
  intros K I E. induction l as [|c r IH]; [contradiction|]. simpl.
  destruct (f c) as [b|x] eqn:Ec; simpl.
  - destruct I as [->|I]; [congruence|]. now rewrite (IH I).
  - now rewrite (K c x Ec).
Qed.

End RankFacts.

(** X11. The vertical coordinates of the nodes are the numbers from 0 to
    the number of nodes less one, each used once: no two nodes share
    one. *)
Theorem positions_ranks_distinct (edges : list EdgeRec) (pos : Pos) :
  positions (build_graph edges) = Ok pos ->
  forall n xn yn, Dict.get n pos = Some (xn, yn) ->
    (0 <= yn < Z.of_nat (List.length (nx.node_list (build_graph edges))))%Z
    /\ forall m xm, Dict.get m pos = Some (xm, yn) -> m = n.
Proof.
  intros P n xn yn Hn.
  destruct (RankFacts.position_inv edges pos n xn yn P Hn)
    as [In_n [Is_n [_ Ey]]].
  set (G := build_graph edges) in *.
  set (s := PyList.sorted Z.leb (yr G) (nx.node_list G)) in *.
  pose proof (RankFacts.idx_in_range n s Is_n) as L.
  assert (Ls : List.length s = List.length (nx.node_list G))
    by apply Permutation_length, SortFacts.sorted_perm.
  split; [lia|].
  intros m xm Hm.
  destruct (RankFacts.position_inv edges pos m xm yn P Hm)
    as [_ [Is_m [_ Ey']]].
  fold G in Is_m, Ey'. fold s in Is_m, Ey'.
  apply (RecordFacts.idx_inj m n s Is_m Is_n). lia.
Qed.

Lemma positions_ranks_distinct_witness :
  (0 <= 1
   < Z.of_nat (List.length (nx.node_list (build_graph scenario_edges))))%Z.
Proof.
  exact (proj1 (positions_ranks_distinct scenario_edges
                  [("A", (1800, 0)); ("B", (1810, 1)); ("C", (1850, 2))]%Z
                  eq_refl "B" 1810%Z 1%Z eq_refl)).
Defined.

(** X12. The layout keeps the order of the years: a node of an earlier
    year is placed below every node of a later year. *)
Theorem positions_order_by_year (edges : list EdgeRec) (pos : Pos) :
  positions (build_graph edges) = Ok pos ->
  forall n m xn yn xm ym,
    Dict.get n pos = Some (xn, yn) -> Dict.get m pos = Some (xm, ym) ->
    (xn < xm)%Z -> (yn < ym)%Z.
Proof.
  intros P n m xn yn xm ym Hn Hm L.
  destruct (RankFacts.position_inv edges pos n xn yn P Hn)
    as [_ [Is_n [Ex Ey]]].
  destruct (RankFacts.position_inv edges pos m xm ym P Hm)
    as [_ [Is_m [Ex' Ey']]].
  subst xn xm yn ym.
  apply inj_lt.
  apply (RankFacts.idx_sorted_lt (yr (build_graph edges))); try assumption.
  apply SortFacts.sortk_sorted.
Qed.

Lemma positions_order_by_year_witness :
  exists pos, positions (build_graph scenario_edges) = Ok pos
              /\ Dict.get "A" pos = Some (1800, 0)%Z
              /\ Dict.get "C" pos = Some (1850, 2)%Z /\ (0 < 2)%Z.
Proof.
  eexists. split; [reflexivity|]. split; [reflexivity|].
  split; [reflexivity|].
  apply (positions_order_by_year scenario_edges _ eq_refl "A" "C"
           1800%Z 0%Z 1850%Z 2%Z eq_refl eq_refl).
  reflexivity.
Defined.

(** X13. The layout needs a year on every node: on a graph with a node
    that has none, such as an endpoint that only [add_edge] created, it
    raises [KeyError]. *)
Theorem positions_needs_years (G : nx.Graph) (n : string) :
  Dict.get n (nx.nodes G) = Some None -> positions G = Raise KeyError.
Proof.
  intros H. unfold positions.
  rewrite (RankFacts.map_r_KeyError _ (nx.node_list G) n); [reflexivity| | |].
  - intros a x. unfold nx.year, Dict.item.
    destruct (Dict.get a (nx.nodes G)) as [[y|]|]; simpl; congruence.
  - apply DictFacts.mem_In. unfold Dict.mem. now rewrite H.
  - unfold nx.year, Dict.item. now rewrite H.
Qed.

Lemma positions_needs_years_witness :
  positions (nx.add_edge "A" "B" (nx.mkData 2 [] "") nx.empty)
  = Raise KeyError.
Proof.
  apply (positions_needs_years _ "A"). reflexivity.
Defined.

(** ** Traces with a match *)

Module MatchFacts.
Import TraceFacts.

Lemma coords_length pos sel l :
  List.length (flat_map (coords pos sel) l) = (3 * List.length l)%nat.
Proof.
  induction l as [|[[u v] d] r IH]; simpl; [reflexivity|]. rewrite IH. lia.
Qed.

(** The text of a trace with an accepted edge holds the block of that
    edge. *)
Lemma edge_trace_block G pos f wt sfx e :
  In e (nx.edges G) -> accepts f wt e = true ->
  go.visible (edge_trace G pos f wt sfx) = true
  /\ exists s, go.text (edge_trace G pos f wt sfx) = go.Text s
               /\ PyStr.Substring (hover e) s.
Proof.
  intros I A. unfold edge_trace.
  assert (J : In e (filter (accepts f wt) (nx.edges G))).
  { apply filter_In. now split. }
  destruct (filter (accepts f wt) (nx.edges G)) as [|e0 r] eqn:E;
    [contradiction|].
  split; [reflexivity|]. eexists. split; [reflexivity|].
  apply HoverFacts.join_substring. now apply in_map.
Qed.

End MatchFacts.

(** X14. When at least one edge passes the filters, the trace is visible
    and has, for each accepted edge in the order of the iteration, a
    segment of three coordinates (the two endpoints and a gap) and a
    hover block; its name begins with a capital and its width is 2.5
    times the weight. *)
Theorem matched_trace_shape (edges : list EdgeRec) (pos : Pos)
    (f : Filter) (wt : Z) (sfx : string) :
  let G := build_graph edges in
  let l := filter (accepts f (Some wt)) (nx.edges G) in
  positions G = Ok pos -> l <> [] ->
  exists t,
    make_edge_trace G pos f (Some wt) sfx = Ok t
    /\ go.visible t = true
    /\ go.x t = flat_map (coords pos fst) l
    /\ go.y t = flat_map (coords pos snd) l
    /\ List.length (go.x t) = (3 * List.length l)%nat
    /\ List.length (go.y t) = (3 * List.length l)%nat
    /\ go.text t = go.Text (PyStr.join "<br>" (map hover l))
    /\ go.line_width t = Some ((5 # 2) * inject_Z wt)%Q
    /\ String.prefix ("Edges" ++ sfx) (go.name t) = true.
Proof.
  intros G l P N.
  destruct (TraceFacts.positions_cover G pos
              (BuildFacts.wf_build_graph edges)
              (BuildFacts.dated_build_graph edges) P) as [_ C].
  rewrite (TraceFacts.make_edge_trace_explicit G pos f (Some wt) sfx C).
  eexists. split; [reflexivity|]. unfold edge_trace. fold l.
  destruct l as [|e r] eqn:E; [contradiction|].
  cbn [go.visible go.x go.y go.text go.line_width go.name].
  rewrite !MatchFacts.coords_length.
  repeat split.
  change ("Edges" ++ sfx ++ ?z)%string with (("Edges" ++ sfx) ++ z)%string.
  rewrite <- HoverFacts.append_assoc. apply HoverFacts.prefix_append.
Qed.

Lemma matched_trace_shape_witness :
  exists t,
    make_edge_trace (build_graph scenario_edges)
      [("A", (1800, 0)); ("B", (1810, 1)); ("C", (1850, 2))]%Z
      all_filter (Some 3%Z) "_all_w3" = Ok t
    /\ go.x t = [Some 1810%Z; Some 1850%Z; None].
Proof.
  destruct (matched_trace_shape scenario_edges
              [("A", (1800, 0)); ("B", (1810, 1)); ("C", (1850, 2))]%Z
              all_filter 3%Z "_all_w3" eq_refl) as [t [H [_ [X _]]]].
  - discriminate.
  - exists t. split; [exact H|exact X].
Defined.

(** X15. In the figure of a valid input every edge of the graph of weight
    2 has its hover block in the first trace, every edge of weight 3 in
    the second, and an edge that carries a theme has its block in the
    trace of that theme and of its weight; the traces holding a block
    are visible. *)
Theorem hover_blocks_in_figure (wd : World) (edges : list EdgeRec) :
  valid_input wd edges ->
  let G := build_graph edges in
  exists fig,
    written (run wd) = Some fig
    /\ forall u v d, In (u, v, d) (nx.edges G) ->
         let block_at i :=
           exists t s,
             nth_error (go.traces fig) i = Some t
             /\ go.visible t = true
             /\ go.text t = go.Text s
             /\ PyStr.Substring (hover_text u v d) s in
         (nx.weight d = 2%Z -> block_at 0%nat)
         /\ (nx.weight d = 3%Z -> block_at 1%nat)
         /\ forall i th,
              nth_error (all_themes edges) i = Some th ->
              In th (nx.themes d) ->
              (nx.weight d = 2%Z -> block_at (2 + 2 * i)%nat)
              /\ (nx.weight d = 3%Z -> block_at (2 + 2 * i + 1)%nat).
Proof.
  intros V G.
  destruct (run_figure wd edges V) as [pos [nt [_ [_ [_ [_ Wr]]]]]].
  fold G in Wr. eexists. split; [exact Wr|]. cbn [go.traces].
  intros u v d I.
  pose (block_at := fun i : nat =>
          exists t s,
            nth_error (traces_of G pos (all_themes edges) nt) i = Some t
            /\ go.visible t = true
            /\ go.text t = go.Text s
            /\ PyStr.Substring (hover_text u v d) s).
  assert (B : forall i f wt sfx,
            nth_error (traces_of G pos (all_themes edges) nt) i
            = Some (edge_trace G pos f (Some wt) sfx) ->
            f u v d = true -> nx.weight d = wt -> block_at i).
  { intros i f wt sfx Hn Hf Hw.
    destruct (MatchFacts.edge_trace_block G pos f (Some wt) sfx (u, v, d) I)
      as [Vis [s [Ht Hs]]].
    - unfold accepts. rewrite Hf, Hw. apply Z.eqb_refl.
    - exists (edge_trace G pos f (Some wt) sfx), s. auto. }
  split; [|split].
  - intros Hw. now apply (B 0%nat all_filter 2%Z "_all_w2").
  - intros Hw. now apply (B 1%nat all_filter 3%Z "_all_w3").
  - intros i th Hth Ith.
    destruct (FigureFacts.traces_of_theme G pos _ nt i th Hth) as [H2 H3].
    assert (M : theme_filter th u v d = true)
      by (unfold theme_filter; now apply EdgeFacts.pymem_In).
    split; intros Hw.
    + now apply (B _ (theme_filter th) 2%Z ("_" ++ th ++ "_w2")%string).
    + now apply (B _ (theme_filter th) 3%Z ("_" ++ th ++ "_w3")%string).
Qed.

Lemma hover_blocks_in_figure_witness :
  exists fig t s,
    written (run scenario_world) = Some fig
    /\ nth_error (go.traces fig) 3 = Some t
    /\ go.text t = go.Text s
    /\ PyStr.Substring
         (hover_text "B" "C" (nx.mkData 3 ["freedom"; "abolition"] "x")) s.
Proof.
  destruct (hover_blocks_in_figure scenario_world scenario_edges
              scenario_valid) as [fig [Wr H]].
  destruct (H "B" "C" (nx.mkData 3 ["freedom"; "abolition"] "x")
              (or_intror (or_introl eq_refl))) as [_ [_ Hth]].
  destruct (Hth 0%nat "abolition" eq_refl (or_intror (or_introl eq_refl)))
    as [_ H3].
  destruct (H3 eq_refl) as [t [s [Hn [_ [Ht Hs]]]]].
  exists fig, t, s. auto.
Defined.

(** ** Weights that are not drawn *)

Lemma reported_edge_record edges u v d :
  In (u, v, d) (nx.edges (build_graph edges)) ->
  exists e, In e edges /\ d = data_of e.
Proof.
  intros I.
  destruct (RecordFacts.edges_edge_data _ u v d
              (BuildFacts.wf_build_graph edges) I) as [E _].
  rewrite RecordFacts.edge_data_records in E.
  destruct (last_joining edges u v) as [e|] eqn:L; [|discriminate].
  injection E as <-. exists e. split; [|reflexivity].
  now apply (RecordFacts.last_joining_In edges u v e).
Qed.

(** X16. Only weights 2 and 3 are drawn: when no record has one of them,
    every trace of the figure but the node trace is the invisible
    placeholder. *)
Theorem other_weights_not_drawn (wd : World) (edges : list EdgeRec) :
  valid_input wd edges ->
  (forall e, In e edges -> w e <> 2%Z /\ w e <> 3%Z) ->
  exists fig,
    written (run wd) = Some fig
    /\ forall i t, nth_error (go.traces fig) i = Some t ->
         (i < List.length (go.traces fig) - 1)%nat ->
         go.visible t = false /\ go.x t = [None] /\ go.y t = [None].
Proof.
  intros V Hw.
  destruct (run_figure wd edges V) as [pos [nt [_ [C [_ [_ Wr]]]]]].
  set (G := build_graph edges) in *.
  eexists. split; [exact Wr|]. cbn [go.traces].
  assert (P : forall f wt sfx, wt = 2%Z \/ wt = 3%Z ->
            edge_trace G pos f (Some wt) sfx = placeholder sfx).
  { intros f wt sfx Hwt. apply edge_trace_none; [exact C|].
    intros [[u v] d] I. destruct (reported_edge_record edges u v d I)
      as [e [Ie ->]].
    unfold accepts, data_of. cbn [nx.weight].
    destruct (Hw e Ie) as [N2 N3].
    assert (E : (w e =? wt)%Z = false) by (apply Z.eqb_neq; lia).
    rewrite E. apply andb_false_r. }
  assert (F : Forall (fun t => go.visible t = false /\ go.x t = [None]
                               /\ go.y t = [None])
                     ([edge_trace G pos all_filter (Some 2%Z) "_all_w2";
                       edge_trace G pos all_filter (Some 3%Z) "_all_w3"]
                      ++ flat_map (fun th => [theme_trace_w2 G pos th;
                                              theme_trace_w3 G pos th])
                                  (all_themes edges))).
  { apply Forall_app. split.
    - rewrite !P by auto. repeat constructor.
    - apply Forall_flat_map, Forall_forall. intros th _.
      unfold theme_trace_w2, theme_trace_w3. rewrite !P by auto.
      repeat constructor. }
  intros i t Hn Hi. unfold traces_of in Hn, Hi. rewrite app_assoc in Hn, Hi.
  rewrite length_app in Hi. cbn [List.length] in Hi.
  rewrite nth_error_app1 in Hn by lia.
  rewrite Forall_forall in F. apply F. eapply nth_error_In, Hn.
Qed.

Lemma other_weights_not_drawn_witness :
  let wd := mkWorld "/srv/repo"
                    (Some [csv_row "A" "1800" "B" "1810" "1" "freedom" ""])
                    None in
  exists fig,
    written (run wd) = Some fig
    /\ forall i t, nth_error (go.traces fig) i = Some t ->
         (i < List.length (go.traces fig) - 1)%nat ->
         go.visible t = false /\ go.x t = [None] /\ go.y t = [None].
Proof.
  intros wd.
  apply (other_weights_not_drawn wd [mkEdge "A" 1800 "B" 1810 1 ["freedom"] ""]).
  - exists [csv_row "A" "1800" "B" "1810" "1" "freedom" ""].
    split; [reflexivity|]. split; [reflexivity|discriminate].
  - intros e [<-|[]]. split; discriminate.
Defined.

(** ** The run as a whole *)


(** X18. The script ends with status 0 exactly when the input is valid
    and not empty; it then prints one line naming the document, prints
    nothing on stderr, and the document is the figure of the records. *)
Theorem run_succeeds_iff_valid (wd : World) :
  (status (run wd) = Exit 0 <-> exists edges, valid_input wd edges)
  /\ forall edges, valid_input wd edges ->
       exists fig,
         build_figure edges = Ok fig
         /\ written (run wd) = Some fig
         /\ stdout (run wd)
            = [("Wrote "
                ++ path_join (path_join (REPO_ROOT wd) "assets")
                             "interactive.html")%string]
         /\ stderr (run wd) = [].
Proof.
  assert (S : forall edges, valid_input wd edges ->
            exists fig,
              build_figure edges = Ok fig
              /\ run wd
                 = mkOutcome (Exit 0)
                     [("Wrote "
                       ++ path_join (path_join (REPO_ROOT wd) "assets")
                                    "interactive.html")%string]
                     [] (write_html fig (module_load wd))).
  { intros edges [rows [Hc [Hl Hn]]].
    destruct (FigureFacts.figure_explicit edges)
      as [pos [nt [_ [_ [_ [_ F]]]]]].
    eexists. split; [exact F|]. unfold run, main.
    rewrite module_load_csv, module_load_root, Hc, Hl.
    destruct edges as [|e r]; [congruence|]. now rewrite F. }
  split; [split|].
  - unfold run, main. rewrite module_load_csv.
    destruct (edges_csv wd) as [rows|] eqn:Hc; [|discriminate].
    destruct (load_edges rows) as [[|e r]|x] eqn:Hl; try discriminate.
    intros _. exists (e :: r), rows.
    split; [exact Hc|]. split; [exact Hl|discriminate].
  - intros [edges V]. destruct (S edges V) as [fig [_ R]]. now rewrite R.
  - intros edges V. destruct (S edges V) as [fig [F R]].
    exists fig. rewrite R. repeat split. exact F.
Qed.

Lemma run_cases wd :
  (status (run wd) <> Exit 0 /\ world (run wd) = module_load wd)
  \/ (exists fig, status (run wd) = Exit 0 /\ stderr (run wd) = []
                  /\ world (run wd) = write_html fig (module_load wd)).
Proof.
  unfold run, main.
  destruct (edges_csv (module_load wd)) as [rows|];
    [|left; split; [discriminate|reflexivity]].
  destruct (load_edges rows) as [[|e r]|x];
    try (left; split; [discriminate|reflexivity]).
  destruct (build_figure (e :: r)) as [fig|x];
    [|left; split; [discriminate|reflexivity]].
  right. exists fig. repeat split.
Qed.

(** X19. Whatever the input, a run leaves [edges.csv] and the place of
    the script as they were, leaves the directory [assets/] in place,
    ends with status 0 or 1, and touches the document only when it ends
    with status 0. *)
Theorem run_frame (wd : World) :
  edges_csv (world (run wd)) = edges_csv wd
  /\ REPO_ROOT (world (run wd)) = REPO_ROOT wd
  /\ assets (world (run wd)) <> None
  /\ (exit_status (status (run wd)) = 0%Z
      \/ exit_status (status (run wd)) = 1%Z)
  /\ (status (run wd) <> Exit 0 -> html_of (world (run wd)) = html_of wd).
Proof.
  assert (A : assets (module_load wd) <> None).
  { unfold module_load. destruct (assets wd) eqn:E; simpl; congruence. }
  assert (X : exit_status (status (run wd)) = 0%Z
              \/ exit_status (status (run wd)) = 1%Z).
  { unfold run, main. destruct (edges_csv (module_load wd)); [|now right].
    destruct (load_edges l) as [[|e r]|x]; try now right.
    destruct (build_figure (e :: r)); [now left|now right]. }
  destruct (run_cases wd) as [[S E]|[fig [S [_ E]]]]; rewrite E.
  - repeat split; try assumption.
    + apply module_load_csv.
    + apply module_load_root.
    + intros _. apply module_load_html.
  - unfold write_html. cbn [edges_csv REPO_ROOT assets].
    repeat split; try assumption.
    + apply module_load_csv.
    + apply module_load_root.
    + discriminate.
    + intros N. contradiction.
Qed.

(** ** The entries of the dropdown against the traces *)

Module ButtonFacts.
Import ViewFacts.

(** The entry at place [q] shows the traces at [2 q] and [2 q + 1], and
    the last one. *)
Lemma button_true ths q b :
  NoDup ths -> nth_error (buttons_of ths) q = Some b ->
  (q <= List.length ths)%nat
  /\ forall j, nth_error (go.args_visible b) j = Some true
               <-> j = (2 * q)%nat \/ j = (2 * q + 1)%nat
                   \/ j = (2 * List.length ths + 2)%nat.
Proof.
  intros ND H. unfold buttons_of in H. destruct q as [|i]; cbn [nth_error] in H.
  - injection H as <-. cbn [go.args_visible]. split; [lia|].
    intros j. rewrite shape_true. lia.
  - assert (Li : (i < List.length ths)%nat).
    { rewrite <- (length_map (theme_button ths)). apply nth_error_Some.
      congruence. }
    destruct (nth_error ths i) as [th|] eqn:E;
      [|apply nth_error_None in E; lia].
    rewrite (map_nth_error _ _ _ E) in H. injection H as <-.
    unfold theme_button. cbn [go.args_visible].
    rewrite (idx_nth th ths i ND E).
    split; [lia|]. intros j. rewrite shape_true. lia.
Qed.

Lemma button_exists ths q :
  (q <= List.length ths)%nat -> exists b, nth_error (buttons_of ths) q = Some b.
Proof.
  intros L. destruct (nth_error (buttons_of ths) q) as [b|] eqn:E;
    [now exists b|].
  apply nth_error_None in E. unfold buttons_of in E.
  cbn [List.length] in E. rewrite length_map in E. lia.
Qed.

End ButtonFacts.

(** X21. The entries of the dropdown share out the edge traces: every
    trace but the last is shown by exactly one entry, and the last one,
    the node trace, by every entry. *)
Theorem each_edge_trace_has_one_button (wd : World) (edges : list EdgeRec) :
  valid_input wd edges ->
  exists fig,
    written (run wd) = Some fig
    /\ (forall j, (j < List.length (go.traces fig) - 1)%nat ->
          exists p b,
            nth_error (go.updatemenus fig) p = Some b
            /\ nth_error (go.args_visible b) j = Some true
            /\ forall q b', nth_error (go.updatemenus fig) q = Some b' ->
                 nth_error (go.args_visible b') j = Some true -> q = p)
    /\ forall q b', nth_error (go.updatemenus fig) q = Some b' ->
         nth_error (go.args_visible b')
                   (List.length (go.traces fig) - 1) = Some true.
Proof.
  intros V.
  destruct (run_figure wd edges V) as [pos [nt [_ [_ [_ [_ Wr]]]]]].
  eexists. split; [exact Wr|]. cbn [go.traces go.updatemenus].
  rewrite FigureFacts.traces_of_length.
  pose proof (ThemeFacts.all_themes_nodup edges) as ND.
  set (ths := all_themes edges) in *.
  split.
  - intros j Hj.
    pose proof (Nat.div_mod_eq j 2) as Dm.
    assert (Mu : (j mod 2 < 2)%nat) by (apply Nat.mod_upper_bound; lia).
    destruct (ButtonFacts.button_exists ths (j / 2)) as [b Hb]; [lia|].
    exists (j / 2)%nat, b. split; [exact Hb|].
    destruct (ButtonFacts.button_true ths _ b ND Hb) as [_ T].
    split; [apply T; lia|].
    intros q b' Hq Hv.
    destruct (ButtonFacts.button_true ths q b' ND Hq) as [_ T'].
    apply T' in Hv. lia.
  - intros q b' Hq.
    destruct (ButtonFacts.button_true ths q b' ND Hq) as [_ T'].
    apply T'. lia.
Qed.

Lemma each_edge_trace_has_one_button_witness :
  exists fig,
    written (run scenario_world) = Some fig
    /\ forall q b', nth_error (go.updatemenus fig) q = Some b' ->
         nth_error (go.args_visible b')
                   (List.length (go.traces fig) - 1) = Some true.
Proof.
  destruct (each_edge_trace_has_one_button scenario_world scenario_edges
              scenario_valid) as [fig [Wr [_ H]]].
  exists fig. split; [exact Wr|exact H].
Defined.

(** X22. The sorted themes depend only on which themes the records
    carry, not on the order of the records nor on how often a theme is
    given. *)
Theorem all_themes_depend_on_theme_set (edges edges' : list EdgeRec) :
  (forall th, (exists e, In e edges /\ In th (themes e))
              <-> (exists e, In e edges' /\ In th (themes e))) ->
  all_themes edges = all_themes edges'.
Proof.
  intros H.
  apply (SortFacts.sorted_unique String.leb (fun t => t)).
  - intros a b. apply String.leb_antisym.
  - apply SortFacts.sorted_sorted;
      [exact String.leb_total|exact (fun a b c => ThemeFacts.leb_trans a b c)].
  - apply SortFacts.sorted_sorted;
      [exact String.leb_total|exact (fun a b c => ThemeFacts.leb_trans a b c)].
  - apply NoDup_Permutation; try apply ThemeFacts.all_themes_nodup.
    intros th. now rewrite !ThemeFacts.all_themes_In.
Qed.

Lemma all_themes_depend_on_theme_set_witness :
  all_themes scenario_edges = all_themes (rev scenario_edges).
Proof.
  apply all_themes_depend_on_theme_set. intros th.
  split; intros [e [I T]]; exists e; (split; [|exact T]).
  - now apply in_rev in I.
  - now apply in_rev.
Defined.

(** ** The node trace *)



(** ** The direction of a reported edge *)

Module DirectionFacts.
Import RecordFacts.

Lemma last_joining_none l u v :
  forallb (fun e => negb (joins u v e)) l = true -> last_joining l u v = None.
Proof.
  induction l as [|e r IH]; simpl; intros H; [reflexivity|].
  apply andb_prop in H. destruct H as [H1 H2]. rewrite (IH H2).
  apply negb_true_iff in H1. now rewrite H1.
Qed.

Lemma last_joining_app l1 l2 u v :
  last_joining (l1 ++ l2) u v
  = match last_joining l2 u v with
    | Some e => Some e
    | None => last_joining l1 u v
    end.
Proof.
  induction l1 as [|e r IH]; simpl.
  - now destruct (last_joining l2 u v).
  - rewrite IH. now destruct (last_joining l2 u v).
Qed.

Lemma last_joining_here pre r post :
  forallb (fun e => negb (joins (src r) (tgt r) e)) post = true ->
  last_joining (pre ++ r :: post) (src r) (tgt r) = Some r.
Proof.
  intros H. rewrite last_joining_app. simpl.
  now rewrite (last_joining_none post _ _ H), joins_self.
Qed.

End DirectionFacts.

(** X24. The edge of the last record joining two titles is reported from
    source to target exactly when the source was first named no later
    than the target, and from target to source exactly when the target
    was first named no later than the source. *)
Theorem reported_direction (pre : list EdgeRec) (r : EdgeRec)
    (post : list EdgeRec) :
  forallb (fun e => negb (joins (src r) (tgt r) e)) post = true ->
  let edges := pre ++ r :: post in
  let G := build_graph edges in
  (In (src r, tgt r, data_of r) (nx.edges G)
   <-> (idx (src r) (first_seen edges) <= idx (tgt r) (first_seen edges))%nat)
  /\ (In (tgt r, src r, data_of r) (nx.edges G)
      <-> (idx (tgt r) (first_seen edges)
           <= idx (src r) (first_seen edges))%nat).
Proof.
  intros H edges G.
  assert (W : well_formed G) by apply BuildFacts.wf_build_graph.
  pose proof (DirectionFacts.last_joining_here pre r post H) as L.
  fold edges in L.
  split.
  - rewrite (RecordFacts.edges_iff G _ _ _ W).
    unfold G. rewrite BuildFacts.node_list_build_graph,
      RecordFacts.edge_data_records, L. simpl. tauto.
  - rewrite (RecordFacts.edges_iff G _ _ _ W).
    unfold G. rewrite BuildFacts.node_list_build_graph,
      RecordFacts.edge_data_records, RecordFacts.last_joining_sym, L.
    simpl. tauto.
Qed.

Lemma reported_direction_witness :
  In ("B", "C", nx.mkData 2 ["abolition"] "x")
     (nx.edges (build_graph shared_target_edges)).
Proof.
  destruct (reported_direction
              [mkEdge "A" 1800 "B" 1850 2 ["freedom"] ""]
              (mkEdge "C" 1810 "B" 1850 2 ["abolition"] "x") [] eq_refl)
    as [_ H].
  apply H. vm_compute. lia.
Defined.

(** ** Errors of the helpers *)

Module HelperFacts.

Lemma edge_step_accepted pos f wt x y t u v d :
  accepts f wt (u, v, d) = true ->
  edge_step pos f wt (x, y, t) (u, v, d)
  = ('(x0, y0) <- Dict.item u pos ;;
     '(x1, y1) <- Dict.item v pos ;;
     Ok (x ++ [Some x0; Some x1; None],
         y ++ [Some y0; Some y1; None],
         t ++ [hover_text u v d])).
Proof.
  unfold accepts, edge_step. intros A.
  apply andb_prop in A. destruct A as [A1 A2]. rewrite A1. simpl.
  destruct wt as [z|]; [now rewrite A2|reflexivity].
Qed.

(** The loop stops with [KeyError] at the first accepted edge that has
    an endpoint without a position. *)
Lemma edge_loop_KeyError pos f wt l : forall acc,
  (exists u v d, In (u, v, d) l /\ accepts f wt (u, v, d) = true
                 /\ (Dict.get u pos = None \/ Dict.get v pos = None)) ->
  for_each (edge_step pos f wt) l acc = Raise KeyError.
Proof.
  induction l as [|[[a b] dd] r IH]; intros [[x y] t] (u & v & d & I & A & M);
    [contradiction|].
  cbn [for_each].
  destruct (accepts f wt (a, b, dd)) eqn:Ah.
  - rewrite (edge_step_accepted pos f wt x y t a b dd Ah).
    unfold Dict.item.
    destruct (Dict.get a pos) as [[x0 y0]|] eqn:Ga; [|reflexivity].
    destruct (Dict.get b pos) as [[x1 y1]|] eqn:Gb; [|reflexivity].
    cbn [bind]. apply IH. exists u, v, d.
    destruct I as [E|I]; [|auto].
    inversion E; subst. destruct M; congruence.
  - rewrite (TraceFacts.edge_step_skip pos f wt _ _ Ah). cbn [bind].
    apply IH. exists u, v, d.
    destruct I as [E|I]; [|auto]. inversion E; subst. congruence.
Qed.

Lemma index_missing th l : ~ In th l -> PyList.index th l = Raise ValueError.
Proof.
  induction l as [|a r IH]; simpl; intros N; [reflexivity|].
  destruct (String.eqb_spec a th) as [->|_]; [exfalso; auto|].
  rewrite IH by tauto. reflexivity.
Qed.

Lemma join_truthy sep a r :
  a <> EmptyString -> PyStr.truthy (PyStr.join sep (a :: r)) = true.
Proof.
  intros N. destruct a as [|c a]; [contradiction|].
  destruct r; reflexivity.
Qed.

Lemma themes_nonempty row e :
  load_row row = Ok e -> Forall (fun t => t <> EmptyString) (themes e).
Proof.
  intros H.
  destruct (LoaderFacts.load_row_inv row e H)
    as (s1 & s2 & s3 & s4 & s5 & s6 & s7 & _ & _ & _ & _ & _ & _ & _
        & _ & _ & _ & _ & _ & Ht & _).
  rewrite Ht. apply Forall_forall. intros t I.
  apply in_map_iff in I. destruct I as [t0 [<- I]].
  apply filter_In in I. destruct I as [_ T].
  unfold normalize_theme. intros E. apply FieldFacts.lower_empty in E.
  now apply FieldFacts.truthy_nonempty in T.
Qed.

End HelperFacts.

(** X25. The trace generator raises [KeyError] when an edge it accepts
    has an endpoint without a position. *)
Theorem make_edge_trace_needs_positions (G : nx.Graph) (pos : Pos)
    (f : Filter) (wt : option Z) (sfx : string) (u v : string)
    (d : nx.data) :
  In (u, v, d) (nx.edges G) -> accepts f wt (u, v, d) = true ->
  Dict.get u pos = None \/ Dict.get v pos = None ->
  make_edge_trace G pos f wt sfx = Raise KeyError.
Proof.
  intros I A M. unfold make_edge_trace.
  rewrite HelperFacts.edge_loop_KeyError; [reflexivity|].
  exists u, v, d. auto.
Qed.

Lemma make_edge_trace_needs_positions_witness :
  make_edge_trace (build_graph scenario_edges) [("A", (1800, 0)%Z)]
                  all_filter (Some 2%Z) "_all_w2"
  = Raise KeyError.
Proof.
  apply (make_edge_trace_needs_positions _ _ _ _ _ "A" "B"
           (nx.mkData 2 ["freedom"] "")).
  - left. reflexivity.
  - reflexivity.
  - right. reflexivity.
Defined.

(** X26. The graph the builder returns is a sound undirected graph: the
    nodes and the adjacency have the same keys, each once; every
    neighbour is a node and is listed once; an edge has the same
    attributes from both ends; and every node has a year. *)
Theorem build_graph_well_formed (edges : list EdgeRec) :
  well_formed (build_graph edges) /\ dated (build_graph edges).
Proof.
  split; [apply BuildFacts.wf_build_graph|apply BuildFacts.dated_build_graph].
Qed.

(** X27. For a record that was parsed, the hover block shows the dash
    exactly in place of an empty list of themes; a record with themes
    shows them joined by a comma and a space. *)
Theorem hover_themes_of_parsed_record (row : Row) (e : EdgeRec)
    (u v : string) :
  load_row row = Ok e ->
  hover_text u v (data_of e)
  = (u ++ " → " ++ v ++ "<br>"
     ++ "Themes: "
     ++ match themes e with
        | [] => "—"
        | _ => PyStr.join ", " (themes e)
        end
     ++ "<br>"
     ++ "Influence: " ++ PyStr.str_of_int (w e) ++ " / 3<br>"
     ++ note e)%string.
Proof.
  intros H. pose proof (HelperFacts.themes_nonempty row e H) as N.
  unfold hover_text, data_of, str_or. cbn [nx.themes nx.weight nx.note].
  destruct (themes e) as [|a r]; [reflexivity|].
  inversion N as [|? ? Na _]; subst.
  now rewrite (HelperFacts.join_truthy ", " a r Na).
Qed.

Lemma hover_themes_of_parsed_record_witness :
  hover_text "A" "B" (data_of (mkEdge "A" 1800 "B" 1810 2 [] "n"))
  = "A → B<br>Themes: —<br>Influence: 2 / 3<br>n".
Proof.
  exact (hover_themes_of_parsed_record
           (csv_row "A" "1800" "B" "1810" "2" " ; " "n")
           (mkEdge "A" 1800 "B" 1810 2 [] "n") "A" "B" eq_refl).
Defined.

(** X28. Asking for the vector of a theme that has no theme traces
    raises [ValueError]. *)
Theorem vis_for_theme_unknown (tts : ThemeTraces) (n node_idx : Z)
    (th : string) :
  ~ In th (map (fun '(t, _, _) => t) tts) ->
  vis_for_theme tts n node_idx th = Raise ValueError.
Proof.
  intros N. unfold vis_for_theme.
  now rewrite (HelperFacts.index_missing th _ N).
Qed.

Lemma vis_for_theme_unknown_witness :
  vis_for_theme [] 3 2 "freedom" = Raise ValueError.
Proof.
  apply vis_for_theme_unknown. intros [].
Defined.

(** X29. The vector of "All themes" needs at least two traces: with
    fewer, one of its index writes is out of range and raises
    [IndexError]. *)
Theorem vis_all_needs_two_traces (n : Z) :
  (n < 2)%Z -> vis_all n (n - 1) = Raise IndexError.
Proof.
  intros H. unfold vis_all, PyList.replicate.
  destruct (Z.eq_dec n 1) as [->|N]; [reflexivity|].
  assert (E : Z.to_nat n = O) by lia. rewrite E. reflexivity.
Qed.

Lemma vis_all_needs_two_traces_witness :
  vis_all 1 (1 - 1) = Raise IndexError.
Proof.
  apply vis_all_needs_two_traces. reflexivity.
Defined.
